(** * Retry executors of [google.api_core.retry_async]

    A shallow embedding of [src/google/api_core/retry_async.py]:
    the policy class [AsyncRetry], the single-shot executor
    [retry_target] and the streaming executor [retry_target_generator],
    together with the properties the specification states about them.

    Durations and clock readings are exact rationals ([Q], in seconds);
    the rounding of Python floats is not modelled: the budget of the
    streaming executor is updated by exact subtraction where the code
    subtracts floats, so what is stated about the budget is stated of
    single updates, of comparisons, and of bounds that rounding
    preserves, never of the exact value of a sum of updates.
    Everything the
    executors await (the operation, the stream, the consumer of the
    wrapper, the sleep, the wall clock) is an explicit transition on an
    abstract world state, so every theorem holds for every behaviour of
    these collaborators.  The classifier is a total function, as its
    interface says.  Loops run on fuel; a run that is out of fuel has
    not ended.  Each run records the trace of what it did to its
    collaborators, most recent event first. *)

From Stdlib Require Import List Bool Arith Lia QArith Lqa.
Import ListNotations.

Set Implicit Arguments.
Close Scope Q_scope.

(** ** Python values and exceptions *)

Module Py.

(** The exception classes the executors raise, catch or test for.
    [RetryError] carries the value of [timeout] that its message
    formats and the [cause] argument of its constructor. *)
#[warnings="-register-all"]
Inductive exn : Type :=
| StopAsyncIteration
| GeneratorExit
| CancelledError
| TimeoutError
| TypeError
| UnboundLocalError
| ValueError
| RetryError (timeout : option Q) (cause : option exn)
| AppError (code : nat)
| AppBaseError (code : nat).

(** [isinstance(e, Exception)].  [GeneratorExit], [CancelledError]
    (since Python 3.8) and [AppBaseError] (an application class such as
    [KeyboardInterrupt]) derive from [BaseException] only. *)
Definition is_Exception (e : exn) : bool :=
  match e with
  | GeneratorExit | CancelledError | AppBaseError _ => false
  | _ => true
  end.

(** [isinstance(e, asyncio.TimeoutError)] *)
Definition is_TimeoutError (e : exn) : bool :=
  match e with TimeoutError => true | _ => false end.

Definition is_CancelledError (e : exn) : bool :=
  match e with CancelledError => true | _ => false end.

Definition is_GeneratorExit (e : exn) : bool :=
  match e with GeneratorExit => true | _ => false end.

Definition is_StopAsyncIteration (e : exn) : bool :=
  match e with StopAsyncIteration => true | _ => false end.

Definition is_RetryError (e : exn) : bool :=
  match e with RetryError _ _ => true | _ => false end.

(** Truth value of a number: zero is false. *)
Definition truthy (q : Q) : bool := negb (Qeq_bool q 0).

(** Truth value of a number-or-None. *)
Definition truthy_opt (x : option Q) : bool :=
  match x with Some q => truthy q | None => false end.

(** [x or y] where [x] is a number or [None] and [y] a number. *)
Definition or_num (x : option Q) (y : Q) : Q :=
  match x with
  | Some q => if truthy q then q else y
  | None => y
  end.

(** [x or y] where both are a number or [None]. *)
Definition or_opt (x y : option Q) : option Q :=
  if truthy_opt x then x else y.

(** [x or y] where [x] is a callable or [None]: callables are true. *)
Definition or_obj {A : Type} (x : option A) (y : A) : A :=
  match x with Some a => a | None => y end.

Definition or_obj_opt {A : Type} (x y : option A) : option A :=
  match x with Some a => Some a | None => y end.

(** [a <= b] on numbers. *)
Definition le (a b : Q) : bool := Qle_bool a b.

(** [x <= b] where [x] may be [None]: Python 3 refuses to order
    [None] against a number and raises [TypeError]. *)
Definition le_opt (x : option Q) (b : Q) : exn + bool :=
  match x with
  | None => inl TypeError
  | Some a => inr (le a b)
  end.

(** [min(a, b)]: the first argument unless the second is smaller. *)
Definition min (a b : Q) : Q := if le a b then a else b.

(** [kwargs.get("deadline", timeout)]: [kw] is [None] when the keyword
    is absent, otherwise the value passed for it. *)
Definition kwargs_get_deadline (kw : option (option Q)) (timeout : option Q)
  : option Q :=
  match kw with Some d => d | None => timeout end.

End Py.

Export Py.

(** ** The retry policy: class [AsyncRetry] *)

Module Policy.

Section WithHook.

(** The type of error hooks is left open. *)
Variable Hook : Type.

(** The attributes [__init__] assigns. *)
Record AsyncRetry : Type := mkAsyncRetry {
  _predicate : exn -> bool;
  _initial : Q;
  _multiplier : Q;
  _maximum : Q;
  _timeout : option Q;
  _deadline : option Q;
  _on_error : option Hook;
  _is_generator : option bool
}.

(** Instances live in a store; a reference is an index into it, and
    constructing an instance allocates the next index. *)
Definition ref : Type := nat.
Definition store : Type := list AsyncRetry.

Definition deref (h : store) (r : ref) : option AsyncRetry :=
  nth_error h r.

Definition alloc (o : AsyncRetry) (h : store) : ref * store :=
  (length h, h ++ [o]).

Definition _DEFAULT_INITIAL_DELAY : Q := 1.
Definition _DEFAULT_MAXIMUM_DELAY : Q := 60.
Definition _DEFAULT_DELAY_MULTIPLIER : Q := 2.
Definition _DEFAULT_TIMEOUT : Q := (60 * 2)%Q.

(** [AsyncRetry.__init__]; [kw_deadline] is the deprecated keyword. *)
Definition __init__ (predicate : exn -> bool) (initial maximum multiplier : Q)
    (timeout : option Q) (on_error : option Hook)
    (is_generator : option bool) (kw_deadline : option (option Q))
  : AsyncRetry :=
  let t := kwargs_get_deadline kw_deadline timeout in
  {| _predicate := predicate;
     _initial := initial;
     _multiplier := multiplier;
     _maximum := maximum;
     _timeout := t;
     _deadline := t;
     _on_error := on_error;
     _is_generator := is_generator |}.

(** [AsyncRetry._replace]: every argument defaults to [None] and is
    combined with the current attribute by [or]; [is_generator] is
    not passed on, so the new instance gets its default [None]. *)
Definition _replace (self : ref)
    (predicate : option (exn -> bool))
    (initial maximum multiplier timeout : option Q)
    (on_error : option Hook) (h : store) : option (ref * store) :=
  match deref h self with
  | None => None
  | Some p =>
      Some (alloc
        (__init__
           (or_obj predicate (_predicate p))
           (or_num initial (_initial p))
           (or_num maximum (_maximum p))
           (or_num multiplier (_multiplier p))
           (or_opt timeout (_timeout p))
           (or_obj_opt on_error (_on_error p))
           None None) h)
  end.

Definition with_deadline (self : ref) (deadline : option Q) (h : store) :=
  _replace self None None None None deadline None h.

Definition with_timeout (self : ref) (timeout : option Q) (h : store) :=
  _replace self None None None None timeout None h.

Definition with_predicate (self : ref) (predicate : option (exn -> bool))
    (h : store) :=
  _replace self predicate None None None None None h.

Definition with_delay (self : ref) (initial maximum multiplier : option Q)
    (h : store) :=
  _replace self None initial maximum multiplier None None h.

(** [res] is a new instance [o'] allocated next to the instances of
    [h], all of which are left as they were. *)
Definition derives (h : store) (p : ref)
    (res : option (ref * store)) (o' : AsyncRetry) : Prop :=
  exists r h',
    res = Some (r, h') /\ r <> p /\ deref h' r = Some o' /\
    forall q x, deref h q = Some x -> deref h' q = Some x.

End WithHook.

End Policy.

(** ** The single-shot executor: [retry_target] *)

Module SingleShot.

(** What a run does, as seen from outside. *)
Inductive event : Type :=
| EvCall (bound : option Q)   (* [target()] awaited; under [wait_for(timeout=bound)] when [Some] *)
| EvOnError (e : exn)         (* [on_error(e)] called *)
| EvSleep (d : Q).            (* [asyncio.sleep(d)] awaited *)

Inductive outcome (V : Type) : Type :=
| Returned (v : V)
| Raised (e : exn)
| OutOfFuel.
Arguments Raised {V} e.
Arguments OutOfFuel {V}.

(** The collaborators of a run, as transitions on a world [W]. *)
Record env (W V : Type) : Type := mkEnv {
  utcnow : W -> Q * W;                          (* [datetime_helpers.utcnow()] *)
  target : option Q -> W -> (exn + V) * W;      (* [await target()], possibly under [wait_for] *)
  on_error : option (exn -> W -> option exn * W); (* the hook; [Some e] when it raises *)
  asleep : Q -> W -> W                          (* [await asyncio.sleep(d)] *)
}.

(** The result of a run: how it ended, its events (most recent
    first) and the world it left. *)
Record run (W V : Type) : Type := mkRun {
  result : outcome V;
  trace : list event;
  world : W
}.

Section Model.

Variables W V : Type.
Variable E : env W V.
Variable predicate : exn -> bool.
Variable sleep_generator : nat -> option Q. (* the n-th value; [None] once it stops *)
Variable timeout : option Q.                (* after [kwargs.get("deadline", timeout)] *)

(** Lines 233-237: the deadline, or [None] when [timeout] is false. *)
Definition init_deadline (w : W) : option Q * W :=
  match timeout with
  | Some t =>
      if truthy t then let (now, w1) := utcnow E w in (Some (now + t)%Q, w1)
      else (None, w)
  | None => (None, w)
  end.

(** Lines 243-249: the bound of the attempt. *)
Definition attempt_bound (deadline_dt : option Q) (w : W) : option Q * W :=
  match deadline_dt with
  | None => (None, w)
  | Some d => let (now, w1) := utcnow E w in (Some (d - now)%Q, w1)
  end.

(** Lines 256-257. *)
Definition call_on_error (exc : exn) (tr : list event) (w : W)
  : option exn * list event * W :=
  match on_error E with
  | None => (None, tr, w)
  | Some hook => let (r, w1) := hook exc w in (r, EvOnError exc :: tr, w1)
  end.

(** Lines 261-273: fail, or the sleep to perform. *)
Definition next_sleep (deadline_dt : option Q) (now sleep : Q)
    (last_exc : option exn) : exn + Q :=
  match deadline_dt with
  | Some d =>
      if le d now then inl (RetryError timeout last_exc)
      else inr (min (d - now) sleep)
  | None => inr sleep
  end.

(** Lines 241-280: the [for] loop from its [i]-th iteration on. *)
Fixpoint retry_loop (fuel i : nat) (deadline_dt : option Q)
    (last_exc : option exn) (tr : list event) (w : W) : run W V :=
  match fuel with
  | O => mkRun OutOfFuel tr w
  | S fuel' =>
    match sleep_generator i with
    | None => mkRun (Raised ValueError) tr w
    | Some sleep =>
      let (bound, w1) := attempt_bound deadline_dt w in
      let (r, w2) := target E bound w1 in
      let tr1 := EvCall bound :: tr in
      match r with
      | inr v => mkRun (Returned v) tr1 w2
      | inl exc =>
        if negb (is_Exception exc) then mkRun (Raised exc) tr1 w2
        else if negb (predicate exc) && negb (is_TimeoutError exc)
        then mkRun (Raised exc) tr1 w2
        else
          let last_exc1 := Some exc in
          match call_on_error exc tr1 w2 with
          | (Some e', tr2, w3) => mkRun (Raised e') tr2 w3
          | (None, tr2, w3) =>
            let (now, w4) := utcnow E w3 in
            match next_sleep deadline_dt now sleep last_exc1 with
            | inl e => mkRun (Raised e) tr2 w4
            | inr d =>
                retry_loop fuel' (S i) deadline_dt last_exc1
                  (EvSleep d :: tr2) (asleep E d w4)
            end
          end
      end
    end
  end.

Definition retry_target (fuel : nat) (w : W) : run W V :=
  let (deadline_dt, w1) := init_deadline w in
  retry_loop fuel 0 deadline_dt None [] w1.

End Model.

(** The sleeps of a trace, oldest first, and the number of attempts. *)
Definition sleeps (tr : list event) : list Q :=
  rev (flat_map (fun e => match e with EvSleep d => [d] | _ => [] end) tr).

Definition attempts (tr : list event) : nat :=
  length (filter (fun e => match e with EvCall _ => true | _ => false end) tr).

End SingleShot.

(** ** The streaming executor: [retry_target_generator] *)

Module Streaming.

(** What the consumer of the wrapper does at a [yield]:
    [asend(v)] (a plain iteration step sends [None]), [athrow(e)],
    or [aclose()]. *)
Inductive response (V : Type) : Type :=
| Send (v : option V)
| Throw (e : exn)
| Close.
Arguments Close {V}.
Arguments Throw {V} e.

(** What a run does, as seen from outside. *)
Inductive event (H V : Type) : Type :=
| EvOpen (g : H)                 (* [target()] returned the stream [g] *)
| EvFactoryError (e : exn)       (* [target()] raised [e] *)
| EvAsend (g : H) (sent : option V) (bound : option Q)
                                 (* [g.asend(sent)] awaited, under [wait_for] when [Some] *)
| EvAthrow (g : H) (e : exn)     (* [g.athrow(e)] awaited *)
| EvAclose (g : H)               (* [g.aclose()] awaited *)
| EvYield (v : V)                (* the wrapper yielded [v] *)
| EvClosing                      (* the consumer called [aclose()] on the wrapper *)
| EvOnError (e : option exn)     (* [on_error(e)] called *)
| EvSleep (d : Q).               (* [asyncio.sleep(d)] awaited *)
Arguments EvFactoryError {H V} e.
Arguments EvYield {H V} v.
Arguments EvClosing {H V}.
Arguments EvOnError {H V} e.
Arguments EvSleep {H V} d.
Arguments EvOpen {H V} g.
Arguments EvAclose {H V} g.
Arguments EvAthrow {H V} g e.

(** The collaborators of a run, as transitions on a world [W]; [H] is
    the type of stream objects and [V] of the values passed around. *)
Record env (W H V : Type) : Type := mkEnv {
  utcnow : W -> Q * W;          (* [datetime_helpers.utcnow()] *)
  target : W -> (exn + H) * W;  (* [target()]: a new stream, or an error *)
  asend : H -> option V -> option Q -> W -> (exn + V) * W;
                                (* [await g.asend(sent)], under [wait_for] when bounded *)
  athrow : H -> exn -> W -> (exn + V) * W;  (* [await g.athrow(e)] *)
  aclose : H -> W -> option exn * W;        (* [await g.aclose()]; [Some e] when it raises *)
  consumer : V -> W -> response V * W;      (* what the consumer does with a yielded value *)
  on_error : option (option exn -> W -> (exn + option V) * W);
                                (* the hook: what it raises or returns *)
  asleep : Q -> W -> W          (* [await asyncio.sleep(d)] *)
}.

(** How a block of the generator's body ends: it falls through with a
    value, raises, executes [return], is left suspended at a [yield]
    it reached while the consumer's [aclose()] was running (that
    [aclose()] raises [RuntimeError], and neither handler nor
    [finally] clause of the generator runs), or the model runs out of
    fuel. *)
Inductive ctl (A : Type) : Type :=
| Normal (a : A)
| Raise (e : exn)
| Return
| Suspended
| Fuel.
Arguments Raise {A} e.
Arguments Return {A}.
Arguments Suspended {A}.
Arguments Fuel {A}.

(** Whether the consumer has called [aclose()] on the wrapper. *)
Definition closing {H V} (tr : list (event H V)) : bool :=
  existsb (fun e => match e with EvClosing => true | _ => false end) tr.

(** The local variables of the generator and the world it runs in;
    [start_timestamp] is [None] until line 139 first assigns it.
    [trace] has the most recent event first. *)
Record state (W H V : Type) : Type := mkState {
  world : W;
  trace : list (event H V);
  last_exc : option exn;
  subgenerator : option H;
  remaining_timeout_budget : option Q;
  start_timestamp : option Q
}.

Section Model.

Variables W H V : Type.
Variable E : env W H V.
Variable predicate : exn -> bool.
Variable sleep_generator : nat -> option Q. (* the n-th value; [None] once it stops *)
Variable timeout_arg : option Q.            (* the [timeout] parameter *)
Variable kw_deadline : option (option Q).   (* the [deadline] keyword, when given *)

Abbreviation st := (state W H V).
Definition M (A : Type) : Type := st -> ctl A * st.

Definition ret {A} (a : A) : M A := fun s => (Normal a, s).
Definition raise {A} (e : exn) : M A := fun s => (Raise e, s).
Definition gen_return {A} : M A := fun s => (Return, s).
Definition out_of_fuel {A} : M A := fun s => (Fuel, s).

Definition bind {A B} (m : M A) (k : A -> M B) : M B :=
  fun s =>
    match m s with
    | (Normal a, s1) => k a s1
    | (Raise e, s1) => (Raise e, s1)
    | (Return, s1) => (Return, s1)
    | (Suspended, s1) => (Suspended, s1)
    | (Fuel, s1) => (Fuel, s1)
    end.

Notation "x <- m ;; k" := (bind m (fun x => k))
  (at level 61, m at next level, right associativity).
Notation "m ;;; k" := (bind m (fun _ => k))
  (at level 61, right associativity).

(** Updates of one component of the state. *)
Definition with_world (w : W) (s : st) : st :=
  mkState w (trace s) (last_exc s) (subgenerator s)
    (remaining_timeout_budget s) (start_timestamp s).
Definition log (e : event H V) (s : st) : st :=
  mkState (world s) (e :: trace s) (last_exc s) (subgenerator s)
    (remaining_timeout_budget s) (start_timestamp s).
Definition set_last_exc (x : option exn) : M unit := fun s =>
  (Normal tt, mkState (world s) (trace s) x (subgenerator s)
    (remaining_timeout_budget s) (start_timestamp s)).
Definition set_subgenerator (g : option H) : M unit := fun s =>
  (Normal tt, mkState (world s) (trace s) (last_exc s) g
    (remaining_timeout_budget s) (start_timestamp s)).
Definition set_budget (b : option Q) : M unit := fun s =>
  (Normal tt, mkState (world s) (trace s) (last_exc s) (subgenerator s)
    b (start_timestamp s)).
Definition set_start_timestamp (t : option Q) : M unit := fun s =>
  (Normal tt, mkState (world s) (trace s) (last_exc s) (subgenerator s)
    (remaining_timeout_budget s) t).

Definition get_budget : M (option Q) := fun s =>
  (Normal (remaining_timeout_budget s), s).
Definition get_last_exc : M (option exn) := fun s => (Normal (last_exc s), s).

(** Reading [start_timestamp]: an unbound local raises. *)
Definition read_start_timestamp : M Q := fun s =>
  match start_timestamp s with
  | Some t => (Normal t, s)
  | None => (Raise UnboundLocalError, s)
  end.

(** The awaited operations. *)
Definition now_ : M Q := fun s =>
  let (t, w) := utcnow E (world s) in (Normal t, with_world w s).

Definition call_target : M H := fun s =>
  match target E (world s) with
  | (inr g, w) => (Normal g, log (EvOpen g) (with_world w s))
  | (inl e, w) => (Raise e, log (EvFactoryError e) (with_world w s))
  end.

Definition await_asend (g : H) (sent : option V) (bound : option Q) : M V :=
  fun s =>
    let s1 := log (EvAsend g sent bound) s in
    match asend E g sent bound (world s) with
    | (inr v, w) => (Normal v, with_world w s1)
    | (inl e, w) => (Raise e, with_world w s1)
    end.

Definition await_athrow (g : H) (e : exn) : M V := fun s =>
  let s1 := log (EvAthrow g e) s in
  match athrow E g e (world s) with
  | (inr v, w) => (Normal v, with_world w s1)
  | (inl e', w) => (Raise e', with_world w s1)
  end.

Definition await_aclose (g : H) : M unit := fun s =>
  let s1 := log (EvAclose g) s in
  match aclose E g (world s) with
  | (None, w) => (Normal tt, with_world w s1)
  | (Some e, w) => (Raise e, with_world w s1)
  end.

Definition await_sleep (d : Q) : M unit := fun s =>
  (Normal tt, log (EvSleep d) (with_world (asleep E d (world s)) s)).

(** [yield v]: the value of the expression is what the consumer
    sends; [athrow] and [aclose] raise at the [yield].  A generator
    that yields again after the consumer called [aclose()] has
    ignored [GeneratorExit]: the value is not delivered, the
    consumer's [aclose()] raises [RuntimeError] and the generator
    stays suspended at that [yield]. *)
Definition yield_ (v : V) : M (option V) := fun s =>
  if closing (trace s) then (Suspended, s)
  else
    let s1 := log (EvYield v) s in
    match consumer E v (world s) with
    | (Send x, w) => (Normal x, with_world w s1)
    | (Throw e, w) => (Raise e, with_world w s1)
    | (Close, w) => (Raise GeneratorExit, log EvClosing (with_world w s1))
    end.

(** Line 118. *)
Definition timeout : option Q := kwargs_get_deadline kw_deadline timeout_arg.

(** Line 119. *)
Definition initial_budget : option Q :=
  if truthy_opt timeout then timeout else None.

(** Lines 127-131. *)
Definition check_budget : M unit :=
  b <- get_budget ;;
  match le_opt b 0 with
  | inl e => raise e
  | inr true => raise (RetryError timeout None)
  | inr false => ret tt
  end.

(** Lines 133-138: the bound that [wait_for] puts on the pull.  The
    awaitable line 133 creates is dropped unawaited when line 135
    replaces it, which runs nothing of the stream. *)
Definition pull_bound (b : option Q) : option Q :=
  match timeout with Some _ => b | None => None end.

(** Lines 141-142 and 167-168: charge the time since
    [start_timestamp] (an exact subtraction here, a rounded one in
    the code). *)
Definition charge_elapsed : M unit :=
  b <- get_budget ;;
  match b with
  | None => ret tt
  | Some r =>
      t <- now_ ;;
      t0 <- read_start_timestamp ;;
      set_budget (Some (r - (t - t0))%Q)
  end.

(** Lines 145-155: yield and react to what the consumer does.  The
    result is the new value of [sent_in]. *)
Definition yield_to_caller (g : H) (next_value : V) (sent_in : option V)
  : M (option V) :=
  fun s =>
    match yield_ next_value s with
    | (Raise e, s1) =>
        if is_GeneratorExit e
        then (await_aclose g ;;; gen_return) s1
        else (await_athrow g e ;;; ret sent_in) s1
    | other => other
    end.

(** Lines 126-155: the [while True] loop. *)
Fixpoint forward (fuel : nat) (g : H) (sent_in : option V) : M unit :=
  match fuel with
  | O => out_of_fuel
  | S fuel' =>
      check_budget ;;;
      b <- get_budget ;;
      t <- now_ ;;
      set_start_timestamp (Some t) ;;;
      next_value <- await_asend g sent_in (pull_bound b) ;;
      charge_elapsed ;;;
      sent_in' <- yield_to_caller g next_value sent_in ;;
      forward fuel' g sent_in'
  end.

(** Lines 123-156: the body of the [try]. *)
Definition try_body (fuel : nat) : M unit :=
  g <- call_target ;;
  set_subgenerator (Some g) ;;;
  forward fuel g None.

(** Lines 162-168: the handler of [(Exception, CancelledError)]. *)
Definition handle (exc : exn) : M unit :=
  if negb (predicate exc) && negb (is_TimeoutError exc)
  then raise exc
  else set_last_exc (Some exc) ;;; charge_elapsed.

(** Lines 157-168: which [except] clause takes the exception. *)
Definition dispatch (exc : exn) : M unit :=
  if is_StopAsyncIteration exc then gen_return
  else if is_Exception exc || is_CancelledError exc then handle exc
  else raise exc.

(** Lines 169-171: the [finally] clause; what it raises replaces the
    way the statement was ending.  It does not run for a generator
    left suspended inside the statement. *)
Definition finally_ (c : ctl unit) : M unit := fun s =>
  match c with
  | Fuel => (Fuel, s)
  | Suspended => (Suspended, s)
  | _ =>
      match subgenerator s with
      | None => (c, s)
      | Some g =>
          match await_aclose g s with
          | (Normal _, s1) => (c, s1)
          | other => other
          end
      end
  end.

(** Lines 122 and 157-171: the [try] statement around [body].  At
    any point inside the [try], what is left of the statement is
    this with the rest of the body for [body]. *)
Definition try_statement (body : M unit) : M unit := fun s =>
  match body s with
  | (Raise e, s1) => let (c, s2) := dispatch e s1 in finally_ c s2
  | (c, s1) => finally_ c s1
  end.

(** Lines 122-171: one attempt. *)
Definition attempt (fuel : nat) : M unit :=
  try_statement (try_body fuel).

(** Lines 173-176. *)
Definition report_error : M unit :=
  match on_error E with
  | None => ret tt
  | Some hook =>
      fun s =>
        let s1 := log (EvOnError (last_exc s)) s in
        match hook (last_exc s) (world s) with
        | (inl e, w) => (Raise e, with_world w s1)
        | (inr None, w) => (Normal tt, with_world w s1)
        | (inr (Some error_result), w) =>
            (yield_ error_result ;;; ret tt) (with_world w s1)
        end
  end.

(** Lines 179-190: the comparison of line 180 is on the value the
    budget has; the subtraction of line 190 is exact here and
    rounded in the code. *)
Definition reserve_sleep (sleep : Q) : M unit :=
  b <- get_budget ;;
  match b with
  | None => ret tt
  | Some r =>
      if le r sleep
      then e <- get_last_exc ;; raise (RetryError timeout e)
      else set_budget (Some (r - sleep)%Q)
  end.

(** Lines 121-196: the [for] loop from its [i]-th iteration on. *)
Fixpoint retry_loop (fuel i : nat) : M unit :=
  match fuel with
  | O => out_of_fuel
  | S fuel' =>
      match sleep_generator i with
      | None => raise ValueError
      | Some sleep =>
          attempt fuel' ;;;
          report_error ;;;
          reserve_sleep sleep ;;;
          await_sleep sleep ;;;
          retry_loop fuel' (S i)
      end
  end.

(** Lines 115-119. *)
Definition initial_state (w : W) : st :=
  mkState w [] None None initial_budget None.

(** The generator, driven by the consumer from its first pull until
    it ends, is left suspended, or [fuel] iterations have run. *)
Definition retry_target_generator (fuel : nat) (w : W) : ctl unit * st :=
  retry_loop fuel 0 (initial_state w).

End Model.

(** The values the consumer received, oldest first. *)
Definition yields {H V} (tr : list (event H V)) : list V :=
  rev (flat_map (fun e => match e with EvYield v => [v] | _ => [] end) tr).

(** Number of pulls awaited on underlying streams. *)
Definition pulls {H V} (tr : list (event H V)) : nat :=
  length (filter (fun e => match e with EvAsend _ _ _ => true | _ => false end) tr).

(** The stream in use after the events [tr], if any: the one the
    factory returned last, unless [aclose()] has been awaited since.
    Whether that [aclose()] released the stream is for the stream to
    say; see [Accounting.ledger]. *)
Fixpoint open_stream {H V} (tr : list (event H V)) : option H :=
  match tr with
  | [] => None
  | EvOpen g :: _ => Some g
  | EvAclose _ :: _ => None
  | _ :: older => open_stream older
  end.

(** The stream the factory returned last. *)
Fixpoint last_opened {H V} (tr : list (event H V)) : option H :=
  match tr with
  | [] => None
  | EvOpen g :: _ => Some g
  | _ :: older => last_opened older
  end.

(** The discipline of a trace: the factory is called only while no
    stream is in use, pulls and injections go to the stream in use,
    and a close goes to the stream opened last. *)
Fixpoint disciplined {H V} (tr : list (event H V)) : Prop :=
  match tr with
  | [] => True
  | EvOpen _ :: older => open_stream older = None /\ disciplined older
  | EvAsend g _ _ :: older => open_stream older = Some g /\ disciplined older
  | EvAthrow g _ :: older => open_stream older = Some g /\ disciplined older
  | EvAclose g :: older => last_opened older = Some g /\ disciplined older
  | _ :: older => disciplined older
  end.

Section Logic.

Variables W H V : Type.

Abbreviation st := (state W H V).

(** A program logic for the blocks of the generator.

    [triple P m Q]: from a state satisfying [P], the block [m] ends
    in a way [c] and a state [s'] with [Q c s']. *)
Definition triple {A} (P : st -> Prop) (m : M W H V A)
    (Q : ctl A -> st -> Prop) : Prop :=
  forall s, P s -> Q (fst (m s)) (snd (m s)).

(** The postcondition of the first block of a sequence: [R] when it
    falls through, the postcondition of the sequence when it exits. *)
Definition or_exit {A B} (R : A -> st -> Prop) (Q : ctl B -> st -> Prop)
  : ctl A -> st -> Prop :=
  fun c s =>
    match c with
    | Normal a => R a s
    | Raise e => Q (Raise e) s
    | Return => Q Return s
    | Suspended => Q Suspended s
    | Fuel => Q Fuel s
    end.

(** A state without budget in which [n] pulls have been awaited. *)
Definition unbudgeted (n : nat) (s : st) : Prop :=
  remaining_timeout_budget s = None /\ pulls (trace s) = n.

(** One stream at a time.

    [tracked]: the trace is disciplined and the variable
    [subgenerator] holds the stream opened last.  [closed]: moreover
    no stream is in use.  [streaming_from g]: the stream [g] is in
    use and held by [subgenerator]. *)
Definition tracked (s : st) : Prop :=
  disciplined (trace s) /\ last_opened (trace s) = subgenerator s.

Definition closed (s : st) : Prop :=
  tracked s /\ open_stream (trace s) = None.

Definition holding (g : H) (s : st) : Prop :=
  tracked s /\ subgenerator s = Some g.

Definition streaming_from (g : H) (s : st) : Prop :=
  holding g s /\ open_stream (trace s) = Some g.

(** How a block that started with no stream in use may end: with
    none in use again, unless it is cut short or left suspended. *)
Definition closed_if_ended {A} (c : ctl A) (s : st) : Prop :=
  match c with Fuel | Suspended => tracked s | _ => closed s end.

End Logic.

Arguments triple {W H V A} P m Q.
Arguments or_exit {W H V A B} R Q c s.
Arguments unbudgeted {W H V} n s.
Arguments tracked {W H V} s.
Arguments closed {W H V} s.
Arguments holding {W H V} g s.
Arguments streaming_from {W H V} g s.
Arguments closed_if_ended {W H V A} c s.

End Streaming.
(** ** Scenarios

    Concrete policies, operations and streams on which the theorems
    below are exercised. *)

Module Scenarios.

Import Policy.

(** A classifier that retries application errors only. *)
Definition if_app_error (e : exn) : bool :=
  match e with AppError _ => true | _ => false end.

(** [AsyncRetry(timeout=120, is_generator=True)] with the default
    delays, the only instance of its store. *)
Definition p0 : AsyncRetry unit :=
  __init__ if_app_error (_DEFAULT_INITIAL_DELAY) (_DEFAULT_MAXIMUM_DELAY)
    (_DEFAULT_DELAY_MULTIPLIER) (Some 120%Q) None (Some true) None.

Definition store0 : store unit := [p0].

(** *** Single-shot operations

    A world for [retry_target]: a clock and a script that gives, for
    each attempt in turn, how long the operation takes and how it
    ends.  [wait_for] is ideal: an attempt that does not finish
    within its bound is cancelled when the bound expires. *)
Record op_world : Type := mkOpWorld {
  clock : Q;
  script : list (Q * (exn + nat))
}.

Definition op_target (bound : option Q) (w : op_world)
  : (exn + nat) * op_world :=
  match script w with
  | [] => (inr 0%nat, w)
  | (d, r) :: rest =>
      match bound with
      | Some b =>
          if le b d
          then (inl TimeoutError,
                mkOpWorld (clock w + (if le b 0 then 0 else b))%Q rest)
          else (r, mkOpWorld (clock w + d)%Q rest)
      | None => (r, mkOpWorld (clock w + d)%Q rest)
      end
  end.

Definition op_env : SingleShot.env op_world nat :=
  SingleShot.mkEnv
    (fun w => (clock w, w))
    op_target
    None
    (fun d w => mkOpWorld (clock w + d)%Q (script w)).

(** Every delay of the backoff is one second. *)
Definition every_second (n : nat) : option Q := Some 1%Q.


(** The operation fails with a fatal error at once. *)
Definition op_fatal : op_world :=
  mkOpWorld 0 [(1%Q, inl ValueError)].



(** The operation fails after nine and a half seconds, then would
    return 7 after a quarter of a second. *)
Definition op_late_failure : op_world :=
  mkOpWorld 0 [((19 # 2)%Q, inl (AppError 1)); ((1 # 4)%Q, inr 7%nat)].

(** *** Streams

    A world for [retry_target_generator]: a clock, the number of
    factory calls made, the position in the current stream, and the
    replies the consumer will give to the values it receives (once
    they are used up it keeps iterating).  [streams] scripts the
    factory: its [k]-th call raises, or returns the stream [k] whose
    pulls take the listed time and end as listed; a stream that has
    run through its list is exhausted.  [wait_for] cancels a pull
    that takes longer than its bound; a stream re-raises what is
    thrown into it and closes without error. *)
Record gen_world : Type := mkGenWorld {
  gclock : Q;
  factory_calls : nat;
  position : nat;
  replies : list (Streaming.response nat)
}.

Definition stream_script : Type := list (Q * (exn + nat)).

Section Scripted.

Variable streams : list (exn + stream_script).

Definition gen_target (w : gen_world) : (exn + nat) * gen_world :=
  let k := factory_calls w in
  let w' := mkGenWorld (gclock w) (S k) 0 (replies w) in
  match nth_error streams k with
  | Some (inl e) => (inl e, w')
  | _ => (inr k, w')
  end.

Definition script_of (g : nat) : stream_script :=
  match nth_error streams g with
  | Some (inr l) => l
  | _ => []
  end.

Definition gen_asend (g : nat) (sent : option nat) (bound : option Q)
    (w : gen_world) : (exn + nat) * gen_world :=
  match nth_error (script_of g) (position w) with
  | None => (inl StopAsyncIteration, w)
  | Some (d, r) =>
      let late := match bound with
                  | Some b => negb (le d b)
                  | None => false
                  end in
      if late
      then (inl TimeoutError,
            mkGenWorld (gclock w + match bound with Some b => b | None => d end)%Q
              (factory_calls w) (S (position w)) (replies w))
      else (r, mkGenWorld (gclock w + d)%Q (factory_calls w)
                 (S (position w)) (replies w))
  end.

Definition gen_consumer (v : nat) (w : gen_world)
  : Streaming.response nat * gen_world :=
  match replies w with
  | [] => (Streaming.Send None, w)
  | r :: rest =>
      (r, mkGenWorld (gclock w) (factory_calls w) (position w) rest)
  end.

Definition gen_env : Streaming.env gen_world nat nat :=
  Streaming.mkEnv
    (fun w => (gclock w, w))
    gen_target
    gen_asend
    (fun g e w => (inl e, w))
    (fun g w => (None, w))
    gen_consumer
    None
    (fun d w => mkGenWorld (gclock w + d)%Q (factory_calls w)
                  (position w) (replies w)).

End Scripted.

(** A consumer that iterates, and one that throws [AppError 5] at the
    first value it receives. *)
Definition iterating : gen_world := mkGenWorld 0 0 0 [].
Definition injecting : gen_world :=
  mkGenWorld 0 0 0 [Streaming.Throw (AppError 5)].

(** The first stream yields 1 and 2 and fails with a retryable error,
    the second yields 3 and is exhausted; every pull takes a second. *)
Definition streams_12_3 : list (exn + stream_script) :=
  [ inr [(1%Q, inr 1%nat); (1%Q, inr 2%nat); (1%Q, inl (AppError 1))];
    inr [(1%Q, inr 3%nat)] ].

(** The first stream fails after three seconds; the second yields 1
    after six seconds, which is all that is left of ten once the
    backoff has slept its second. *)
Definition streams_exhausting : list (exn + stream_script) :=
  [ inr [(3%Q, inl (AppError 1))];
    inr [(6%Q, inr 1%nat); (1%Q, inr 2%nat)] ].

(** The only pull of the first stream fails after nine and a half
    seconds. *)
Definition streams_late_failure : list (exn + stream_script) :=
  [ inr [((19 # 2)%Q, inl (AppError 1))]; inr [(1%Q, inr 1%nat)] ].

(** The state in which the attempt on [streams_late_failure] leaves
    a run with a timeout of ten seconds. *)
Definition late_failure_state : Streaming.state gen_world nat nat :=
  Streaming.mkState (mkGenWorld (19 # 2) 1 1 [])
    [Streaming.EvAclose 0%nat; Streaming.EvAsend 0%nat None (Some 10%Q);
     Streaming.EvOpen 0%nat]
    (Some (AppError 1)) (Some 0%nat) (Some (1 # 2)%Q) (Some 0%Q).

(** The first call of the factory raises a retryable error. *)
Definition streams_factory_fails : list (exn + stream_script) :=
  [ inl (AppError 1); inr [(1%Q, inr 1%nat)] ].

(** *** Further scenarios *)

(** A backoff of one, two, four, ... seconds. *)
Definition doubling (n : nat) : option Q := Some (inject_Z (2 ^ Z.of_nat n)).

(** A backoff that stops after the delays of one and two seconds. *)
Definition two_delays (n : nat) : option Q :=
  match n with
  | 0%nat => Some 1%Q
  | 1%nat => Some 2%Q
  | _ => None
  end.

(** The operation fails twice with a retryable error, then returns 7. *)
Definition op_third_time : op_world :=
  mkOpWorld 0 [(1%Q, inl (AppError 1)); (1%Q, inl (AppError 2)); (1%Q, inr 7%nat)].

(** The operation is cancelled. *)
Definition op_cancelled : op_world :=
  mkOpWorld 0 [(1%Q, inl CancelledError)].

(** A classifier that accepts everything. *)
Definition always (e : exn) : bool := true.

(** A consumer that closes the wrapper at the first value. *)
Definition closing : gen_world := mkGenWorld 0 0 0 [Streaming.Close].

(** Streams as in [gen_env], except that a stream absorbs what is
    thrown into it and answers with the value 99. *)
Definition absorbing_env (streams : list (exn + stream_script))
  : Streaming.env gen_world nat nat :=
  Streaming.mkEnv
    (Streaming.utcnow (gen_env streams))
    (Streaming.target (gen_env streams))
    (Streaming.asend (gen_env streams))
    (fun g e w => (inr 99%nat, w))
    (Streaming.aclose (gen_env streams))
    (Streaming.consumer (gen_env streams))
    (Streaming.on_error (gen_env streams))
    (Streaming.asleep (gen_env streams)).

(** The only pull of the first stream is cancelled after a second. *)
Definition streams_cancelled : list (exn + stream_script) :=
  [ inr [(1%Q, inl CancelledError)]; inr [(1%Q, inr 1%nat)] ].

(** A world that is its own clock: every stream fails its first pull
    after one second with a retryable error, and a sleep takes the
    time asked for, or none if that is negative. *)
Definition failing_env : Streaming.env Q unit nat :=
  Streaming.mkEnv
    (fun w => (w, w))
    (fun w => (inr tt, w))
    (fun _ _ _ w => (inl (AppError 1), (w + 1)%Q))
    (fun _ e w => (inl e, w))
    (fun _ w => (None, w))
    (fun _ w => (Streaming.Send None, w))
    None
    (fun d w => if le 0 d then (w + d)%Q else w).

(** [AsyncRetry(timeout=120, is_generator=True)] and
    [AsyncRetry(timeout=None)], for hooks over the stream world. *)
Definition p_forced : Policy.AsyncRetry (option exn -> gen_world -> (exn + option nat) * gen_world) :=
  Policy.__init__ if_app_error 1%Q 60%Q 2%Q (Some 120%Q) None (Some true) None.

Definition p_unlimited : Policy.AsyncRetry unit :=
  Policy.__init__ if_app_error 1%Q 60%Q 2%Q None None None None.

(** A hook that returns nothing, and a policy that holds it. *)
Definition quiet_hook : option exn -> gen_world -> (exn + option nat) * gen_world :=
  fun _ w => (inr None, w).

Definition p_hooked : Policy.AsyncRetry (option exn -> gen_world -> (exn + option nat) * gen_world) :=
  Policy.__init__ if_app_error 1%Q 60%Q 2%Q (Some 120%Q) (Some quiet_hook) None None.

(** The single-shot world with a hook that raises [ValueError], and
    the stream world with a hook that returns the value 0 or that
    raises [ValueError]. *)
Definition op_env_hooked : SingleShot.env op_world nat :=
  SingleShot.mkEnv (SingleShot.utcnow op_env) (SingleShot.target op_env)
    (Some (fun _ w => (Some ValueError, w))) (SingleShot.asleep op_env).

Definition hooked_env (streams : list (exn + stream_script))
    (hook : option exn -> gen_world -> (exn + option nat) * gen_world)
  : Streaming.env gen_world nat nat :=
  Streaming.mkEnv
    (Streaming.utcnow (gen_env streams))
    (Streaming.target (gen_env streams))
    (Streaming.asend (gen_env streams))
    (Streaming.athrow (gen_env streams))
    (Streaming.aclose (gen_env streams))
    (Streaming.consumer (gen_env streams))
    (Some hook)
    (Streaming.asleep (gen_env streams)).

Definition marking_hook : option exn -> gen_world -> (exn + option nat) * gen_world :=
  fun _ w => (inr (Some 0%nat), w).

Definition raising_hook : option exn -> gen_world -> (exn + option nat) * gen_world :=
  fun _ w => (inl ValueError, w).

(** The first stream fails at once with a retryable error, the
    second yields 1. *)
Definition streams_fail_then_1 : list (exn + stream_script) :=
  [ inr [(1%Q, inl (AppError 1))]; inr [(1%Q, inr 1%nat)] ].

(** The first stream fails after a second, the second call of the
    factory raises. *)
Definition streams_fail_then_no_stream : list (exn + stream_script) :=
  [ inr [(1%Q, inl (AppError 1))]; inl (AppError 2) ].

(** The state of a run with ten seconds of budget after its first
    stream failed a pull of one second and the run slept a second. *)
Definition after_first_failure : Streaming.state gen_world nat nat :=
  Streaming.mkState (mkGenWorld 2 1 1 [])
    [Streaming.EvSleep 1%Q; Streaming.EvAclose 0%nat;
     Streaming.EvAsend 0%nat None (Some 10%Q); Streaming.EvOpen 0%nat]
    (Some (AppError 1)) (Some 0%nat) (Some 8%Q) (Some 0%Q).

(** *** Streams that keep a ledger

    The stream world together with the ledger of the streams that
    are open.  A stream is open from the call of the factory that
    returns it until it raises (exhaustion, failure, cancellation, or
    an error thrown into it) or [aclose()] has been awaited on it.
    [close_errors] scripts what [aclose()] on an open stream does,
    call by call: return, or raise the error listed; [aclose()] on a
    stream that is not open returns at once. *)
Record ledger_world : Type := mkLedgerWorld {
  base : gen_world;
  live : list nat;
  close_errors : list (option exn)
}.

Definition finish (g : nat) (l : list nat) : list nat :=
  filter (fun x => negb (Nat.eqb x g)) l.

Section Ledger.

Variable streams : list (exn + stream_script).

Definition ledger_target (w : ledger_world) : (exn + nat) * ledger_world :=
  match gen_target streams (base w) with
  | (inr g, b) => (inr g, mkLedgerWorld b (g :: live w) (close_errors w))
  | (inl e, b) => (inl e, mkLedgerWorld b (live w) (close_errors w))
  end.

Definition ledger_asend (g : nat) (sent : option nat) (bound : option Q)
    (w : ledger_world) : (exn + nat) * ledger_world :=
  match gen_asend streams g sent bound (base w) with
  | (inr v, b) => (inr v, mkLedgerWorld b (live w) (close_errors w))
  | (inl e, b) => (inl e, mkLedgerWorld b (finish g (live w)) (close_errors w))
  end.

Definition ledger_athrow (g : nat) (e : exn) (w : ledger_world)
  : (exn + nat) * ledger_world :=
  (inl e, mkLedgerWorld (base w) (finish g (live w)) (close_errors w)).

Definition ledger_aclose (g : nat) (w : ledger_world)
  : option exn * ledger_world :=
  if existsb (Nat.eqb g) (live w)
  then match close_errors w with
       | r :: rest => (r, mkLedgerWorld (base w) (finish g (live w)) rest)
       | [] => (None, mkLedgerWorld (base w) (finish g (live w)) [])
       end
  else (None, w).

Definition ledger_consumer (v : nat) (w : ledger_world)
  : Streaming.response nat * ledger_world :=
  let (r, b) := gen_consumer v (base w) in
  (r, mkLedgerWorld b (live w) (close_errors w)).

Definition ledger_env : Streaming.env ledger_world nat nat :=
  Streaming.mkEnv
    (fun w => (gclock (base w), w))
    ledger_target
    ledger_asend
    ledger_athrow
    ledger_aclose
    ledger_consumer
    None
    (fun d w => mkLedgerWorld
                  (Streaming.asleep (gen_env streams) d (base w))
                  (live w) (close_errors w)).

End Ledger.

(** The same streams when closing them never fails: [aclose()]
    returns, whatever [close_errors] lists. *)
Definition tidy_env (streams : list (exn + stream_script))
  : Streaming.env ledger_world nat nat :=
  Streaming.mkEnv
    (Streaming.utcnow (ledger_env streams))
    (Streaming.target (ledger_env streams))
    (Streaming.asend (ledger_env streams))
    (Streaming.athrow (ledger_env streams))
    (fun g w => (None, mkLedgerWorld (base w) (finish g (live w))
                         (close_errors w)))
    (Streaming.consumer (ledger_env streams))
    (Streaming.on_error (ledger_env streams))
    (Streaming.asleep (ledger_env streams)).

(** The first stream yields 1, the second yields 3 and 4. *)
Definition streams_1_34 : list (exn + stream_script) :=
  [ inr [(1%Q, inr 1%nat)]; inr [(1%Q, inr 3%nat); (1%Q, inr 4%nat)] ].

(** A consumer that closes the wrapper at the first value it
    receives, and a first [aclose()] that raises a retryable error. *)
Definition closing_cleanup_fails : ledger_world :=
  mkLedgerWorld (mkGenWorld 0 0 0 [Streaming.Close]) [] [Some (AppError 9)].

(** The same consumer with streams that close without error. *)
Definition closing_cleanly : ledger_world :=
  mkLedgerWorld (mkGenWorld 0 0 0 [Streaming.Close]) [] [].

(** The state of the run on [streams_1_34] from
    [closing_cleanup_fails] with ten seconds of budget, after the
    factory returned the first stream. *)
Definition after_first_open : Streaming.state ledger_world nat nat :=
  Streaming.mkState
    (mkLedgerWorld (mkGenWorld 0 1 0 [Streaming.Close]) [0%nat]
       [Some (AppError 9)])
    [Streaming.EvOpen 0%nat] None (Some 0%nat) (Some 10%Q) None.

(** The state of the same run after the
    consumer closed the wrapper, closing the first stream failed and
    the backoff slept its second. *)
Definition after_failed_close : Streaming.state ledger_world nat nat :=
  Streaming.mkState (mkLedgerWorld (mkGenWorld 2 1 1 []) [] [])
    [Streaming.EvSleep 1%Q; Streaming.EvAclose 0%nat; Streaming.EvAclose 0%nat;
     Streaming.EvClosing; Streaming.EvYield 1%nat;
     Streaming.EvAsend 0%nat None (Some 10%Q); Streaming.EvOpen 0%nat]
    (Some (AppError 9)) (Some 0%nat) (Some 7%Q) (Some 0%Q).

End Scenarios.

(** ** Measures of a trace *)

Module Accounting.

(** Calls of the hook in a single-shot trace. *)
Definition hook_calls (tr : list SingleShot.event) : nat :=
length (filter (fun e => match e with SingleShot.EvOnError _ => true | _ => false end) tr).

(** The bounds put on the attempts of a single-shot trace, oldest first. *)
Definition bounds (tr : list SingleShot.event) : list (option Q) :=
rev (flat_map (fun e => match e with SingleShot.EvCall b => [b] | _ => [] end) tr).

(** The [k] values a sleep generator produces from its [i]-th on, as
  far as it produces them. *)
Fixpoint backoff (sleep_generator : nat -> option Q) (i k : nat) : list Q :=
match k with
| O => []
| S k' =>
    match sleep_generator i with
    | Some x => x :: backoff sleep_generator (S i) k'
    | None => []
    end
end.

(** Calls of the factory in a streaming trace, whether they returned a
  stream or raised. *)
Definition factory_calls {H V} (tr : list (Streaming.event H V)) : nat :=
length (filter (fun e => match e with
                         | Streaming.EvOpen _ | Streaming.EvFactoryError _ => true
                         | _ => false
                         end) tr).

(** The sleeps of a streaming trace, oldest first. *)
Definition stream_sleeps {H V} (tr : list (Streaming.event H V)) : list Q :=
rev (flat_map (fun e => match e with Streaming.EvSleep d => [d] | _ => [] end) tr).

(** Number of sleeps in a streaming trace. *)
Definition sleep_count {H V} (tr : list (Streaming.event H V)) : nat :=
length (filter (fun e => match e with Streaming.EvSleep _ => true | _ => false end) tr).

(** A world whose time does not run backwards: [clock] reads the time
  of a world, a reading of the wall clock lies between the time
  before and after it, and nothing a run awaits or calls takes the
  time back. *)
Record monotone {W H V : Type} (E : Streaming.env W H V) (clock : W -> Q)
: Prop := mkMonotone {
mono_utcnow : forall w t w',
  Streaming.utcnow E w = (t, w') -> (clock w <= t)%Q /\ (t <= clock w')%Q;
mono_target : forall w r w',
  Streaming.target E w = (r, w') -> (clock w <= clock w')%Q;
mono_asend : forall g x b w r w',
  Streaming.asend E g x b w = (r, w') -> (clock w <= clock w')%Q;
mono_athrow : forall g e w r w',
  Streaming.athrow E g e w = (r, w') -> (clock w <= clock w')%Q;
mono_aclose : forall g w r w',
  Streaming.aclose E g w = (r, w') -> (clock w <= clock w')%Q;
mono_consumer : forall v w r w',
  Streaming.consumer E v w = (r, w') -> (clock w <= clock w')%Q;
mono_on_error : forall hook e w r w',
  Streaming.on_error E = Some hook ->
  hook e w = (r, w') -> (clock w <= clock w')%Q;
mono_asleep : forall d w, (clock w <= clock (Streaming.asleep E d w))%Q
}.

(** A state of a run of timeout [T] in a world of time [clock]: the
  budget left is at most [T], [start_timestamp] is not in the
  future, and every sleep so far was shorter than [T]. *)
Definition capped {W H V} (clock : W -> Q) (T : Q)
  (s : Streaming.state W H V) : Prop :=
(exists r, Streaming.remaining_timeout_budget s = Some r /\ (r <= T)%Q) /\
(forall t0, Streaming.start_timestamp s = Some t0 ->
            (t0 <= clock (Streaming.world s))%Q) /\
(forall d, In (Streaming.EvSleep d) (Streaming.trace s) -> (d < T)%Q).

(** A ledger of the open streams: [live w] lists the streams that are
  open in the world [w].  The factory opens at most the stream it
  returns, a stream whose [aclose()] was awaited and returned is open
  no more, and nothing else that a run awaits or calls opens a
  stream. *)
Record ledger {W H V : Type} (E : Streaming.env W H V) (live : W -> list H)
: Prop := mkLedger {
led_utcnow : forall w t w',
  Streaming.utcnow E w = (t, w') -> incl (live w') (live w);
led_opened : forall w g w',
  Streaming.target E w = (inr g, w') -> incl (live w') (g :: live w);
led_refused : forall w e w',
  Streaming.target E w = (inl e, w') -> incl (live w') (live w);
led_asend : forall g sent b w r w',
  Streaming.asend E g sent b w = (r, w') -> incl (live w') (live w);
led_athrow : forall g e w r w',
  Streaming.athrow E g e w = (r, w') -> incl (live w') (live w);
led_aclose : forall g w r w',
  Streaming.aclose E g w = (r, w') -> incl (live w') (live w);
led_closed : forall g w w',
  Streaming.aclose E g w = (None, w') -> ~ In g (live w');
led_consumer : forall v w r w',
  Streaming.consumer E v w = (r, w') -> incl (live w') (live w);
led_on_error : forall hook e w r w',
  Streaming.on_error E = Some hook ->
  hook e w = (r, w') -> incl (live w') (live w);
led_asleep : forall d w, incl (live (Streaming.asleep E d w)) (live w)
}.

(** No stream is open; only the stream the generator holds in
  [subgenerator] can be open; no [aclose()] of the consumer is under
  way. *)
Definition none_open {W H V} (live : W -> list H)
  (s : Streaming.state W H V) : Prop :=
forall x, ~ In x (live (Streaming.world s)).

Definition only_held {W H V} (live : W -> list H)
  (s : Streaming.state W H V) : Prop :=
forall x, In x (live (Streaming.world s)) -> Streaming.subgenerator s = Some x.

Definition undisturbed {W H V} (s : Streaming.state W H V) : Prop :=
Streaming.closing (Streaming.trace s) = false.

(** What holds when a block inside the [try] statement ends in the
  way [c], and when a block outside of it does, for streams that
  close without error. *)
Definition inside {W H V A} (live : W -> list H) (c : Streaming.ctl A)
  (s : Streaming.state W H V) : Prop :=
match c with
| Streaming.Normal _ | Streaming.Raise _ => only_held live s /\ undisturbed s
| Streaming.Return | Streaming.Fuel => only_held live s
| Streaming.Suspended => False
end.

Definition outside {W H V A} (live : W -> list H) (c : Streaming.ctl A)
  (s : Streaming.state W H V) : Prop :=
match c with
| Streaming.Normal _ => none_open live s /\ undisturbed s
| Streaming.Raise _ | Streaming.Return => none_open live s
| Streaming.Fuel => only_held live s
| Streaming.Suspended => False
end.

(** A state with [c] factory calls and [m] sleeps so far. *)
Definition counted {W H V} (c m : nat) (s : Streaming.state W H V) : Prop :=
factory_calls (Streaming.trace s) = c /\ sleep_count (Streaming.trace s) = m.

(** A state with as many factory calls as sleeps, or one more. *)
Definition alternating {W H V} (s : Streaming.state W H V) : Prop :=
(sleep_count (Streaming.trace s) <= factory_calls (Streaming.trace s)
 <= sleep_count (Streaming.trace s) + 1)%nat.

(** A state that is at the [i]-th round of the loop: [i] sleeps so
  far, each the value of the sleep generator of the same rank. *)
Definition on_schedule {W H V} (sleep_generator : nat -> option Q) (i : nat)
  (s : Streaming.state W H V) : Prop :=
length (stream_sleeps (Streaming.trace s)) = i /\
forall j d, nth_error (stream_sleeps (Streaming.trace s)) j = Some d ->
            sleep_generator j = Some d.

End Accounting.

(** ** Wrapping a function: [AsyncRetry.__call__] *)

Module Wrap.

Section WithWorld.

Variables W H V : Type.

(** A hook as the policy holds it: a callable of the last error that
returns a value, [None] included, or raises. *)
Definition hook : Type := option exn -> W -> (exn + option V) * W.

(** The hook as [retry_target] calls it: with the error, and without
looking at what it returns. *)
Definition observing (h : hook) : exn -> W -> option exn * W :=
fun e w =>
match h (Some e) w with
| (inl x, w') => (Some x, w')
| (inr _, w') => (None, w')
end.

(** The function to wrap, its arguments applied: what
[inspect.isasyncgenfunction] says of it, what awaiting its call
gives, and what its call gives when taken as a stream factory. *)
Record func : Type := mkFunc {
isasyncgenfunction : bool;
as_coroutine : option Q -> W -> (exn + V) * W;
as_factory : W -> (exn + H) * W
}.

(** What the wrappers run in besides the function: the clock, the
sleep, the streams and their consumer. *)
Record runtime : Type := mkRuntime {
rt_utcnow : W -> Q * W;
rt_asleep : Q -> W -> W;
rt_asend : H -> option V -> option Q -> W -> (exn + V) * W;
rt_athrow : H -> exn -> W -> (exn + V) * W;
rt_aclose : H -> W -> option exn * W;
rt_consumer : V -> W -> Streaming.response V * W
}.

(** The two wrappers [__call__] may return, as the runs they make. *)
Inductive wrapped : Type :=
| retry_wrapped_func (run : nat -> W -> SingleShot.run W V)
| retry_wrapped_generator (run : nat -> W -> Streaming.ctl unit * Streaming.state W H V).

Definition is_generator_wrapper (x : wrapped) : bool :=
match x with
| retry_wrapped_func _ => false
| retry_wrapped_generator _ => true
end.

Variable R : runtime.

(** [exponential_sleep_generator(initial, maximum, multiplier)], which
this file imports from [google.api_core.retry]: its [n]-th value. *)
Variable exponential_sleep_generator : Q -> Q -> Q -> nat -> option Q.

(** Lines 349-350: the hook of the policy, if it has one, replaces the
one given to the call. *)
Definition effective_on_error (self : Policy.AsyncRetry hook)
(on_error : option hook) : option hook :=
match Policy._on_error self with
| Some h => Some h
| None => on_error
end.

(** Lines 353-357. *)
Definition use_generator (self : Policy.AsyncRetry hook) (f : func) : bool :=
match Policy._is_generator self with
| Some b => b
| None => isasyncgenfunction f
end.

(** Lines 331-392.  Each wrapper builds its sleep generator anew at
every invocation and passes the timeout of the policy. *)
Definition __call__ (self : Policy.AsyncRetry hook) (f : func)
(on_error : option hook) : wrapped :=
let on_error := effective_on_error self on_error in
let sleep_generator :=
exponential_sleep_generator (Policy._initial self) (Policy._maximum self)
  (Policy._multiplier self) in
if use_generator self f
then retry_wrapped_generator (fun fuel w =>
     Streaming.retry_target_generator
       (Streaming.mkEnv (rt_utcnow R) (as_factory f) (rt_asend R)
          (rt_athrow R) (rt_aclose R) (rt_consumer R) on_error (rt_asleep R))
       (Policy._predicate self) sleep_generator (Policy._timeout self) None
       fuel w)
else retry_wrapped_func (fun fuel w =>
     SingleShot.retry_target
       (SingleShot.mkEnv (rt_utcnow R) (as_coroutine f)
          (option_map observing on_error) (rt_asleep R))
       (Policy._predicate self) sleep_generator (Policy._timeout self)
       fuel w).

(** A policy whose wrappers are chosen by inspection of the function
alone. *)
Definition routes_by_inspection (self : Policy.AsyncRetry hook) : Prop :=
Policy._is_generator self = None /\
forall f on_error,
is_generator_wrapper (__call__ self f on_error) = isasyncgenfunction f.

(** A policy whose wrappers ignore the hook given to the call. *)
Definition ignores_call_hook (self : Policy.AsyncRetry hook) : Prop :=
forall f on_error, __call__ self f on_error = __call__ self f None.

End WithWorld.

End Wrap.

(** ** Printing a policy: [AsyncRetry.__str__] *)

From Stdlib Require String.

Module Text.

Import String.

Section WithFormat.

Variable Hook : Type.

(** How [str.format] renders a number under [{:.1f}] and an object
under [{}]. *)
Variable fixed1 : Q -> String.string.
Variable show_predicate : (exn -> bool) -> String.string.
Variable show_hook : option Hook -> String.string.

(** [{:.1f}] applied to a number or [None]: [None] does not accept
the format and [TypeError] is raised. *)
Definition format_1f (x : option Q) : exn + String.string :=
match x with
| Some q => inr (fixed1 q)
| None => inl TypeError
end.

(** Lines 461-472. *)
Definition __str__ (self : Policy.AsyncRetry Hook) : exn + String.string :=
match format_1f (Policy._timeout self) with
| inl e => inl e
| inr timeout =>
  inr (String.append "<AsyncRetry predicate="%string
      (String.append (show_predicate (Policy._predicate self))
      (String.append ", initial="%string
      (String.append (fixed1 (Policy._initial self))
      (String.append ", maximum="%string
      (String.append (fixed1 (Policy._maximum self))
      (String.append ", multiplier="%string
      (String.append (fixed1 (Policy._multiplier self))
      (String.append ", timeout="%string
      (String.append timeout
      (String.append ", on_error="%string
      (String.append (show_hook (Policy._on_error self)) ">"%string))))))))))))
end.

End WithFormat.

End Text.
(** ** Properties of the policy *)

Section PolicyFacts.

Import Policy.

Variable Hook : Type.

Lemma deref_alloc_old (h : store Hook) (o : AsyncRetry Hook) q x :
  deref h q = Some x -> deref (snd (alloc o h)) q = Some x.
Proof.
  unfold deref, alloc; simpl; intros Hq.
  rewrite nth_error_app1; [assumption|].
  apply nth_error_Some; congruence.
Qed.

Lemma deref_alloc_new (h : store Hook) (o : AsyncRetry Hook) :
  deref (snd (alloc o h)) (fst (alloc o h)) = Some o.
Proof.
  unfold deref, alloc; simpl.
  rewrite nth_error_app2 by lia.
  now rewrite Nat.sub_diag.
Qed.

Lemma replace_derives (h : store Hook) p o pr i m mu t oe :
  deref h p = Some o ->
  derives h p (_replace p pr i m mu t oe h)
    (__init__ (or_obj pr (_predicate o)) (or_num i (_initial o))
       (or_num m (_maximum o)) (or_num mu (_multiplier o))
       (or_opt t (_timeout o)) (or_obj_opt oe (_on_error o)) None None).
Proof.
  intros Hp. unfold _replace. rewrite Hp.
  eexists _, _. split; [reflexivity|]. repeat split.
  - intros Heq. unfold deref in Hp.
    assert (p < length h)%nat by (apply nth_error_Some; congruence).
    lia.
  - apply deref_alloc_new.
  - intros q x. apply deref_alloc_old.
Qed.

End PolicyFacts.

(** C9 fails on the code.  For every instance [o] stored at [p],
    [with_timeout], [with_predicate] and [with_delay] each allocate a
    new instance and leave every stored instance, [p] included, as it
    was; but [_replace] passes no [is_generator] on, so the new
    instance has lost the one of [o], and it combines each argument
    with the attribute of [o] by [or], so a named attribute whose
    argument is zero (or [None]) is not replaced: it keeps the value
    of [o]. *)
Theorem with_methods_drop_is_generator_and_zero (Hook : Type)
    (h : Policy.store Hook) (p : Policy.ref) (o : Policy.AsyncRetry Hook) :
  Policy.deref h p = Some o ->
  (forall t, exists o',
      Policy.derives h p (Policy.with_timeout p t h) o' /\
      Policy._is_generator o' = None /\
      (Policy._is_generator o <> None ->
       Policy._is_generator o' <> Policy._is_generator o) /\
      (truthy_opt t = false -> Policy._timeout o' = Policy._timeout o)) /\
  (forall pr, exists o',
      Policy.derives h p (Policy.with_predicate p pr h) o' /\
      Policy._is_generator o' = None /\
      (Policy._is_generator o <> None ->
       Policy._is_generator o' <> Policy._is_generator o) /\
      (pr = None -> Policy._predicate o' = Policy._predicate o)) /\
  (forall i m mu, exists o',
      Policy.derives h p (Policy.with_delay p i m mu h) o' /\
      Policy._is_generator o' = None /\
      (Policy._is_generator o <> None ->
       Policy._is_generator o' <> Policy._is_generator o) /\
      (truthy_opt i = false -> Policy._initial o' = Policy._initial o) /\
      (truthy_opt m = false -> Policy._maximum o' = Policy._maximum o) /\
      (truthy_opt mu = false -> Policy._multiplier o' = Policy._multiplier o)).
Proof.
  intros Hp.
  assert (Hnum : forall (x : option Q) y, truthy_opt x = false -> or_num x y = y).
  { intros [q|] y; cbn; [intros ->|]; reflexivity. }
  split; [|split].
  - intros t. eexists. split.
    + unfold Policy.with_timeout. apply replace_derives. exact Hp.
    + cbn. split; [reflexivity|]. split; [congruence|].
      unfold or_opt. intros ->. reflexivity.
  - intros pr. eexists. split.
    + unfold Policy.with_predicate. apply replace_derives. exact Hp.
    + cbn. split; [reflexivity|]. split; [congruence|].
      intros ->. reflexivity.
  - intros i m mu. eexists. split.
    + unfold Policy.with_delay. apply replace_derives. exact Hp.
    + cbn. split; [reflexivity|]. split; [congruence|].
      repeat split; apply Hnum.
Qed.

(** The theorem at the policy [p0], made with [timeout=120] and
    [is_generator=True]: [with_timeout(0)] yields a second instance
    whose timeout is still 120 and whose [is_generator] is [None]. *)
Lemma with_methods_drop_is_generator_and_zero_witness :
  Policy.deref Scenarios.store0 0 = Some Scenarios.p0 /\
  Policy._is_generator Scenarios.p0 = Some true /\
  exists o',
    Policy.derives Scenarios.store0 0
      (Policy.with_timeout 0 (Some 0%Q) Scenarios.store0) o' /\
    Policy._timeout o' = Some 120%Q /\
    Policy._timeout o' <> Some 0%Q /\
    Policy._is_generator o' <> Some true.
Proof.
  split; [reflexivity|]. split; [reflexivity|].
  destruct (@with_methods_drop_is_generator_and_zero unit Scenarios.store0 0%nat
              Scenarios.p0 eq_refl) as [Ht _].
  destruct (Ht (Some 0%Q)) as [o' [Hd [_ [Hgen Hto]]]].
  exists o'. split; [exact Hd|].
  assert (Hkept : Policy._timeout o' = Some 120%Q) by exact (Hto eq_refl).
  split; [exact Hkept|]. split.
  - rewrite Hkept. discriminate.
  - apply Hgen. discriminate.
Defined.

(** ** Properties of the single-shot executor *)

Section SingleShotFacts.

Import SingleShot.

Variables W V : Type.
Variable E : env W V.
Variable predicate : exn -> bool.
Variable sleep_generator : nat -> option Q.
Variable timeout : option Q.

Lemma le_true_iff (a b : Q) : le a b = true <-> (a <= b)%Q.
Proof. unfold le. apply Qle_bool_iff. Qed.

Lemma le_false_iff (a b : Q) : le a b = false <-> (b < a)%Q.
Proof.
  rewrite <- Bool.not_true_iff_false, le_true_iff.
  split; [apply Qnot_le_lt | apply Qlt_not_le].
Qed.

Lemma min_le_first (a b : Q) : (min a b <= a)%Q.
Proof.
  unfold min. destruct (le a b) eqn:Hab.
  - apply Qle_refl.
  - apply le_false_iff in Hab. apply Qlt_le_weak. exact Hab.
Qed.

Lemma min_le_second (a b : Q) : (min a b <= b)%Q.
Proof.
  unfold min. destruct (le a b) eqn:Hab.
  - apply le_true_iff. exact Hab.
  - apply Qle_refl.
Qed.

(** An attempt that raises a fatal error ends the loop there. *)
Lemma retry_loop_fatal fuel i dl last tr w s bound w1 e w2 :
  sleep_generator i = Some s ->
  attempt_bound E dl w = (bound, w1) ->
  target E bound w1 = (inl e, w2) ->
  predicate e = false ->
  is_TimeoutError e = false ->
  retry_loop E predicate sleep_generator timeout (S fuel) i dl last tr w
  = mkRun (Raised e) (EvCall bound :: tr) w2.
Proof.
  intros Hs Hb Ht Hp Hto. simpl. rewrite Hs, Hb, Ht, Hp, Hto.
  destruct (is_Exception e); reflexivity.
Qed.

(** An attempt that raises an error taken as retryable, with a hook
    that does not raise: the deadline decides. *)
Lemma retry_loop_retryable fuel i dl last tr w s bound w1 exc w2 tr2 w3 now w4 :
  sleep_generator i = Some s ->
  attempt_bound E dl w = (bound, w1) ->
  target E bound w1 = (inl exc, w2) ->
  is_Exception exc = true ->
  predicate exc || is_TimeoutError exc = true ->
  call_on_error E exc (EvCall bound :: tr) w2 = (None, tr2, w3) ->
  utcnow E w3 = (now, w4) ->
  retry_loop E predicate sleep_generator timeout (S fuel) i dl last tr w
  = match next_sleep timeout dl now s (Some exc) with
    | inl e => mkRun (Raised e) tr2 w4
    | inr d =>
        retry_loop E predicate sleep_generator timeout fuel (S i) dl (Some exc)
          (EvSleep d :: tr2) (asleep E d w4)
    end.
Proof.
  intros Hs Hb Ht Hex Hr Hoe Hnow. simpl. rewrite Hs, Hb, Ht, Hex. simpl.
  replace (negb (predicate exc) && negb (is_TimeoutError exc)) with false
    by (rewrite <- negb_orb, Hr; reflexivity).
  rewrite Hoe, Hnow. reflexivity.
Qed.

End SingleShotFacts.

(** C8.  When an attempt of a single-shot run raises an error that the
    classifier rejects and that is not a timeout, the run raises that
    very error and its trace ends with that attempt: nothing is slept
    and nothing is attempted after it.  When it is the first attempt,
    the run consists of one attempt and no sleep. *)
Theorem fatal_error_raised_unchanged (W V : Type) (E : SingleShot.env W V)
    (predicate : exn -> bool) (sleep_generator : nat -> option Q)
    (timeout : option Q) (e : exn) :
  predicate e = false ->
  is_TimeoutError e = false ->
  (forall fuel i dl last tr w s bound w1 w2,
      sleep_generator i = Some s ->
      SingleShot.attempt_bound E dl w = (bound, w1) ->
      SingleShot.target E bound w1 = (inl e, w2) ->
      SingleShot.retry_loop E predicate sleep_generator timeout (S fuel) i dl last tr w
      = SingleShot.mkRun (SingleShot.Raised e) (SingleShot.EvCall bound :: tr) w2) /\
  (forall fuel w dl w0 s bound w1 w2,
      SingleShot.init_deadline E timeout w = (dl, w0) ->
      sleep_generator 0%nat = Some s ->
      SingleShot.attempt_bound E dl w0 = (bound, w1) ->
      SingleShot.target E bound w1 = (inl e, w2) ->
      let r := SingleShot.retry_target E predicate sleep_generator timeout (S fuel) w in
      SingleShot.result r = SingleShot.Raised e /\
      SingleShot.sleeps (SingleShot.trace r) = [] /\
      SingleShot.attempts (SingleShot.trace r) = 1%nat).
Proof.
  intros Hp Hto. split.
  - intros. eapply retry_loop_fatal; eassumption.
  - intros fuel w dl w0 s bound w1 w2 Hd Hs Hb Ht r. subst r.
    unfold SingleShot.retry_target. rewrite Hd.
    erewrite retry_loop_fatal by eassumption.
    simpl. repeat split; reflexivity.
Qed.

(** The fatal-error theorem on an operation that raises [ValueError]
    under a classifier that retries application errors. *)
Lemma fatal_error_raised_unchanged_witness :
  Scenarios.if_app_error ValueError = false /\
  is_TimeoutError ValueError = false /\
  let r := SingleShot.retry_target Scenarios.op_env Scenarios.if_app_error
             Scenarios.every_second (Some 10%Q) 5 Scenarios.op_fatal in
  SingleShot.result r = SingleShot.Raised ValueError /\
  SingleShot.sleeps (SingleShot.trace r) = [] /\
  SingleShot.attempts (SingleShot.trace r) = 1%nat.
Proof.
  split; [reflexivity|]. split; [reflexivity|].
  refine (proj2 (@fatal_error_raised_unchanged _ _ Scenarios.op_env
            Scenarios.if_app_error Scenarios.every_second (Some 10%Q)
            ValueError eq_refl eq_refl) 4%nat Scenarios.op_fatal
            (Some 10%Q) Scenarios.op_fatal 1%Q (Some 10%Q) Scenarios.op_fatal
            (Scenarios.mkOpWorld 1 []) eq_refl eq_refl eq_refl eq_refl).
Defined.




(** ** Properties of the streaming executor *)

Section StreamingFacts.

Import Streaming.

Variables W H V : Type.
Variable E : env W H V.
Variable predicate : exn -> bool.
Variable sleep_generator : nat -> option Q.
Variable timeout_arg : option Q.
Variable kw_deadline : option (option Q).

Abbreviation st := (state W H V).
Abbreviation forward_ := (forward E timeout_arg kw_deadline).
Abbreviation attempt_ := (attempt E predicate timeout_arg kw_deadline).
Abbreviation retry_loop_ :=
  (retry_loop E predicate sleep_generator timeout_arg kw_deadline).

Lemma triple_bind {A B} (P : st -> Prop) (R : A -> st -> Prop)
    (Q : ctl B -> st -> Prop) (m : M W H V A) (k : A -> M W H V B) :
  triple P m (or_exit R Q) ->
  (forall a, triple (R a) (k a) Q) ->
  triple P (bind m k) Q.
Proof.
  intros Hm Hk s Hs. specialize (Hm s Hs). unfold bind.
  destruct (m s) as [[a| e | | | ] s1]; cbn in *; try exact Hm.
  apply Hk. exact Hm.
Qed.

Lemma triple_weaken {A} (P P' : st -> Prop) (Q Q' : ctl A -> st -> Prop)
    (m : M W H V A) :
  triple P m Q ->
  (forall s, P' s -> P s) ->
  (forall c s, Q c s -> Q' c s) ->
  triple P' m Q'.
Proof. intros Hm HP HQ s Hs. apply HQ, Hm, HP, Hs. Qed.

(** Unfolding of the blocks down to matches on what the world
    answers, and case analysis on those, innermost first. *)
Ltac unfold_blocks :=
  unfold dispatch, handle, finally_, report_error,
    reserve_sleep, charge_elapsed, check_budget, yield_to_caller, yield_,
    await_sleep, await_aclose, await_athrow, await_asend, call_target,
    now_, read_start_timestamp, get_budget, get_last_exc, set_budget,
    set_last_exc, set_subgenerator, set_start_timestamp, bind, ret, raise,
    gen_return, out_of_fuel, log, with_world;
  cbn beta iota.

Ltac break_match :=
  match goal with
  | |- context [match ?x with _ => _ end] =>
      lazymatch x with
      | context [match _ with _ => _ end] => fail
      | _ => destruct x eqn:?
      end
  end;
  cbn [fst snd world trace last_exc subgenerator
       remaining_timeout_budget start_timestamp] in *.

Ltac by_cases :=
  let s := fresh "s" in
  let Hs := fresh "Hs" in
  unfold triple; intros s Hs; unfold_blocks; cbn [fst snd];
  repeat break_match;
  cbn [fst snd world trace last_exc subgenerator remaining_timeout_budget
       start_timestamp or_exit] in *.

(** *** A program logic for the blocks of the generator *)

(** *** Without a budget no pull is awaited *)

Lemma forward_no_budget fuel g sent s :
  remaining_timeout_budget s = None ->
  forward_ (S fuel) g sent s = (Raise TypeError, s).
Proof.
  intros Hb. cbn [forward]. unfold_blocks. rewrite Hb. reflexivity.
Qed.

Lemma forward_unbudgeted n fuel g sent :
  triple (unbudgeted n) (forward_ fuel g sent) (fun _ => unbudgeted n).
Proof.
  intros s Hs. destruct fuel.
  - exact Hs.
  - rewrite forward_no_budget by apply Hs. exact Hs.
Qed.

Lemma try_body_unbudgeted n fuel :
  triple (unbudgeted n) (try_body E timeout_arg kw_deadline fuel)
    (fun _ => unbudgeted n).
Proof.
  unfold try_body.
  apply triple_bind with (R := fun _ => unbudgeted n).
  - by_cases; exact Hs.
  - intros g. apply triple_bind with (R := fun _ => unbudgeted n).
    + by_cases; exact Hs.
    + intros _. apply forward_unbudgeted.
Qed.

Lemma finally_unbudgeted n c :
  triple (unbudgeted n) (finally_ E c) (fun _ => unbudgeted n).
Proof. unfold unbudgeted. by_cases; auto. Qed.

Lemma dispatch_unbudgeted n e :
  triple (unbudgeted n) (dispatch E predicate e) (fun _ => unbudgeted n).
Proof. unfold unbudgeted. by_cases; intuition congruence. Qed.

Lemma attempt_unbudgeted n fuel :
  triple (unbudgeted n) (attempt_ fuel) (fun _ => unbudgeted n).
Proof.
  intros s Hs. unfold attempt, try_statement.
  pose proof (try_body_unbudgeted fuel Hs) as Hbody.
  destruct (try_body _ _ _ _ s) as [c s1]. cbn [snd] in Hbody.
  destruct c as [a|e| | |]; try (apply finally_unbudgeted; exact Hbody).
  pose proof (dispatch_unbudgeted e Hbody) as Hd.
  destruct (dispatch E predicate e s1) as [c2 s2].
  apply finally_unbudgeted. exact Hd.
Qed.

Lemma retry_loop_unbudgeted n fuel : forall i,
  triple (unbudgeted n) (retry_loop_ fuel i) (fun _ => unbudgeted n).
Proof.
  induction fuel as [|fuel IH]; intros i; cbn [retry_loop].
  - intros s Hs. exact Hs.
  - destruct (sleep_generator i) as [sleep|].
    + apply triple_bind with (R := fun _ => unbudgeted n).
      { eapply triple_weaken; [apply (@attempt_unbudgeted n) | auto |].
        intros c s' Hc; destruct c; exact Hc. }
      intros _. apply triple_bind with (R := fun _ => unbudgeted n).
      { unfold unbudgeted. by_cases; auto. }
      intros _. apply triple_bind with (R := fun _ => unbudgeted n).
      { unfold unbudgeted. by_cases; intuition congruence. }
      intros _. apply triple_bind with (R := fun _ => unbudgeted n).
      { unfold unbudgeted. by_cases; auto. }
      intros _. apply IH.
    + intros s Hs. exact Hs.
Qed.

(** *** One stream at a time *)

Lemma last_opened_none (tr : list (event H V)) :
  last_opened tr = None -> open_stream tr = None.
Proof.
  induction tr as [|e tr IH]; [reflexivity|].
  destruct e; cbn; auto; discriminate.
Qed.

Ltac inv_cases :=
  unfold closed_if_ended, streaming_from, holding, closed, tracked in *;
  by_cases;
  cbn [disciplined last_opened open_stream] in *;
  intuition (auto; congruence).

Lemma forward_holding fuel g : forall sent,
  triple (streaming_from g) (forward_ fuel g sent) (fun _ => holding g).
Proof.
  induction fuel as [|fuel IH]; intros sent; cbn [forward].
  - inv_cases.
  - apply triple_bind with (R := fun _ => streaming_from g); [inv_cases|].
    intros _. apply triple_bind with (R := fun _ => streaming_from g); [inv_cases|].
    intros b. apply triple_bind with (R := fun _ => streaming_from g); [inv_cases|].
    intros t. apply triple_bind with (R := fun _ => streaming_from g); [inv_cases|].
    intros _. apply triple_bind with (R := fun _ => streaming_from g); [inv_cases|].
    intros v. apply triple_bind with (R := fun _ => streaming_from g); [inv_cases|].
    intros _. apply triple_bind with (R := fun _ => streaming_from g); [inv_cases|].
    intros sent'. apply IH.
Qed.

Lemma try_body_tracked fuel :
  triple closed (try_body E timeout_arg kw_deadline fuel) (fun _ => tracked).
Proof.
  unfold try_body.
  apply triple_bind with
    (R := fun g s => disciplined (trace s) /\ last_opened (trace s) = Some g /\
                     open_stream (trace s) = Some g).
  - inv_cases.
  - intros g. apply triple_bind with (R := fun _ => streaming_from g).
    + inv_cases.
    + intros _. eapply triple_weaken; [apply forward_holding | auto |].
      cbn beta. unfold holding. tauto.
Qed.

Lemma dispatch_tracked e :
  triple tracked (dispatch E predicate e) (fun _ => tracked).
Proof. inv_cases. Qed.

Lemma finally_closed (c : ctl unit) :
  triple tracked (finally_ E c) closed_if_ended.
Proof.
  unfold closed_if_ended, closed, tracked. by_cases;
    cbn [disciplined last_opened open_stream] in *;
    repeat split; try tauto; try congruence;
    try (apply last_opened_none; intuition congruence);
    try (destruct Hs; congruence).
Qed.

Lemma attempt_closed fuel :
  triple closed (attempt_ fuel) closed_if_ended.
Proof.
  intros s Hs. unfold attempt, try_statement.
  pose proof (try_body_tracked fuel Hs) as Hbody.
  destruct (try_body _ _ _ _ s) as [c s1]. cbn [snd] in Hbody.
  destruct c as [a|e| | |]; try (apply finally_closed; exact Hbody).
  pose proof (dispatch_tracked e Hbody) as Hd.
  destruct (dispatch E predicate e s1) as [c2 s2].
  apply finally_closed. exact Hd.
Qed.

Lemma retry_loop_closed fuel : forall i,
  triple closed (retry_loop_ fuel i) closed_if_ended.
Proof.
  induction fuel as [|fuel IH]; intros i; cbn [retry_loop].
  - inv_cases.
  - destruct (sleep_generator i) as [sleep|]; [|inv_cases].
    apply triple_bind with (R := fun _ => closed).
    { eapply triple_weaken; [apply attempt_closed | auto |].
      intros c s' Hc; destruct c; exact Hc. }
    intros _. apply triple_bind with (R := fun _ => closed); [inv_cases|].
    intros _. apply triple_bind with (R := fun _ => closed); [inv_cases|].
    intros _. apply triple_bind with (R := fun _ => closed); [inv_cases|].
    intros _. apply IH.
Qed.

(** *** The blocks in detail *)

(** The [while] loop is left by an exception, a [return] or for
    lack of fuel only. *)
Lemma forward_never_falls_through fuel g : forall sent,
  triple (fun _ => True) (forward_ fuel g sent)
    (fun c _ => match c with Normal _ => False | _ => True end).
Proof.
  induction fuel as [|fuel IH]; intros sent; cbn [forward].
  - by_cases; exact I.
  - repeat (apply triple_bind with (R := fun _ _ => True);
            [by_cases; exact I | intros ?]).
    apply IH.
Qed.

(** An attempt that falls through to the backoff has recorded an
    error. *)
Lemma attempt_normal_last_exc fuel s s1 :
  attempt_ fuel s = (Normal tt, s1) -> exists e, last_exc s1 = Some e.
Proof.
  unfold attempt, try_statement, try_body. intros Ha.
  assert (Hbody : triple (fun _ => True)
            (bind (call_target E) (fun g => bind (set_subgenerator (Some g))
               (fun _ => forward_ fuel g None)))
            (fun c _ => match c with Normal _ => False | _ => True end)).
  { apply triple_bind with (R := fun _ _ => True); [by_cases; exact I|].
    intros g. apply triple_bind with (R := fun _ _ => True); [by_cases; exact I|].
    intros _. apply forward_never_falls_through. }
  specialize (Hbody s I).
  destruct (bind _ _ s) as [c s0]. cbn [fst snd] in Hbody.
  destruct c as [a|e| | |]; try contradiction.
  - assert (Hd : forall c2 s2, dispatch E predicate e s0 = (c2, s2) ->
              c2 = Normal tt -> last_exc s2 = Some e).
    { intros c2 s2. unfold_blocks. repeat break_match; intros Heq;
        inversion Heq; subst; cbn; congruence. }
    destruct (dispatch E predicate e s0) as [c2 s2] eqn:Hdis.
    assert (Hf : finally_ E c2 s2 = (Normal tt, s1) ->
              c2 = Normal tt /\ last_exc s1 = last_exc s2).
    { unfold_blocks. repeat break_match; intros Heq; inversion Heq; subst;
        cbn; try destruct a; auto; congruence. }
    destruct (Hf Ha) as [Hc Hl]. exists e. rewrite Hl. eauto.
  - revert Ha. unfold_blocks. repeat break_match; congruence.
  - revert Ha. unfold_blocks. repeat break_match; congruence.
  - revert Ha. unfold_blocks. repeat break_match; congruence.
Qed.

Lemma try_statement_raise body s e s1 :
  body s = (Raise e, s1) ->
  try_statement E predicate body s
  = (let (c, s2) := dispatch E predicate e s1 in finally_ E c s2).
Proof. intros Hb. unfold try_statement. rewrite Hb. reflexivity. Qed.

(** One round of the [while] loop in which the consumer throws [e]
    at the value it receives and the stream answers by raising
    [e']. *)
Lemma forward_injection fuel g sent s r t w1 v w2 t' w3 e w4 e' w5 :
  closing (trace s) = false ->
  remaining_timeout_budget s = Some r ->
  (0 < r)%Q ->
  utcnow E (world s) = (t, w1) ->
  asend E g sent (pull_bound timeout_arg kw_deadline (Some r)) w1 = (inr v, w2) ->
  utcnow E w2 = (t', w3) ->
  consumer E v w3 = (Throw e, w4) ->
  is_GeneratorExit e = false ->
  athrow E g e w4 = (inl e', w5) ->
  forward_ (S fuel) g sent s
  = (Raise e',
     mkState w5
       (EvAthrow g e :: EvYield v ::
        EvAsend g sent (pull_bound timeout_arg kw_deadline (Some r)) :: trace s)
       (last_exc s) (subgenerator s) (Some (r - (t' - t))%Q) (Some t)).
Proof.
  intros Hcl Hb Hr Hnow Hpull Hnow' Hcons Hge Hthrow.
  apply le_false_iff in Hr. unfold closing in Hcl.
  cbn [forward]. unfold_blocks. unfold closing.
  rewrite Hb. cbn -[pull_bound Qminus]. rewrite Hr, Hnow.
  cbn -[pull_bound Qminus]. rewrite ?Hb, Hpull.
  cbn -[pull_bound Qminus]. rewrite ?Hb, Hnow'.
  cbn -[pull_bound Qminus]. rewrite ?Hb, ?Hcl, Hcons.
  cbn -[pull_bound Qminus]. rewrite ?Hb, Hge.
  cbn -[pull_bound Qminus]. rewrite ?Hb, Hthrow. reflexivity.
Qed.

(** The hook leaves the recorded error as it is. *)
Lemma report_error_last_exc s c s1 :
  report_error E s = (c, s1) -> last_exc s1 = last_exc s.
Proof.
  unfold_blocks. repeat break_match; intros Heq; inversion Heq; reflexivity.
Qed.

(** The backoff after an attempt that fell through, with a hook that
    did not raise and a budget [r]. *)
Lemma retry_loop_backoff fuel i s sleep s1 s2 r :
  sleep_generator i = Some sleep ->
  attempt_ fuel s = (Normal tt, s1) ->
  report_error E s1 = (Normal tt, s2) ->
  remaining_timeout_budget s2 = Some r ->
  retry_loop_ (S fuel) i s
  = if le r sleep
    then (Raise (RetryError (timeout timeout_arg kw_deadline) (last_exc s2)), s2)
    else retry_loop_ fuel (S i)
           (mkState (asleep E sleep (world s2)) (EvSleep sleep :: trace s2)
              (last_exc s2) (subgenerator s2) (Some (r - sleep)%Q)
              (start_timestamp s2)).
Proof.
  intros Hs Ha Hr Hb. cbn [retry_loop]. rewrite Hs.
  unfold bind at 1. rewrite Ha. unfold bind at 1. rewrite Hr.
  unfold bind at 1. unfold reserve_sleep, bind, get_budget, get_last_exc,
    raise, set_budget. rewrite Hb.
  destruct (le r sleep); reflexivity.
Qed.

End StreamingFacts.

(** C5 fails on the code.  When the consumer calls [aclose()] on the
    wrapper at a value it has received and line 151's [aclose()] on
    the stream [g] raises an error [e] taken as retryable, the [try]
    statement catches [e] and falls through to the backoff although the
    consumer is closing.  In an iteration of the retry loop that runs
    after the consumer has called [aclose()], the factory is called
    again; when the new stream [g'] yields a value the wrapper reaches
    a [yield] with the consumer's [aclose()] still running.  The run
    ends there, suspended: no [finally] clause runs, nothing awaits
    [aclose()] on [g'], and [g'] is left open. *)
Theorem retry_after_close_leaves_stream_open (W H V : Type)
    (E : Streaming.env W H V) (predicate : exn -> bool)
    (sleep_generator : nat -> option Q) (timeout_arg : option Q)
    (kw_deadline : option (option Q)) :
  (forall fuel g sent s r t w1 v w2 t' w3 w4 e w5 t'' w6 w7,
      Streaming.closing (Streaming.trace s) = false ->
      Streaming.subgenerator s = Some g ->
      Streaming.remaining_timeout_budget s = Some r ->
      (0 < r)%Q ->
      Streaming.utcnow E (Streaming.world s) = (t, w1) ->
      Streaming.asend E g sent
        (Streaming.pull_bound timeout_arg kw_deadline (Some r)) w1 = (inr v, w2) ->
      Streaming.utcnow E w2 = (t', w3) ->
      Streaming.consumer E v w3 = (Streaming.Close, w4) ->
      Streaming.aclose E g w4 = (Some e, w5) ->
      is_StopAsyncIteration e = false ->
      is_Exception e || is_CancelledError e = true ->
      predicate e || is_TimeoutError e = true ->
      Streaming.utcnow E w5 = (t'', w6) ->
      Streaming.aclose E g w6 = (None, w7) ->
      let s1 := Streaming.mkState w7
                  (Streaming.EvAclose g :: Streaming.EvAclose g ::
                   Streaming.EvClosing :: Streaming.EvYield v ::
                   Streaming.EvAsend g sent
                     (Streaming.pull_bound timeout_arg kw_deadline (Some r)) ::
                   Streaming.trace s)
                  (Some e) (Some g) (Some (r - (t' - t) - (t'' - t))%Q) (Some t) in
      Streaming.try_statement E predicate
        (Streaming.forward E timeout_arg kw_deadline (S fuel) g sent) s
      = (Streaming.Normal tt, s1) /\
      Streaming.closing (Streaming.trace s1) = true) /\
  (forall fuel i s sleep r g' w0 t w1 v w2 t' w3,
      Streaming.closing (Streaming.trace s) = true ->
      sleep_generator i = Some sleep ->
      Streaming.remaining_timeout_budget s = Some r ->
      (0 < r)%Q ->
      Streaming.target E (Streaming.world s) = (inr g', w0) ->
      Streaming.utcnow E w0 = (t, w1) ->
      Streaming.asend E g' None
        (Streaming.pull_bound timeout_arg kw_deadline (Some r)) w1 = (inr v, w2) ->
      Streaming.utcnow E w2 = (t', w3) ->
      let s' := Streaming.mkState w3
                  (Streaming.EvAsend g' None
                     (Streaming.pull_bound timeout_arg kw_deadline (Some r)) ::
                   Streaming.EvOpen g' :: Streaming.trace s)
                  (Streaming.last_exc s) (Some g') (Some (r - (t' - t))%Q)
                  (Some t) in
      Streaming.retry_loop E predicate sleep_generator timeout_arg kw_deadline
        (S (S fuel)) i s = (Streaming.Suspended, s') /\
      Streaming.open_stream (Streaming.trace s') = Some g' /\
      Streaming.yields (Streaming.trace s') = Streaming.yields (Streaming.trace s)).
Proof.
  split.
  - intros fuel g sent s r t w1 v w2 t' w3 w4 e w5 t'' w6 w7
      Hcl Hg Hb Hr Hnow Hpull Hnow' Hcons Hfail Hstop Hex Hacc Hnow'' Hclose s1.
    subst s1. split; [|reflexivity].
    apply le_false_iff in Hr. unfold Streaming.closing in Hcl.
    destruct s as [w tr last sg rb st0]. cbn in Hcl, Hg, Hb, Hnow. subst rb sg.
    unfold Streaming.try_statement. cbn [Streaming.forward].
    unfold Streaming.check_budget, Streaming.charge_elapsed,
      Streaming.yield_to_caller, Streaming.yield_, Streaming.await_asend,
      Streaming.await_aclose, Streaming.now_, Streaming.read_start_timestamp,
      Streaming.get_budget, Streaming.set_budget, Streaming.set_start_timestamp,
      Streaming.bind, Streaming.ret, Streaming.raise, Streaming.gen_return,
      Streaming.log, Streaming.with_world, Streaming.closing.
    cbn -[Streaming.pull_bound Qminus]. rewrite Hr.
    cbn -[Streaming.pull_bound Qminus]. rewrite Hnow.
    cbn -[Streaming.pull_bound Qminus]. rewrite Hpull.
    cbn -[Streaming.pull_bound Qminus]. rewrite Hnow'.
    cbn -[Streaming.pull_bound Qminus]. rewrite Hcl, Hcons.
    cbn -[Streaming.pull_bound Qminus]. rewrite Hfail.
    cbn -[Streaming.pull_bound Qminus].
    unfold Streaming.dispatch, Streaming.handle. rewrite Hstop, Hex.
    replace (negb (predicate e) && negb (is_TimeoutError e)) with false
      by (rewrite <- negb_orb, Hacc; reflexivity).
    unfold Streaming.bind, Streaming.set_last_exc, Streaming.charge_elapsed,
      Streaming.bind, Streaming.get_budget, Streaming.now_,
      Streaming.read_start_timestamp, Streaming.set_budget,
      Streaming.finally_, Streaming.await_aclose, Streaming.log,
      Streaming.with_world.
    cbn -[Streaming.pull_bound Qminus]. rewrite Hnow''.
    cbn -[Streaming.pull_bound Qminus]. rewrite Hclose. reflexivity.
  - intros fuel i s sleep r g' w0 t w1 v w2 t' w3
      Hcl Hs Hb Hr Ht Hnow Hpull Hnow' s'. subst s'.
    split; [|split; reflexivity].
    apply le_false_iff in Hr. unfold Streaming.closing in Hcl.
    destruct s as [w tr last sg rb st0]. cbn in Hcl, Hb, Ht. subst rb.
    cbn [Streaming.retry_loop]. rewrite Hs.
    unfold Streaming.bind at 1.
    unfold Streaming.attempt, Streaming.try_statement, Streaming.try_body.
    unfold Streaming.bind at 1. unfold Streaming.call_target at 1.
    cbn [Streaming.world]. rewrite Ht.
    unfold Streaming.bind at 1. unfold Streaming.set_subgenerator at 1.
    cbn [Streaming.forward].
    unfold Streaming.check_budget, Streaming.charge_elapsed,
      Streaming.yield_to_caller, Streaming.yield_, Streaming.await_asend,
      Streaming.now_, Streaming.read_start_timestamp, Streaming.get_budget,
      Streaming.set_budget, Streaming.set_start_timestamp, Streaming.bind,
      Streaming.ret, Streaming.raise, Streaming.log, Streaming.with_world,
      Streaming.closing.
    cbn -[Streaming.pull_bound Qminus]. rewrite Hr.
    cbn -[Streaming.pull_bound Qminus]. rewrite Hnow.
    cbn -[Streaming.pull_bound Qminus]. rewrite Hpull.
    cbn -[Streaming.pull_bound Qminus]. rewrite Hnow'.
    cbn -[Streaming.pull_bound Qminus]. rewrite Hcl. reflexivity.
Qed.

(** The theorem on the run with ten seconds of budget whose first
    stream yields 1, whose consumer closes the wrapper at that value,
    and whose first stream fails to close with a retryable error: the
    first attempt falls through to the backoff, the first iteration
    leaves the state [after_failed_close], the second ends suspended,
    and the whole run ends suspended after the one value, with the
    second stream in the ledger of open streams. *)
Lemma retry_after_close_leaves_stream_open_witness :
  let E := Scenarios.ledger_env Scenarios.streams_1_34 in
  let run := Streaming.retry_target_generator E
               Scenarios.if_app_error Scenarios.every_second (Some 10%Q) None 20
               Scenarios.closing_cleanup_fails in
  fst (Streaming.try_statement E Scenarios.if_app_error
         (Streaming.forward E (Some 10%Q) None 5 0%nat None)
         Scenarios.after_first_open)
  = Streaming.Normal tt /\
  snd (Streaming.bind
         (Streaming.attempt E Scenarios.if_app_error (Some 10%Q) None 5)
         (fun _ => Streaming.bind
            (Streaming.reserve_sleep (Some 10%Q) None 1%Q)
            (fun _ => Streaming.await_sleep E 1%Q))
         (@Streaming.initial_state _ nat nat (Some 10%Q) None
            Scenarios.closing_cleanup_fails))
  = Scenarios.after_failed_close /\
  Streaming.retry_loop E
    Scenarios.if_app_error Scenarios.every_second (Some 10%Q) None 5 1
    Scenarios.after_failed_close
  = (Streaming.Suspended,
     Streaming.mkState
       (Scenarios.mkLedgerWorld (Scenarios.mkGenWorld 3 2 1 []) [1%nat] [])
       (Streaming.EvAsend 1%nat None (Some 7%Q) :: Streaming.EvOpen 1%nat ::
        Streaming.trace Scenarios.after_failed_close)
       (Some (AppError 9)) (Some 1%nat) (Some (7 - (3 - 2))%Q) (Some 2%Q)) /\
  fst run = Streaming.Suspended /\
  Streaming.yields (Streaming.trace (snd run)) = [1%nat] /\
  Streaming.open_stream (Streaming.trace (snd run)) = Some 1%nat /\
  Scenarios.live (Streaming.world (snd run)) = [1%nat].
Proof.
  intros E run.
  pose proof (@retry_after_close_leaves_stream_open _ _ _ E
                Scenarios.if_app_error Scenarios.every_second (Some 10%Q) None)
    as [Hfirst Hsecond].
  split; [|split; [vm_compute; reflexivity|split]].
  - pose (wa := Scenarios.mkLedgerWorld
                  (Scenarios.mkGenWorld 0 1 0 [@Streaming.Close nat])
                  [0%nat] [Some (AppError 9)]).
    pose (wb := Scenarios.mkLedgerWorld
                  (Scenarios.mkGenWorld 1 1 1 [@Streaming.Close nat])
                  [0%nat] [Some (AppError 9)]).
    pose (wc := Scenarios.mkLedgerWorld (Scenarios.mkGenWorld 1 1 1 [])
                  [0%nat] [Some (AppError 9)]).
    pose (wd := Scenarios.mkLedgerWorld (Scenarios.mkGenWorld 1 1 1 []) [] []).
    destruct (Hfirst 4%nat 0%nat None Scenarios.after_first_open 10%Q 0%Q wa
                1%nat wb 1%Q wb wc (AppError 9) wd 1%Q wd wd
                eq_refl eq_refl eq_refl eq_refl eq_refl eq_refl eq_refl eq_refl
                eq_refl eq_refl eq_refl eq_refl eq_refl eq_refl) as [Hstep _].
    rewrite Hstep. reflexivity.
  - exact (proj1 (Hsecond 3%nat 1%nat Scenarios.after_failed_close 1%Q 7%Q 1%nat
             (Scenarios.mkLedgerWorld (Scenarios.mkGenWorld 2 2 0 []) [1%nat] [])
             2%Q
             (Scenarios.mkLedgerWorld (Scenarios.mkGenWorld 2 2 0 []) [1%nat] [])
             3%nat
             (Scenarios.mkLedgerWorld (Scenarios.mkGenWorld 3 2 1 []) [1%nat] [])
             3%Q
             (Scenarios.mkLedgerWorld (Scenarios.mkGenWorld 3 2 1 []) [1%nat] [])
             eq_refl eq_refl eq_refl eq_refl eq_refl eq_refl eq_refl eq_refl)).
  - vm_compute. repeat split; reflexivity.
Defined.

(** C1 fails on the code.  With no budget (timeout [None] or zero) the
    comparison of line 127 is evaluated on [None] and raises
    [TypeError]: no run ever awaits a pull, and a run whose factory
    returns a stream ends with that [TypeError] when the classifier
    rejects it. *)
Theorem no_timeout_budget_check_faults (W H V : Type)
    (E : Streaming.env W H V) (predicate : exn -> bool)
    (sleep_generator : nat -> option Q) (timeout_arg : option Q)
    (kw_deadline : option (option Q)) :
  Streaming.initial_budget timeout_arg kw_deadline = None ->
  (forall fuel w,
      Streaming.pulls (Streaming.trace (snd
        (Streaming.retry_target_generator E predicate sleep_generator
           timeout_arg kw_deadline fuel w))) = 0%nat) /\
  (forall fuel w sleep g w1 w2,
      sleep_generator 0%nat = Some sleep ->
      Streaming.target E w = (inr g, w1) ->
      Streaming.aclose E g w1 = (None, w2) ->
      predicate TypeError = false ->
      Streaming.retry_target_generator E predicate sleep_generator
        timeout_arg kw_deadline (S (S fuel)) w
      = (Streaming.Raise TypeError,
         Streaming.mkState w2 [Streaming.EvAclose g; Streaming.EvOpen g]
           None (Some g) None None)).
Proof.
  intros Hb. split.
  - intros fuel w. unfold Streaming.retry_target_generator.
    apply (@retry_loop_unbudgeted W H V E predicate sleep_generator timeout_arg
             kw_deadline 0%nat fuel 0%nat).
    split; [exact Hb | reflexivity].
  - intros fuel w sleep g w1 w2 Hs Ht Hc Hp.
    unfold Streaming.retry_target_generator, Streaming.initial_state.
    rewrite Hb. cbn [Streaming.retry_loop]. rewrite Hs.
    unfold Streaming.bind at 1.
    unfold Streaming.attempt, Streaming.try_statement, Streaming.try_body.
    unfold Streaming.bind at 1. unfold Streaming.call_target at 1.
    cbn [Streaming.world]. rewrite Ht.
    unfold Streaming.bind at 1. unfold Streaming.set_subgenerator at 1.
    rewrite forward_no_budget by reflexivity.
    unfold Streaming.dispatch, Streaming.handle. cbn. rewrite Hp. cbn.
    unfold Streaming.raise, Streaming.finally_, Streaming.await_aclose. cbn.
    rewrite Hc. reflexivity.
Qed.

(** The theorem on the streams that yield 1, 2 and then 3, run with
    [timeout=None]. *)
Lemma no_timeout_budget_check_faults_witness :
  Streaming.initial_budget None None = None /\
  fst (Streaming.retry_target_generator
         (Scenarios.gen_env Scenarios.streams_12_3) Scenarios.if_app_error
         Scenarios.every_second None None 20 Scenarios.iterating)
  = Streaming.Raise TypeError.
Proof.
  split; [reflexivity|].
  rewrite (proj2 (@no_timeout_budget_check_faults _ _ _
             (Scenarios.gen_env Scenarios.streams_12_3) Scenarios.if_app_error
             Scenarios.every_second None None eq_refl)
           18%nat Scenarios.iterating 1%Q 0%nat
           (Scenarios.mkGenWorld 0 1 0 []) (Scenarios.mkGenWorld 0 1 0 [])
           eq_refl eq_refl eq_refl eq_refl).
  reflexivity.
Defined.

(** C10 fails on the code.  With a budget, when the first call of the
    factory raises an error that is taken as retryable, the handler
    reads [start_timestamp] before anything has assigned it: the run
    ends with [UnboundLocalError], without hook, sleep or second
    attempt. *)
Theorem factory_error_reads_unbound_timestamp (W H V : Type)
    (E : Streaming.env W H V) (predicate : exn -> bool)
    (sleep_generator : nat -> option Q) (timeout_arg : option Q)
    (kw_deadline : option (option Q)) fuel w b sleep e w1 t w2 :
  Streaming.initial_budget timeout_arg kw_deadline = Some b ->
  sleep_generator 0%nat = Some sleep ->
  Streaming.target E w = (inl e, w1) ->
  is_StopAsyncIteration e = false ->
  is_Exception e || is_CancelledError e = true ->
  predicate e || is_TimeoutError e = true ->
  Streaming.utcnow E w1 = (t, w2) ->
  Streaming.retry_target_generator E predicate sleep_generator
    timeout_arg kw_deadline (S fuel) w
  = (Streaming.Raise UnboundLocalError,
     Streaming.mkState w2 [Streaming.EvFactoryError e] (Some e) None (Some b) None).
Proof.
  intros Hb Hs Ht Hstop Hex Hp Hnow.
  unfold Streaming.retry_target_generator, Streaming.initial_state.
  rewrite Hb. cbn [Streaming.retry_loop]. rewrite Hs.
  unfold Streaming.bind at 1.
  unfold Streaming.attempt, Streaming.try_statement, Streaming.try_body.
  unfold Streaming.bind at 1. unfold Streaming.call_target at 1.
  cbn [Streaming.world]. rewrite Ht.
  unfold Streaming.dispatch, Streaming.handle. rewrite Hstop, Hex.
  replace (negb (predicate e) && negb (is_TimeoutError e)) with false
    by (rewrite <- negb_orb, Hp; reflexivity).
  unfold Streaming.bind, Streaming.set_last_exc, Streaming.charge_elapsed,
    Streaming.bind, Streaming.get_budget, Streaming.now_,
    Streaming.read_start_timestamp, Streaming.log, Streaming.with_world.
  cbn. rewrite Hnow. reflexivity.
Qed.

(** The theorem on a factory whose first call raises [AppError 1],
    run with a timeout of ten seconds. *)
Lemma factory_error_reads_unbound_timestamp_witness :
  Streaming.initial_budget (Some 10%Q) None = Some 10%Q /\
  Scenarios.if_app_error (AppError 1) = true /\
  fst (Streaming.retry_target_generator
         (Scenarios.gen_env Scenarios.streams_factory_fails)
         Scenarios.if_app_error Scenarios.every_second (Some 10%Q) None 20
         Scenarios.iterating)
  = Streaming.Raise UnboundLocalError.
Proof.
  split; [reflexivity|]. split; [reflexivity|].
  rewrite (@factory_error_reads_unbound_timestamp _ _ _
             (Scenarios.gen_env Scenarios.streams_factory_fails)
             Scenarios.if_app_error Scenarios.every_second (Some 10%Q) None
             19%nat Scenarios.iterating 10%Q 1%Q (AppError 1)
             (Scenarios.mkGenWorld 0 1 0 []) 0%Q (Scenarios.mkGenWorld 0 1 0 [])
             eq_refl eq_refl eq_refl eq_refl eq_refl eq_refl eq_refl).
  reflexivity.
Defined.

(** C2 fails on the code.  Timeout ten seconds: the first stream fails
    with a retryable error after three, the backoff sleeps one, the
    second stream yields a value after the six that are left.  The
    next pull finds the budget at zero and the run raises a
    deadline-exceeded error whose cause is [None], although the last
    error is recorded. *)
Theorem deadline_error_without_cause :
  let r := Streaming.retry_target_generator
             (Scenarios.gen_env Scenarios.streams_exhausting)
             Scenarios.if_app_error Scenarios.every_second (Some 10%Q) None 20
             Scenarios.iterating in
  fst r = Streaming.Raise (RetryError (Some 10%Q) None) /\
  Streaming.last_exc (snd r) = Some (AppError 1) /\
  Streaming.yields (Streaming.trace (snd r)) = [1%nat] /\
  Streaming.trace (snd r) =
    [Streaming.EvAclose 1%nat; Streaming.EvYield 1%nat;
     Streaming.EvAsend 1%nat None (Some 6%Q); Streaming.EvOpen 1%nat;
     Streaming.EvSleep 1%Q; Streaming.EvAclose 0%nat;
     Streaming.EvAsend 0%nat None (Some 10%Q); Streaming.EvOpen 0%nat].
Proof. vm_compute. repeat split; reflexivity. Qed.

(** C6 fails on the code when the run has no timeout, the default of
    [retry_target_generator]: the streams that yield 1, 2 and then 3
    are opened once and never pulled, and the run raises [TypeError].
    With a timeout of ten seconds the same streams give 1, 2, 3, and the
    first is closed before the second is opened. *)
Theorem stream_restart_needs_budget :
  let r := Streaming.retry_target_generator
             (Scenarios.gen_env Scenarios.streams_12_3)
             Scenarios.if_app_error Scenarios.every_second None None 20
             Scenarios.iterating in
  let r10 := Streaming.retry_target_generator
             (Scenarios.gen_env Scenarios.streams_12_3)
             Scenarios.if_app_error Scenarios.every_second (Some 10%Q) None 20
             Scenarios.iterating in
  (fst r = Streaming.Raise TypeError /\
   Streaming.yields (Streaming.trace (snd r)) = [] /\
   Streaming.trace (snd r) = [Streaming.EvAclose 0%nat; Streaming.EvOpen 0%nat]) /\
  (fst r10 = Streaming.Return /\
   Streaming.yields (Streaming.trace (snd r10)) = [1%nat; 2%nat; 3%nat] /\
   Streaming.trace (snd r10) =
     [Streaming.EvAclose 1%nat; Streaming.EvAsend 1%nat None (Some 5%Q);
      Streaming.EvYield 3%nat; Streaming.EvAsend 1%nat None (Some 6%Q);
      Streaming.EvOpen 1%nat; Streaming.EvSleep 1%Q; Streaming.EvAclose 0%nat;
      Streaming.EvAsend 0%nat None (Some 8%Q); Streaming.EvYield 2%nat;
      Streaming.EvAsend 0%nat None (Some 9%Q); Streaming.EvYield 1%nat;
      Streaming.EvAsend 0%nat None (Some 10%Q); Streaming.EvOpen 0%nat]).
Proof. vm_compute. repeat split; reflexivity. Qed.

(** C4, as stated, fails.  The consumer throws [AppError 5] at the
    first value; the stream re-raises it; the classifier accepts
    application errors, so the wrapper catches what the stream raised,
    sleeps, opens a second stream and the run ends normally after
    yielding its value. *)
Lemma injected_error_retried :
  let r := Streaming.retry_target_generator
             (Scenarios.gen_env Scenarios.streams_12_3)
             Scenarios.if_app_error Scenarios.every_second (Some 10%Q) None 20
             Scenarios.injecting in
  fst r = Streaming.Return /\
  fst r <> Streaming.Raise (AppError 5) /\
  Streaming.last_exc (snd r) = Some (AppError 5) /\
  Streaming.yields (Streaming.trace (snd r)) = [1%nat; 3%nat] /\
  Streaming.trace (snd r) =
    [Streaming.EvAclose 1%nat; Streaming.EvAsend 1%nat None (Some 6%Q);
     Streaming.EvYield 3%nat; Streaming.EvAsend 1%nat None (Some 7%Q);
     Streaming.EvOpen 1%nat; Streaming.EvSleep 1%Q; Streaming.EvAclose 0%nat;
     Streaming.EvAthrow 0%nat (AppError 5); Streaming.EvYield 1%nat;
     Streaming.EvAsend 0%nat None (Some 10%Q); Streaming.EvOpen 0%nat].
Proof. vm_compute. repeat split; try reflexivity. discriminate. Qed.

(** C4, as amended.  At any round of the forwarding loop, with the
    stream [g] active and no [aclose()] of the consumer under way:
    when the pull yields [v], the consumer throws
    [e] at it, and [g.athrow(e)] raises [e'], the loop is left by [e']
    after [e] was thrown into [g].  The [try] statement then treats
    [e'] as any failure of the stream, and closes [g]: exhaustion ends
    the run normally; an error the classifier rejects (and that is
    not a timeout), or one that is neither an [Exception] nor a
    cancellation, is raised unchanged; an error taken as retryable is
    recorded as last error and the statement falls through to the
    backoff. *)
Theorem injected_error_forwarded_then_classified (W H V : Type)
    (E : Streaming.env W H V) (predicate : exn -> bool)
    (timeout_arg : option Q) (kw_deadline : option (option Q))
    fuel g sent s r t w1 v w2 t' w3 e w4 e' w5 :
  Streaming.closing (Streaming.trace s) = false ->
  Streaming.subgenerator s = Some g ->
  Streaming.remaining_timeout_budget s = Some r ->
  (0 < r)%Q ->
  Streaming.utcnow E (Streaming.world s) = (t, w1) ->
  Streaming.asend E g sent (Streaming.pull_bound timeout_arg kw_deadline (Some r)) w1
    = (inr v, w2) ->
  Streaming.utcnow E w2 = (t', w3) ->
  Streaming.consumer E v w3 = (Streaming.Throw e, w4) ->
  is_GeneratorExit e = false ->
  Streaming.athrow E g e w4 = (inl e', w5) ->
  let tr := Streaming.EvAthrow g e :: Streaming.EvYield v ::
            Streaming.EvAsend g sent
              (Streaming.pull_bound timeout_arg kw_deadline (Some r)) ::
            Streaming.trace s in
  let b := (r - (t' - t))%Q in
  let body := Streaming.forward E timeout_arg kw_deadline (S fuel) g sent in
  body s = (Streaming.Raise e',
            Streaming.mkState w5 tr (Streaming.last_exc s) (Some g) (Some b) (Some t)) /\
  (forall w6, Streaming.aclose E g w5 = (None, w6) ->
     (is_StopAsyncIteration e' = true ->
      Streaming.try_statement E predicate body s
      = (Streaming.Return,
         Streaming.mkState w6 (Streaming.EvAclose g :: tr) (Streaming.last_exc s)
           (Some g) (Some b) (Some t))) /\
     (is_StopAsyncIteration e' = false ->
      is_Exception e' || is_CancelledError e' = false \/
      predicate e' || is_TimeoutError e' = false ->
      Streaming.try_statement E predicate body s
      = (Streaming.Raise e',
         Streaming.mkState w6 (Streaming.EvAclose g :: tr) (Streaming.last_exc s)
           (Some g) (Some b) (Some t)))) /\
  (forall t'' w6 w7,
     is_StopAsyncIteration e' = false ->
     is_Exception e' || is_CancelledError e' = true ->
     predicate e' || is_TimeoutError e' = true ->
     Streaming.utcnow E w5 = (t'', w6) ->
     Streaming.aclose E g w6 = (None, w7) ->
     Streaming.try_statement E predicate body s
     = (Streaming.Normal tt,
        Streaming.mkState w7 (Streaming.EvAclose g :: tr) (Some e') (Some g)
          (Some (b - (t'' - t))%Q) (Some t))).
Proof.
  intros Hcl Hg Hb Hr Hnow Hpull Hnow' Hcons Hge Hthrow tr b body.
  assert (Hbody : body s = (Streaming.Raise e',
            Streaming.mkState w5 tr (Streaming.last_exc s) (Some g) (Some b) (Some t))).
  { subst body tr b. rewrite <- Hg. eapply forward_injection; eassumption. }
  split; [exact Hbody|]. split.
  - intros w6 Hclose. split.
    + intros Hstop. rewrite (@try_statement_raise _ _ _ E predicate _ _ _ _ Hbody).
      unfold Streaming.dispatch. rewrite Hstop.
      unfold Streaming.gen_return, Streaming.finally_, Streaming.await_aclose.
      cbn. rewrite Hclose. reflexivity.
    + intros Hstop Hfatal. rewrite (@try_statement_raise _ _ _ E predicate _ _ _ _ Hbody).
      unfold Streaming.dispatch, Streaming.handle. rewrite Hstop.
      destruct Hfatal as [Hbase | Hrej].
      * rewrite Hbase.
        unfold Streaming.raise, Streaming.finally_, Streaming.await_aclose.
        cbn. rewrite Hclose. reflexivity.
      * replace (negb (predicate e') && negb (is_TimeoutError e')) with true
          by (rewrite <- negb_orb, Hrej; reflexivity).
        destruct (is_Exception e' || is_CancelledError e');
          unfold Streaming.raise, Streaming.finally_, Streaming.await_aclose;
          cbn; rewrite Hclose; reflexivity.
  - intros t'' w6 w7 Hstop Hex Hacc Hnow'' Hclose.
    rewrite (@try_statement_raise _ _ _ E predicate _ _ _ _ Hbody).
    unfold Streaming.dispatch, Streaming.handle. rewrite Hstop, Hex.
    replace (negb (predicate e') && negb (is_TimeoutError e')) with false
      by (rewrite <- negb_orb, Hacc; reflexivity).
    unfold Streaming.bind, Streaming.set_last_exc, Streaming.charge_elapsed,
      Streaming.bind, Streaming.get_budget, Streaming.now_,
      Streaming.read_start_timestamp, Streaming.set_budget,
      Streaming.finally_, Streaming.await_aclose, Streaming.log,
      Streaming.with_world.
    cbn -[Qminus]. rewrite Hnow''. cbn -[Qminus]. rewrite Hclose. reflexivity.
Qed.

(** The theorem on the first round of the first stream of the run
    above: the error the stream raises back is taken as retryable. *)
Lemma injected_error_forwarded_then_classified_witness :
  let E := Scenarios.gen_env Scenarios.streams_12_3 in
  let s := Streaming.mkState
             (Scenarios.mkGenWorld 0 1 0 [Streaming.Throw (AppError 5)])
             [Streaming.EvOpen 0%nat] None (Some 0%nat) (Some 10%Q) None in
  let body := Streaming.forward E (Some 10%Q) None 5 0%nat None in
  fst (body s) = Streaming.Raise (AppError 5) /\
  fst (Streaming.try_statement E Scenarios.if_app_error body s)
  = Streaming.Normal tt /\
  Streaming.last_exc (snd (Streaming.try_statement E Scenarios.if_app_error body s))
  = Some (AppError 5).
Proof.
  intros E s body.
  pose (wa := Scenarios.mkGenWorld 0 1 0 [Streaming.Throw (AppError 5)]).
  pose (wb := Scenarios.mkGenWorld 1 1 1 [Streaming.Throw (AppError 5)]).
  pose (wc := Scenarios.mkGenWorld 1 1 1 []).
  destruct (@injected_error_forwarded_then_classified _ _ _ E
              Scenarios.if_app_error (Some 10%Q) None 4%nat 0%nat None s
              10%Q 0%Q wa 1%nat wb 1%Q wb (AppError 5) wc (AppError 5) wc
              eq_refl eq_refl eq_refl eq_refl eq_refl eq_refl eq_refl eq_refl
              eq_refl eq_refl) as [Hbody [_ Hretry]].
  split.
  - subst body. rewrite Hbody. reflexivity.
  - subst body.
    rewrite (Hretry 1%Q wc wc eq_refl eq_refl eq_refl eq_refl eq_refl).
    split; reflexivity.
Defined.

(** C3, as stated, fails on the single-shot executor.  Timeout ten
    seconds, backoff one second: the first attempt fails after nine and
    a half.  Half a second is left, which is less than the backoff, yet
    the run does not fail there: it sleeps the half second and makes a
    second attempt, whose timeout is what the final error chains. *)
Lemma single_shot_sleeps_clipped :
  let r := SingleShot.retry_target Scenarios.op_env Scenarios.if_app_error
             Scenarios.every_second (Some 10%Q) 5 Scenarios.op_late_failure in
  (10 - (19 # 2) <= 1)%Q /\
  SingleShot.next_sleep (Some 10%Q) (Some 10%Q) (19 # 2)%Q 1%Q (Some (AppError 1))
  = inr (1 # 2)%Q /\
  SingleShot.sleeps (SingleShot.trace r) = [(1 # 2)%Q] /\
  SingleShot.attempts (SingleShot.trace r) = 2%nat /\
  SingleShot.result r = SingleShot.Raised (RetryError (Some 10%Q) (Some TimeoutError)).
Proof.
  split; [discriminate|]. vm_compute. repeat split; reflexivity.
Qed.

(** C3, as amended.  After an attempt that failed with an error taken
    as retryable and a hook that did not raise, with a timeout
    configured.  Streaming executor, remaining budget [r], backoff
    [sleep]: an error is recorded; if [r <= sleep] the run ends with a
    deadline-exceeded error that chains it, without sleeping;
    otherwise it sleeps [sleep], which is less than [r], and goes on.
    Single-shot executor, deadline [d], clock [now]: if [d <= now] the
    run ends with a deadline-exceeded error that chains the error of
    the attempt, without sleeping; otherwise it sleeps the smaller of
    [d - now] and [sleep], which ends no later than [d], and goes on. *)
Theorem backoff_within_budget :
  (forall (W H V : Type) (E : Streaming.env W H V) (predicate : exn -> bool)
      (sleep_generator : nat -> option Q) (timeout_arg : option Q)
      (kw_deadline : option (option Q)) fuel i s sleep s1 s2 r,
      sleep_generator i = Some sleep ->
      Streaming.attempt E predicate timeout_arg kw_deadline fuel s
        = (Streaming.Normal tt, s1) ->
      Streaming.report_error E s1 = (Streaming.Normal tt, s2) ->
      Streaming.remaining_timeout_budget s2 = Some r ->
      (exists e, Streaming.last_exc s2 = Some e) /\
      ((r <= sleep)%Q ->
       Streaming.retry_loop E predicate sleep_generator timeout_arg kw_deadline
         (S fuel) i s
       = (Streaming.Raise
            (RetryError (Streaming.timeout timeout_arg kw_deadline)
               (Streaming.last_exc s2)), s2)) /\
      ((sleep < r)%Q ->
       Streaming.retry_loop E predicate sleep_generator timeout_arg kw_deadline
         (S fuel) i s
       = Streaming.retry_loop E predicate sleep_generator timeout_arg kw_deadline
           fuel (S i)
           (Streaming.mkState (Streaming.asleep E sleep (Streaming.world s2))
              (Streaming.EvSleep sleep :: Streaming.trace s2)
              (Streaming.last_exc s2) (Streaming.subgenerator s2)
              (Some (r - sleep)%Q) (Streaming.start_timestamp s2)))) /\
  (forall (W V : Type) (E : SingleShot.env W V) (predicate : exn -> bool)
      (sleep_generator : nat -> option Q) (timeout : option Q)
      fuel i d last tr w sleep bound w1 exc w2 tr2 w3 now w4,
      sleep_generator i = Some sleep ->
      SingleShot.attempt_bound E (Some d) w = (bound, w1) ->
      SingleShot.target E bound w1 = (inl exc, w2) ->
      is_Exception exc = true ->
      predicate exc || is_TimeoutError exc = true ->
      SingleShot.call_on_error E exc (SingleShot.EvCall bound :: tr) w2
        = (None, tr2, w3) ->
      SingleShot.utcnow E w3 = (now, w4) ->
      ((d <= now)%Q ->
       SingleShot.retry_loop E predicate sleep_generator timeout (S fuel) i
         (Some d) last tr w
       = SingleShot.mkRun (SingleShot.Raised (RetryError timeout (Some exc))) tr2 w4) /\
      ((now < d)%Q ->
       (now + min (d - now) sleep <= d)%Q /\
       SingleShot.retry_loop E predicate sleep_generator timeout (S fuel) i
         (Some d) last tr w
       = SingleShot.retry_loop E predicate sleep_generator timeout fuel (S i)
           (Some d) (Some exc)
           (SingleShot.EvSleep (min (d - now) sleep) :: tr2)
           (SingleShot.asleep E (min (d - now) sleep) w4))).
Proof.
  split.
  - intros W H V E predicate sleep_generator timeout_arg kw_deadline
      fuel i s sleep s1 s2 r Hs Ha Hr Hb.
    pose proof (@retry_loop_backoff _ _ _ _ _ _ _ _ _ _ _ _ _ _ _ Hs Ha Hr Hb) as Hstep.
    split; [|split].
    + destruct (@attempt_normal_last_exc _ _ _ _ _ _ _ _ _ _ Ha) as [e He].
      exists e. rewrite (@report_error_last_exc _ _ _ _ _ _ _ Hr). exact He.
    + intros Hle. apply le_true_iff in Hle. rewrite Hstep, Hle. reflexivity.
    + intros Hlt. apply le_false_iff in Hlt. rewrite Hstep, Hlt. reflexivity.
  - intros W V E predicate sleep_generator timeout
      fuel i d last tr w sleep bound w1 exc w2 tr2 w3 now w4
      Hs Hb Ht Hex Hacc Hoe Hnow.
    pose proof (@retry_loop_retryable W V E predicate sleep_generator timeout
                  fuel i (Some d) last tr w sleep bound w1 exc w2 tr2 w3 now w4
                  Hs Hb Ht Hex Hacc Hoe Hnow) as Hstep.
    unfold SingleShot.next_sleep in Hstep. split.
    + intros Hle. apply le_true_iff in Hle. rewrite Hstep, Hle. reflexivity.
    + intros Hlt. split.
      * pose proof (min_le_first (d - now) sleep) as Hmin. lra.
      * apply le_false_iff in Hlt. rewrite Hstep, Hlt. reflexivity.
Qed.

(** The theorem on a stream and on an operation that fail after nine
    and a half of ten seconds, with a backoff of one second: the
    streaming run ends there with a deadline-exceeded error that chains
    the failure, the single-shot run sleeps the half second left. *)
Lemma backoff_within_budget_witness :
  fst (Streaming.retry_target_generator
         (Scenarios.gen_env Scenarios.streams_late_failure)
         Scenarios.if_app_error Scenarios.every_second (Some 10%Q) None 5
         Scenarios.iterating)
  = Streaming.Raise (RetryError (Some 10%Q) (Some (AppError 1))) /\
  SingleShot.sleeps (SingleShot.trace
    (SingleShot.retry_loop Scenarios.op_env Scenarios.if_app_error
       Scenarios.every_second (Some 10%Q) 5 0 (Some 10%Q) None []
       Scenarios.op_late_failure)) = [(1 # 2)%Q].
Proof.
  split.
  - pose (s1 := Scenarios.late_failure_state).
    destruct (proj1 backoff_within_budget _ _ _
                (Scenarios.gen_env Scenarios.streams_late_failure)
                Scenarios.if_app_error Scenarios.every_second (Some 10%Q) None
                4%nat 0%nat
                (@Streaming.initial_state _ nat nat (Some 10%Q) None Scenarios.iterating)
                1%Q s1 s1 (1 # 2)%Q eq_refl eq_refl eq_refl eq_refl)
      as [_ [Hfail _]].
    unfold Streaming.retry_target_generator.
    rewrite (Hfail ltac:(discriminate)). reflexivity.
  - pose (w2 := Scenarios.mkOpWorld (19 # 2) [((1 # 4)%Q, inr 7%nat)]).
    destruct (proj2 backoff_within_budget _ _ Scenarios.op_env
                Scenarios.if_app_error Scenarios.every_second (Some 10%Q)
                4%nat 0%nat 10%Q None [] Scenarios.op_late_failure 1%Q
                (Some 10%Q) Scenarios.op_late_failure (AppError 1) w2
                [SingleShot.EvCall (Some 10%Q)] w2 (19 # 2)%Q w2
                eq_refl eq_refl eq_refl eq_refl eq_refl eq_refl eq_refl)
      as [_ Hsleep].
    destruct (Hsleep eq_refl) as [_ Hloop].
    rewrite Hloop. reflexivity.
Defined.

(** ** Further properties of the single-shot executor *)

Section SingleShotAccounting.

Import SingleShot Accounting.

Variables W V : Type.
Variable E : env W V.
Variable predicate : exn -> bool.
Variable sleep_generator : nat -> option Q.
Variable timeout : option Q.

Abbreviation loop := (retry_loop E predicate sleep_generator timeout).

Lemma sleeps_cons_sleep d tr : sleeps (EvSleep d :: tr) = sleeps tr ++ [d].
Proof. reflexivity. Qed.

Lemma sleeps_cons_call b tr : sleeps (EvCall b :: tr) = sleeps tr.
Proof. reflexivity. Qed.

Lemma sleeps_cons_hook e tr : sleeps (EvOnError e :: tr) = sleeps tr.
Proof. reflexivity. Qed.

Lemma bounds_cons_call b tr : bounds (EvCall b :: tr) = bounds tr ++ [b].
Proof. reflexivity. Qed.

Lemma bounds_cons_sleep d tr : bounds (EvSleep d :: tr) = bounds tr.
Proof. reflexivity. Qed.

Lemma bounds_cons_hook e tr : bounds (EvOnError e :: tr) = bounds tr.
Proof. reflexivity. Qed.

Lemma attempts_cons_call b tr : attempts (EvCall b :: tr) = S (attempts tr).
Proof. reflexivity. Qed.

Lemma attempts_cons_sleep d tr : attempts (EvSleep d :: tr) = attempts tr.
Proof. reflexivity. Qed.

Lemma attempts_cons_hook e tr : attempts (EvOnError e :: tr) = attempts tr.
Proof. reflexivity. Qed.

Lemma hook_calls_cons_call b tr : hook_calls (EvCall b :: tr) = hook_calls tr.
Proof. reflexivity. Qed.

Lemma hook_calls_cons_sleep d tr : hook_calls (EvSleep d :: tr) = hook_calls tr.
Proof. reflexivity. Qed.

Lemma hook_calls_cons_hook e tr : hook_calls (EvOnError e :: tr) = S (hook_calls tr).
Proof. reflexivity. Qed.

(** What the hook adds to a trace: one call if there is a hook. *)
Lemma call_on_error_trace exc tr w r tr2 w3 :
call_on_error E exc tr w = (r, tr2, w3) ->
sleeps tr2 = sleeps tr /\ attempts tr2 = attempts tr /\ bounds tr2 = bounds tr /\
exists h, hook_calls tr2 = (hook_calls tr + h)%nat /\
          (on_error E = None -> h = 0%nat) /\
          (on_error E <> None -> h = 1%nat).
Proof.
unfold call_on_error. destruct (on_error E) as [hook|].
- destruct (hook exc w) as [r' w']. intros Heq. inversion Heq; subst.
  rewrite sleeps_cons_hook, bounds_cons_hook, attempts_cons_hook,
    hook_calls_cons_hook.
  repeat split. exists 1%nat. repeat split; try lia. discriminate.
- intros Heq. inversion Heq; subst. repeat split.
  exists 0%nat. repeat split; try lia. intros Hn; contradiction Hn; reflexivity.
Qed.

Ltac count_events :=
cbn [trace result];
rewrite ?sleeps_cons_sleep, ?sleeps_cons_call, ?sleeps_cons_hook,
  ?attempts_cons_sleep, ?attempts_cons_call, ?attempts_cons_hook,
  ?hook_calls_cons_sleep, ?hook_calls_cons_call, ?hook_calls_cons_hook,
  ?length_app;
cbn [length].

(** Attempts, hook calls and sleeps of the loop: [k] rounds of
  attempt, hook and sleep, then possibly one more attempt and hook
  call. *)
Lemma retry_loop_counts fuel : forall i dl last tr w,
let r := loop fuel i dl last tr w in
exists k a h,
  length (sleeps (trace r)) = (length (sleeps tr) + k)%nat /\
  attempts (trace r) = (attempts tr + k + a)%nat /\
  hook_calls (trace r) = (hook_calls tr + h)%nat /\
  (a <= 1)%nat /\
  (forall v, result r = Returned v -> a = 1%nat) /\
  (on_error E = None -> h = 0%nat) /\
  (on_error E <> None -> (k <= h <= k + a)%nat).
Proof.
induction fuel as [|fuel IH]; intros i dl last tr w; cbn [retry_loop].
- exists 0%nat, 0%nat, 0%nat. count_events.
  repeat split; intros; try discriminate; lia.
- destruct (sleep_generator i) as [sleep|].
  2:{ exists 0%nat, 0%nat, 0%nat. count_events.
      repeat split; intros; try discriminate; lia. }
  destruct (attempt_bound E dl w) as [bound w1].
  destruct (target E bound w1) as [[exc|v] w2].
  2:{ exists 0%nat, 1%nat, 0%nat. count_events.
      repeat split; intros; try discriminate; lia. }
  destruct (is_Exception exc); cbn [negb].
  2:{ exists 0%nat, 1%nat, 0%nat. count_events.
      repeat split; intros; try discriminate; lia. }
  destruct (negb (predicate exc) && negb (is_TimeoutError exc)).
  { exists 0%nat, 1%nat, 0%nat. count_events.
    repeat split; intros; try discriminate; lia. }
  destruct (call_on_error E exc (EvCall bound :: tr) w2) as [[r tr2] w3] eqn:Hoe.
  destruct (call_on_error_trace _ _ _ Hoe) as (Hs & Ha & _ & h0 & Hh0 & Hh0n & Hh0y).
  rewrite sleeps_cons_call in Hs. rewrite attempts_cons_call in Ha.
  rewrite hook_calls_cons_call in Hh0.
  destruct r as [e'|].
  { exists 0%nat, 1%nat, h0. count_events. rewrite Hs, Ha, Hh0.
    repeat split; intros; try discriminate; auto; try lia.
    all: match goal with Hc : on_error E <> None |- _ => specialize (Hh0y Hc) end; lia. }
  destruct (utcnow E w3) as [now w4].
  destruct (next_sleep timeout dl now sleep (Some exc)) as [e|d].
  { exists 0%nat, 1%nat, h0. count_events. rewrite Hs, Ha, Hh0.
    repeat split; intros; try discriminate; auto; try lia.
    all: match goal with Hc : on_error E <> None |- _ => specialize (Hh0y Hc) end; lia. }
  specialize (IH (S i) dl (Some exc) (EvSleep d :: tr2) (asleep E d w4)).
  cbn zeta in IH.
  destruct IH as (k & a & h & Hk & Hat & Hhk & Hle & Hret & Hnone & Hsome).
  revert Hk Hat Hhk. count_events. rewrite Hs, Ha, Hh0. intros Hk Hat Hhk.
  exists (S k), a, (h0 + h)%nat.
  repeat split; intros; auto; try lia.
  all: try (eapply Hret; eassumption).
  all: try match goal with
           | Hc : on_error E = None |- _ =>
               rewrite (Hnone Hc), (Hh0n Hc); reflexivity
           end.
  all: match goal with
       | Hc : on_error E <> None |- _ =>
           specialize (Hsome Hc); specialize (Hh0y Hc); lia
       end.
Qed.

(** The sleeps of the loop are, one by one, at most the values of the
  sleep generator, and exactly those when there is no deadline; and
  without a deadline no attempt is bounded. *)
Lemma retry_loop_sleeps fuel : forall i dl last tr w,
let r := loop fuel i dl last tr w in
exists l bs,
  sleeps (trace r) = sleeps tr ++ l /\
  bounds (trace r) = bounds tr ++ bs /\
  Forall2 Qle l (backoff sleep_generator i (length l)) /\
  (dl = None -> l = backoff sleep_generator i (length l) /\
                Forall (fun b => b = None) bs).
Proof.
induction fuel as [|fuel IH]; intros i dl last tr w; cbn [retry_loop].
- exists [], []. cbn [trace]. rewrite !app_nil_r. repeat split; constructor.
- destruct (sleep_generator i) as [sleep|] eqn:Hsg.
  2:{ exists [], []. cbn [trace]. rewrite !app_nil_r. repeat split; constructor. }
  destruct (attempt_bound E dl w) as [bound w1] eqn:Hb.
  assert (Hbound : dl = None -> bound = None).
  { intros ->. cbn in Hb. congruence. }
  assert (Hstop : forall tr', bounds tr' = bounds tr ++ [bound] ->
            sleeps tr' = sleeps tr ->
            exists l bs, sleeps tr' = sleeps tr ++ l /\
              bounds tr' = bounds tr ++ bs /\
              Forall2 Qle l (backoff sleep_generator i (length l)) /\
              (dl = None -> l = backoff sleep_generator i (length l) /\
                            Forall (fun b => b = None) bs)).
  { intros tr' Hbs Hsl. exists [], [bound]. rewrite Hsl, app_nil_r.
    repeat split; auto; try constructor; auto. }
  destruct (target E bound w1) as [[exc|v] w2].
  2:{ apply Hstop; reflexivity. }
  destruct (is_Exception exc); cbn [negb].
  2:{ apply Hstop; reflexivity. }
  destruct (negb (predicate exc) && negb (is_TimeoutError exc)).
  { apply Hstop; reflexivity. }
  destruct (call_on_error E exc (EvCall bound :: tr) w2) as [[r tr2] w3] eqn:Hoe.
  destruct (call_on_error_trace _ _ _ Hoe) as (Hs & _ & Hbs & _).
  rewrite sleeps_cons_call in Hs. rewrite bounds_cons_call in Hbs.
  destruct r as [e'|].
  { apply Hstop; assumption. }
  destruct (utcnow E w3) as [now w4].
  destruct (next_sleep timeout dl now sleep (Some exc)) as [e|d] eqn:Hnext.
  { apply Hstop; assumption. }
  assert (Hd : (d <= sleep)%Q /\ (dl = None -> d = sleep)).
  { unfold next_sleep in Hnext. destruct dl as [dd|].
    - destruct (le dd now); [discriminate|]. inversion Hnext; subst.
      split; [apply min_le_second | discriminate].
    - inversion Hnext; subst. split; [apply Qle_refl | reflexivity]. }
  specialize (IH (S i) dl (Some exc) (EvSleep d :: tr2) (asleep E d w4)).
  cbn zeta in IH. destruct IH as (l & bs & Hl & Hbl & Hle & Hnone).
  rewrite sleeps_cons_sleep, Hs in Hl. rewrite bounds_cons_sleep, Hbs in Hbl.
  exists (d :: l), (bound :: bs).
  rewrite Hl, Hbl, <- !app_assoc. cbn [app length backoff]. rewrite Hsg.
  repeat split.
  + constructor; [apply Hd | exact Hle].
  + destruct (Hnone H) as [Heq _]. rewrite <- Heq.
    rewrite (proj2 Hd H). reflexivity.
  + constructor; [auto | apply (Hnone H)].
Qed.

(** A sleep generator that stops at its [n]-th value allows no more
  than [n] attempts, and the loop ends within [n] rounds. *)
Lemma retry_loop_finite n fuel : forall i dl last tr w,
sleep_generator n = None ->
(i <= n)%nat ->
let r := loop fuel i dl last tr w in
(attempts (trace r) <= attempts tr + (n - i))%nat /\
((n - i < fuel)%nat -> result r <> OutOfFuel).
Proof.
induction fuel as [|fuel IH]; intros i dl last tr w Hn Hi; cbn [retry_loop].
- cbn [trace result]. split; [lia | intros; lia].
- destruct (sleep_generator i) as [sleep|] eqn:Hsg.
  2:{ cbn [trace result]. split; [lia | intros; discriminate]. }
  assert (Hlt : (i < n)%nat).
  { destruct (Nat.eq_dec i n) as [->|]; [congruence | lia]. }
  destruct (attempt_bound E dl w) as [bound w1].
  destruct (target E bound w1) as [[exc|v] w2].
  2:{ count_events. split; [lia | intros; discriminate]. }
  destruct (is_Exception exc); cbn [negb].
  2:{ count_events. split; [lia | intros; discriminate]. }
  destruct (negb (predicate exc) && negb (is_TimeoutError exc)).
  { count_events. split; [lia | intros; discriminate]. }
  destruct (call_on_error E exc (EvCall bound :: tr) w2) as [[r tr2] w3] eqn:Hoe.
  destruct (call_on_error_trace _ _ _ Hoe) as (_ & Ha & _).
  rewrite attempts_cons_call in Ha.
  destruct r as [e'|].
  { count_events. rewrite Ha. split; [lia | intros; discriminate]. }
  destruct (utcnow E w3) as [now w4].
  destruct (next_sleep timeout dl now sleep (Some exc)) as [e|d].
  { count_events. rewrite Ha. split; [lia | intros; discriminate]. }
  specialize (IH (S i) dl (Some exc) (EvSleep d :: tr2) (asleep E d w4) Hn Hlt).
  cbn zeta in IH. destruct IH as [Hat Hend].
  rewrite attempts_cons_sleep, Ha in Hat.
  split; [lia | intros; apply Hend; lia].
Qed.

(** An error that is not an [Exception] leaves the loop whatever the
  classifier says of it. *)
Lemma retry_loop_base_exception fuel i dl last tr w s bound w1 e w2 :
sleep_generator i = Some s ->
attempt_bound E dl w = (bound, w1) ->
target E bound w1 = (inl e, w2) ->
is_Exception e = false ->
loop (S fuel) i dl last tr w = mkRun (Raised e) (EvCall bound :: tr) w2.
Proof.
intros Hs Hb Ht He. cbn [retry_loop]. rewrite Hs, Hb, Ht, He. reflexivity.
Qed.

End SingleShotAccounting.

(** X1.  In every single-shot run there is one sleep between two
    attempts and none after the last: the attempts are as many as the
    sleeps or one more, and one more when the run returns a value.
    Without a hook nothing is reported; with a hook it is called once
    for each error before the sleep that follows it, so at least as
    often as the run sleeps and at most as often as it attempts. *)
Theorem attempts_sleeps_hook_accounting (W V : Type) (E : SingleShot.env W V)
    (predicate : exn -> bool) (sleep_generator : nat -> option Q)
    (timeout : option Q) (fuel : nat) (w : W) :
  let r := SingleShot.retry_target E predicate sleep_generator timeout fuel w in
  let s := length (SingleShot.sleeps (SingleShot.trace r)) in
  let a := SingleShot.attempts (SingleShot.trace r) in
  let h := Accounting.hook_calls (SingleShot.trace r) in
  (s <= a <= s + 1)%nat /\
  (forall v, SingleShot.result r = SingleShot.Returned v -> a = (s + 1)%nat) /\
  (SingleShot.on_error E = None -> h = 0%nat) /\
  (SingleShot.on_error E <> None -> (s <= h <= a)%nat).
Proof.
  intros r s a h. subst r s a h. unfold SingleShot.retry_target.
  destruct (SingleShot.init_deadline E timeout w) as [dl w1].
  destruct (@retry_loop_counts W V E predicate sleep_generator timeout fuel
              0%nat dl None [] w1) as (k & a & h & Hk & Ha & Hh & Hle & Hret & Hn & Hy).
  cbn in Hk, Ha, Hh. rewrite Hk, Ha, Hh.
  repeat split; try lia.
  - intros v Hv. rewrite (Hret v Hv). lia.
  - exact Hn.
  - specialize (Hy H). lia.
  - specialize (Hy H). lia.
Qed.

(** X2.  With no timeout ([None] or zero) no attempt of a single-shot
    run is put under a bound, and the run sleeps exactly the values of
    the sleep generator, in order. *)
Theorem no_timeout_exact_backoff (W V : Type) (E : SingleShot.env W V)
    (predicate : exn -> bool) (sleep_generator : nat -> option Q)
    (timeout : option Q) (fuel : nat) (w : W) :
  truthy_opt timeout = false ->
  let r := SingleShot.retry_target E predicate sleep_generator timeout fuel w in
  Forall (fun b => b = None) (Accounting.bounds (SingleShot.trace r)) /\
  SingleShot.sleeps (SingleShot.trace r)
  = Accounting.backoff sleep_generator 0
      (length (SingleShot.sleeps (SingleShot.trace r))).
Proof.
  intros Ht r. subst r. unfold SingleShot.retry_target.
  assert (Hd : SingleShot.init_deadline E timeout w = (None, w)).
  { unfold SingleShot.init_deadline. destruct timeout as [t|]; [|reflexivity].
    cbn in Ht. rewrite Ht. reflexivity. }
  rewrite Hd.
  destruct (@retry_loop_sleeps W V E predicate sleep_generator timeout fuel
              0%nat None None [] w) as (l & bs & Hl & Hb & _ & Hnone).
  cbn in Hl, Hb. destruct (Hnone eq_refl) as [Heq Hall].
  rewrite Hl, Hb. split; [exact Hall | exact Heq].
Qed.

(** The theorem on an operation that fails twice and then returns,
    under a doubling backoff and no timeout: the run sleeps one and
    then two seconds. *)
Lemma no_timeout_exact_backoff_witness :
  truthy_opt None = false /\
  SingleShot.sleeps (SingleShot.trace
    (SingleShot.retry_target Scenarios.op_env Scenarios.if_app_error
       Scenarios.doubling None 5 Scenarios.op_third_time))
  = [1%Q; 2%Q].
Proof.
  split; [reflexivity|].
  rewrite (proj2 (@no_timeout_exact_backoff _ _ Scenarios.op_env
             Scenarios.if_app_error Scenarios.doubling None 5%nat
             Scenarios.op_third_time eq_refl)).
  reflexivity.
Defined.

(** X3.  With or without a timeout, the n-th sleep of a single-shot run
    is no longer than the n-th value of the sleep generator. *)
Theorem sleeps_at_most_backoff (W V : Type) (E : SingleShot.env W V)
    (predicate : exn -> bool) (sleep_generator : nat -> option Q)
    (timeout : option Q) (fuel : nat) (w : W) :
  let r := SingleShot.retry_target E predicate sleep_generator timeout fuel w in
  Forall2 Qle (SingleShot.sleeps (SingleShot.trace r))
    (Accounting.backoff sleep_generator 0
       (length (SingleShot.sleeps (SingleShot.trace r)))).
Proof.
  intros r. subst r. unfold SingleShot.retry_target.
  destruct (SingleShot.init_deadline E timeout w) as [dl w1].
  destruct (@retry_loop_sleeps W V E predicate sleep_generator timeout fuel
              0%nat dl None [] w1) as (l & bs & Hl & _ & Hle & _).
  cbn in Hl. rewrite Hl. exact Hle.
Qed.

(** X4.  When the sleep generator stops at its [n]-th value, a
    single-shot run makes at most [n] attempts and ends: with more
    fuel than [n] it is never cut short. *)
Theorem finite_backoff_bounds_attempts (W V : Type) (E : SingleShot.env W V)
    (predicate : exn -> bool) (sleep_generator : nat -> option Q)
    (timeout : option Q) (n fuel : nat) (w : W) :
  sleep_generator n = None ->
  let r := SingleShot.retry_target E predicate sleep_generator timeout fuel w in
  (SingleShot.attempts (SingleShot.trace r) <= n)%nat /\
  ((n < fuel)%nat -> SingleShot.result r <> SingleShot.OutOfFuel).
Proof.
  intros Hn r. subst r. unfold SingleShot.retry_target.
  destruct (SingleShot.init_deadline E timeout w) as [dl w1].
  destruct (@retry_loop_finite W V E predicate sleep_generator timeout n fuel
              0%nat dl None [] w1 Hn (Nat.le_0_l n)) as [Ha Hend].
  cbn in Ha. split; [lia | intros; apply Hend; lia].
Qed.

(** The theorem on an operation that keeps failing, under a backoff of
    two values: the run makes two attempts and ends with the error of
    the exhausted sleep generator. *)
Lemma finite_backoff_bounds_attempts_witness :
  Scenarios.two_delays 2 = None /\
  let r := SingleShot.retry_target Scenarios.op_env Scenarios.always
             Scenarios.two_delays None 5 Scenarios.op_third_time in
  (SingleShot.attempts (SingleShot.trace r) <= 2)%nat /\
  SingleShot.result r = SingleShot.Raised ValueError.
Proof.
  split; [reflexivity|]. split.
  - apply (@finite_backoff_bounds_attempts _ _ Scenarios.op_env Scenarios.always
             Scenarios.two_delays None 2%nat 5%nat Scenarios.op_third_time eq_refl).
  - reflexivity.
Defined.

(** ** Further properties of the streaming executor *)

Section StreamingAccounting.

Import Streaming Accounting.

Variables W H V : Type.
Variable E : env W H V.
Variable predicate : exn -> bool.
Variable sleep_generator : nat -> option Q.
Variable timeout_arg : option Q.
Variable kw_deadline : option (option Q).

Abbreviation st := (state W H V).
Abbreviation forward_ := (forward E timeout_arg kw_deadline).
Abbreviation attempt_ := (attempt E predicate timeout_arg kw_deadline).
Abbreviation retry_loop_ :=
(retry_loop E predicate sleep_generator timeout_arg kw_deadline).

Ltac unfold_blocks :=
unfold dispatch, handle, finally_, report_error,
  reserve_sleep, charge_elapsed, check_budget, yield_to_caller, yield_,
  await_sleep, await_aclose, await_athrow, await_asend, call_target,
  now_, read_start_timestamp, get_budget, get_last_exc, set_budget,
  set_last_exc, set_subgenerator, set_start_timestamp, bind, ret, raise,
  gen_return, out_of_fuel, log, with_world;
cbn beta iota.

Ltac break_match :=
match goal with
| |- context [match ?x with _ => _ end] =>
    lazymatch x with
    | context [match _ with _ => _ end] => fail
    | _ => destruct x eqn:?
    end
end;
cbn [fst snd world trace last_exc subgenerator
     remaining_timeout_budget start_timestamp] in *.

Ltac by_cases :=
let s := fresh "s" in
let Hs := fresh "Hs" in
unfold triple; intros s Hs; unfold_blocks; cbn [fst snd];
repeat break_match;
cbn [fst snd world trace last_exc subgenerator remaining_timeout_budget
     start_timestamp or_exit] in *.

(** *** Factory calls and sleeps *)

Ltac count_cases :=
unfold counted, factory_calls, sleep_count in *; by_cases;
cbn [filter length] in *; intuition (auto; lia).

Lemma forward_counted c m fuel g : forall sent,
triple (counted c m) (forward_ fuel g sent) (fun _ => counted c m).
Proof.
induction fuel as [|fuel IH]; intros sent; cbn [forward].
- count_cases.
- repeat (apply triple_bind with (R := fun _ => counted c m);
          [count_cases | intros ?]).
  apply IH.
Qed.

Lemma attempt_counted c m fuel :
triple (counted c m) (attempt_ fuel) (fun _ => counted (S c) m).
Proof.
assert (Hbody : triple (counted c m) (try_body E timeout_arg kw_deadline fuel)
                  (fun _ => counted (S c) m)).
{ unfold try_body.
  apply triple_bind with (R := fun _ => counted (S c) m); [count_cases|].
  intros g. apply triple_bind with (R := fun _ => counted (S c) m); [count_cases|].
  intros _. apply forward_counted. }
assert (Hfin : forall c', triple (counted (S c) m) (finally_ E c')
                            (fun _ => counted (S c) m)) by (intros; count_cases).
assert (Hdis : forall e, triple (counted (S c) m) (dispatch E predicate e)
                           (fun _ => counted (S c) m)) by (intros; count_cases).
intros s Hs. unfold attempt, try_statement.
specialize (Hbody s Hs).
destruct (try_body _ _ _ _ s) as [c0 s1]. cbn [snd] in Hbody.
destruct c0 as [a|e| | |]; try (apply Hfin; exact Hbody).
specialize (Hdis e s1 Hbody).
destruct (dispatch E predicate e s1) as [c2 s2]. apply Hfin. exact Hdis.
Qed.

Lemma retry_loop_alternating fuel : forall i c,
triple (counted c c) (retry_loop_ fuel i) (fun _ => alternating).
Proof.
induction fuel as [|fuel IH]; intros i c; cbn [retry_loop].
- unfold alternating. count_cases.
- destruct (sleep_generator i) as [sleep|]; [|unfold alternating; count_cases].
  apply triple_bind with (R := fun _ => counted (S c) c).
  { eapply triple_weaken; [apply (@attempt_counted c c fuel) | auto |].
    intros c0 s' Hc; cbn beta in Hc; destruct c0; cbn [or_exit];
      try exact Hc; unfold alternating; destruct Hc; lia. }
  intros _. apply triple_bind with (R := fun _ => counted (S c) c);
    [unfold alternating; count_cases|].
  intros _. apply triple_bind with (R := fun _ => counted (S c) c);
    [unfold alternating; count_cases|].
  intros _. apply triple_bind with (R := fun _ => counted (S c) (S c));
    [unfold alternating; count_cases|].
  intros _. apply IH.
Qed.

(** With a sleep generator that stops at its [n]-th value. *)
Lemma retry_loop_finite_calls n fuel : forall i c,
sleep_generator n = None ->
(i <= n)%nat ->
triple (fun s => factory_calls (trace s) = c) (retry_loop_ fuel i)
  (fun _ s => (factory_calls (trace s) <= c + (n - i))%nat).
Proof.
induction fuel as [|fuel IH]; intros i c Hn Hi; cbn [retry_loop].
- intros s Hs. cbn. lia.
- destruct (sleep_generator i) as [sleep|] eqn:Hsg.
  2:{ intros s Hs. cbn. lia. }
  assert (Hlt : (i < n)%nat).
  { destruct (Nat.eq_dec i n) as [->|]; [congruence | lia]. }
  pose (P := fun s : st => factory_calls (trace s) = S c).
  apply triple_bind with (R := fun _ => P).
  { intros s Hs.
    pose proof (@attempt_counted c (sleep_count (trace s)) fuel s
                  (conj Hs eq_refl)) as [Hc _].
    destruct (attempt_ fuel s) as [c0 s1]. cbn [fst snd] in *.
    destruct c0; cbn; unfold P; lia. }
  assert (Hexit : forall A (m : M W H V A),
            triple P m (fun _ => P) ->
            triple P m (or_exit (fun _ => P)
              (fun (_ : ctl unit) s =>
                 (factory_calls (trace s) <= c + (n - i))%nat))).
  { intros A m Hm s Hs. specialize (Hm s Hs).
    destruct (m s) as [c0 s1]. cbn [fst snd] in *.
    destruct c0; cbn; unfold P in *; lia. }
  intros _. apply triple_bind with (R := fun _ => P).
  { apply Hexit. unfold P, factory_calls. by_cases; cbn [filter length]; auto. }
  intros _. apply triple_bind with (R := fun _ => P).
  { apply Hexit. unfold P, factory_calls. by_cases; cbn [filter length]; auto. }
  intros _. apply triple_bind with (R := fun _ => P).
  { apply Hexit. unfold P, factory_calls. by_cases; cbn [filter length]; auto. }
  intros _. eapply triple_weaken; [apply (IH (S i) (S c) Hn Hlt) | auto |].
  cbn beta. intros; lia.
Qed.

(** *** The budget in a world whose time does not run backwards *)

Section Monotone.

Variable clock : W -> Q.
Hypothesis HM : monotone E clock.
Hypothesis Hnonneg : forall j d, sleep_generator j = Some d -> (0 <= d)%Q.
Variable T : Q.

Ltac use_mono :=
repeat match goal with
| H : utcnow E _ = (_, _) |- _ => apply (mono_utcnow HM) in H; destruct H
| H : target E _ = (_, _) |- _ => apply (mono_target HM) in H
| H : asend E _ _ _ _ = (_, _) |- _ => apply (mono_asend HM) in H
| H : athrow E _ _ _ = (_, _) |- _ => apply (mono_athrow HM) in H
| H : aclose E _ _ = (_, _) |- _ => apply (mono_aclose HM) in H
| H : consumer E _ _ = (_, _) |- _ => apply (mono_consumer HM) in H
| H1 : on_error E = Some ?h, H2 : ?h _ _ = (_, _) |- _ =>
  eapply (@mono_on_error _ _ _ _ _ HM) in H2; [|exact H1]
end.

Ltac solve_capped Hb Hstart Hsl :=
repeat match goal with |- _ /\ _ => split end;
rewrite ?Hb, ?Hstart;
match goal with
| |- exists _, _ => eexists; split; [reflexivity | lra]
| |- forall _, _ -> (_ < _)%Q =>
  let Hin := fresh "Hin" in
  intros ? Hin; cbn [In] in Hin;
  repeat (destruct Hin as [Hin | Hin]; [discriminate Hin|]);
  apply Hsl; exact Hin
| |- forall _, _ -> (_ <= _)%Q =>
  let Heq := fresh "Heq" in
  intros ? Heq; first [discriminate | inversion Heq; subst; lra]
| |- _ => lra
end.

Ltac capped_cases :=
let s := fresh "s" in
let Hs := fresh "Hs" in
let r := fresh "r" in
let Hb := fresh "Hb" in
let Hle := fresh "Hle" in
let Hsl := fresh "Hsl" in
let Hst := fresh "Hst" in
let t0 := fresh "t0" in
let Hstart := fresh "Hstart" in
unfold triple, capped; intros s Hs;
destruct Hs as [[r [Hb Hle]] [Hst Hsl]];
destruct (start_timestamp s) as [t0|] eqn:Hstart;
[specialize (Hst t0 eq_refl) | clear Hst];
unfold_blocks; cbn [fst snd]; rewrite ?Hb, ?Hstart;
repeat (break_match; rewrite ?Hb, ?Hstart in * );
cbn [fst snd world trace last_exc subgenerator remaining_timeout_budget
   start_timestamp or_exit] in *;
use_mono; solve_capped Hb Hstart Hsl.

Lemma forward_capped fuel g : forall sent,
triple (capped clock T) (forward_ fuel g sent) (fun _ => capped clock T).
Proof.
induction fuel as [|fuel IH]; intros sent; cbn [forward].
- capped_cases.
- apply triple_bind with (R := fun _ => capped clock T); [capped_cases|].
intros _. apply triple_bind with (R := fun _ => capped clock T); [capped_cases|].
intros b. apply triple_bind with
  (R := fun t s => capped clock T s /\ (t <= clock (world s))%Q).
{ capped_cases. }
intros t. apply triple_bind with (R := fun _ => capped clock T).
{ unfold triple, capped. intros s [[Hb [Hst Hsl]] Ht].
  unfold_blocks. cbn. split; [exact Hb | split; [|exact Hsl]].
  intros t1 Heq. inversion Heq; subst. exact Ht. }
intros _. apply triple_bind with (R := fun _ => capped clock T); [capped_cases|].
intros v. apply triple_bind with (R := fun _ => capped clock T); [capped_cases|].
intros _. apply triple_bind with (R := fun _ => capped clock T); [capped_cases|].
intros sent'. apply IH.
Qed.

Lemma attempt_capped fuel :
triple (capped clock T) (attempt_ fuel) (fun _ => capped clock T).
Proof.
assert (Hbody : triple (capped clock T)
                (try_body E timeout_arg kw_deadline fuel)
                (fun _ => capped clock T)).
{ unfold try_body.
apply triple_bind with (R := fun _ => capped clock T); [capped_cases|].
intros g. apply triple_bind with (R := fun _ => capped clock T);
  [capped_cases|].
intros _. apply forward_capped. }
assert (Hfin : forall c', triple (capped clock T) (finally_ E c')
                          (fun _ => capped clock T))
by (intros; capped_cases).
assert (Hdis : forall e, triple (capped clock T) (dispatch E predicate e)
                         (fun _ => capped clock T))
by (intros; capped_cases).
intros s Hs. unfold attempt, try_statement.
specialize (Hbody s Hs).
destruct (try_body _ _ _ _ s) as [c0 s1]. cbn [snd] in Hbody.
destruct c0 as [a|e| | |]; try (apply Hfin; exact Hbody).
specialize (Hdis e s1 Hbody).
destruct (dispatch E predicate e s1) as [c2 s2]. apply Hfin. exact Hdis.
Qed.

Lemma retry_loop_capped fuel : forall i,
triple (capped clock T) (retry_loop_ fuel i) (fun _ => capped clock T).
Proof.
induction fuel as [|fuel IH]; intros i; cbn [retry_loop].
- capped_cases.
- destruct (sleep_generator i) as [sleep|] eqn:Hgen; [|capped_cases].
apply Hnonneg in Hgen.
apply triple_bind with (R := fun _ => capped clock T).
{ eapply triple_weaken; [apply attempt_capped | auto |].
  intros c0 s' Hc; destruct c0; exact Hc. }
intros _. apply triple_bind with (R := fun _ => capped clock T);
  [capped_cases|].
intros _. apply triple_bind with
  (R := fun _ s => capped clock T s /\ (sleep < T)%Q).
{ unfold triple, capped. intros s [[r [Hb Hle]] [Hst Hsl]].
  unfold_blocks. cbn [fst snd]. rewrite Hb.
  destruct (le r sleep) eqn:Hcmp; cbn [fst snd or_exit remaining_timeout_budget
    trace start_timestamp world].
  - repeat split; auto. exists r. auto.
  - apply le_false_iff in Hcmp. split; [|lra].
    split; [eexists; split; [reflexivity | lra]|]. split; assumption. }
intros _. apply triple_bind with (R := fun _ => capped clock T).
{ unfold triple, capped. intros s [[[r [Hb Hle]] [Hst Hsl]] Hlt].
  unfold_blocks. cbn [fst snd or_exit remaining_timeout_budget trace
    start_timestamp world].
  pose proof (mono_asleep HM sleep (world s)) as Hmono.
  split; [exists r; split; [exact Hb | exact Hle]|].
  split.
  - intros t0 Ht0. specialize (Hst t0 Ht0). lra.
  - intros d [Heq | Hin]; [injection Heq as <-; exact Hlt | apply Hsl, Hin]. }
intros _. apply IH.
Qed.

End Monotone.

(** *** Streams that close without error are never left open *)

Section Ledger.

Variable live : W -> list H.
Hypothesis HL : ledger E live.
Hypothesis Hclose : forall g w, fst (aclose E g w) = None.

Ltac use_ledger :=
repeat match goal with
| H : aclose E ?g ?w = (Some _, _) |- _ =>
  exfalso; generalize (Hclose g w); rewrite H; discriminate
| H : aclose E _ _ = (None, _) |- _ =>
  pose proof (@led_closed _ _ _ _ _ HL _ _ _ H);
  apply (@led_aclose _ _ _ _ _ HL) in H
| H : utcnow E _ = (_, _) |- _ => apply (@led_utcnow _ _ _ _ _ HL) in H
| H : target E _ = (inr _, _) |- _ => apply (@led_opened _ _ _ _ _ HL) in H
| H : target E _ = (inl _, _) |- _ => apply (@led_refused _ _ _ _ _ HL) in H
| H : asend E _ _ _ _ = (_, _) |- _ => apply (@led_asend _ _ _ _ _ HL) in H
| H : athrow E _ _ _ = (_, _) |- _ => apply (@led_athrow _ _ _ _ _ HL) in H
| H : consumer E _ _ = (_, _) |- _ => apply (@led_consumer _ _ _ _ _ HL) in H
| H1 : on_error E = Some ?h, H2 : ?h _ _ = (_, _) |- _ =>
  eapply (@led_on_error _ _ _ _ _ HL) in H2; [|exact H1]
end.

Ltac ledger_cases :=
unfold inside, outside, only_held, none_open, undisturbed, closing in *;
by_cases;
unfold closing in *;
cbn [existsb orb is_GeneratorExit] in *;
try congruence;
pose proof (@led_asleep _ _ _ _ _ HL) as Hasleep;
use_ledger;
unfold incl in *; cbn [In] in *;
try solve [intuition (eauto; congruence) | firstorder congruence].

Lemma forward_ledger fuel g : forall sent,
triple (fun s => only_held live s /\ undisturbed s /\ subgenerator s = Some g)
(forward_ fuel g sent) (inside live).
Proof.
induction fuel as [|fuel IH]; intros sent; cbn [forward].
- ledger_cases.
- repeat (apply triple_bind with
          (R := fun _ s => only_held live s /\ undisturbed s /\
                           subgenerator s = Some g);
        [ledger_cases | intros ?]).
apply IH.
Qed.

Lemma try_body_ledger fuel :
triple (fun s => none_open live s /\ undisturbed s)
(try_body E timeout_arg kw_deadline fuel) (inside live).
Proof.
unfold try_body.
apply triple_bind with
(R := fun g s => (forall x, In x (live (world s)) -> x = g) /\ undisturbed s).
- ledger_cases.
- intros g. apply triple_bind with
  (R := fun _ s => only_held live s /\ undisturbed s /\ subgenerator s = Some g).
+ ledger_cases.
+ intros _. apply forward_ledger.
Qed.

Lemma dispatch_ledger e :
triple (fun s => only_held live s /\ undisturbed s) (dispatch E predicate e)
(inside live).
Proof. ledger_cases. Qed.

Lemma finally_ledger (c : ctl unit) :
triple (inside live c) (finally_ E c) (outside live).
Proof. destruct c; ledger_cases. Qed.

Lemma attempt_ledger fuel :
triple (fun s => none_open live s /\ undisturbed s) (attempt_ fuel)
(outside live).
Proof.
intros s Hs. unfold attempt, try_statement.
pose proof (try_body_ledger fuel Hs) as Hbody.
destruct (try_body _ _ _ _ s) as [c s1]. cbn [fst snd] in Hbody.
destruct c as [a|e| | |]; try (apply finally_ledger; exact Hbody).
pose proof (dispatch_ledger e Hbody) as Hd.
destruct (dispatch E predicate e s1) as [c2 s2]. cbn [fst snd] in Hd.
apply finally_ledger. exact Hd.
Qed.

Lemma retry_loop_ledger fuel : forall i,
triple (fun s => none_open live s /\ undisturbed s) (retry_loop_ fuel i)
(outside live).
Proof.
induction fuel as [|fuel IH]; intros i; cbn [retry_loop].
- ledger_cases.
- destruct (sleep_generator i) as [sleep|]; [|ledger_cases].
apply triple_bind with (R := fun _ s => none_open live s /\ undisturbed s).
{ eapply triple_weaken; [apply attempt_ledger | auto |].
  intros c s' Hc; destruct c; exact Hc. }
intros _.
repeat (apply triple_bind with
          (R := fun _ s => none_open live s /\ undisturbed s);
        [ledger_cases | intros ?]).
apply IH.
Qed.

End Ledger.

(** *** Rounds of the forwarding loop *)

(** A round whose pull raises [e]. *)
Lemma forward_pull_raises fuel g sent s r t w1 e w2 :
remaining_timeout_budget s = Some r ->
(0 < r)%Q ->
utcnow E (world s) = (t, w1) ->
asend E g sent (pull_bound timeout_arg kw_deadline (Some r)) w1 = (inl e, w2) ->
forward_ (S fuel) g sent s
= (Raise e,
   mkState w2
     (EvAsend g sent (pull_bound timeout_arg kw_deadline (Some r)) :: trace s)
     (last_exc s) (subgenerator s) (Some r) (Some t)).
Proof.
intros Hb Hr Hnow Hpull. apply le_false_iff in Hr.
cbn [forward]. unfold_blocks.
rewrite Hb. cbn -[pull_bound Qminus]. rewrite Hr, Hnow.
cbn -[pull_bound Qminus]. rewrite ?Hb, Hpull. reflexivity.
Qed.

(** A round in which the consumer closes the wrapper at the value it
  receives. *)
Lemma forward_closed fuel g sent s r t w1 v w2 t' w3 reply w4 w5 :
closing (trace s) = false ->
remaining_timeout_budget s = Some r ->
(0 < r)%Q ->
utcnow E (world s) = (t, w1) ->
asend E g sent (pull_bound timeout_arg kw_deadline (Some r)) w1 = (inr v, w2) ->
utcnow E w2 = (t', w3) ->
consumer E v w3 = (reply, w4) ->
reply = Close \/ reply = Throw GeneratorExit ->
aclose E g w4 = (None, w5) ->
forward_ (S fuel) g sent s
= (Return,
   mkState w5
     (EvAclose g ::
      match reply with Close => [EvClosing] | _ => [] end ++
      EvYield v ::
      EvAsend g sent (pull_bound timeout_arg kw_deadline (Some r)) :: trace s)
     (last_exc s) (subgenerator s) (Some (r - (t' - t))%Q) (Some t)).
Proof.
intros Hcl Hb Hr Hnow Hpull Hnow' Hcons Hreply Hclose.
apply le_false_iff in Hr. unfold closing in Hcl.
cbn [forward]. unfold_blocks. unfold closing.
rewrite Hb. cbn -[pull_bound Qminus]. rewrite Hr, Hnow.
cbn -[pull_bound Qminus]. rewrite ?Hb, Hpull.
cbn -[pull_bound Qminus]. rewrite ?Hb, Hnow'.
cbn -[pull_bound Qminus]. rewrite ?Hb, ?Hcl, Hcons.
destruct Hreply as [-> | ->]; cbn -[pull_bound Qminus];
  rewrite ?Hb, Hclose; reflexivity.
Qed.

(** A round in which the stream absorbs the error the consumer throws
  and answers with the value [x]. *)
Lemma forward_absorbed fuel g sent s r t w1 v w2 t' w3 e w4 x w5 :
closing (trace s) = false ->
remaining_timeout_budget s = Some r ->
(0 < r)%Q ->
utcnow E (world s) = (t, w1) ->
asend E g sent (pull_bound timeout_arg kw_deadline (Some r)) w1 = (inr v, w2) ->
utcnow E w2 = (t', w3) ->
consumer E v w3 = (Throw e, w4) ->
is_GeneratorExit e = false ->
athrow E g e w4 = (inr x, w5) ->
forward_ (S fuel) g sent s
= forward_ fuel g sent
    (mkState w5
       (EvAthrow g e :: EvYield v ::
        EvAsend g sent (pull_bound timeout_arg kw_deadline (Some r)) :: trace s)
       (last_exc s) (subgenerator s) (Some (r - (t' - t))%Q) (Some t)).
Proof.
intros Hcl Hb Hr Hnow Hpull Hnow' Hcons Hge Hthrow.
apply le_false_iff in Hr. unfold closing in Hcl.
cbn [forward]. unfold_blocks. unfold closing.
rewrite Hb. cbn -[pull_bound Qminus forward]. rewrite Hr, Hnow.
cbn -[pull_bound Qminus forward]. rewrite ?Hb, Hpull.
cbn -[pull_bound Qminus forward]. rewrite ?Hb, Hnow'.
cbn -[pull_bound Qminus forward]. rewrite ?Hb, ?Hcl, Hcons.
cbn -[pull_bound Qminus forward]. rewrite ?Hb, Hge.
cbn -[pull_bound Qminus forward]. rewrite ?Hb, Hthrow. reflexivity.
Qed.

(** The [try] statement around a body that returns. *)
Lemma try_statement_return body s s1 g w' :
body s = (Return, s1) ->
subgenerator s1 = Some g ->
aclose E g (world s1) = (None, w') ->
try_statement E predicate body s
= (Return, mkState w' (EvAclose g :: trace s1) (last_exc s1) (subgenerator s1)
             (remaining_timeout_budget s1) (start_timestamp s1)).
Proof.
intros Hb Hg Hc. unfold try_statement. rewrite Hb.
unfold finally_, await_aclose, log, with_world. rewrite Hg. cbn. rewrite Hc.
reflexivity.
Qed.

(** *** The sleeps follow the sleep generator *)

Ltac schedule_cases :=
unfold on_schedule, stream_sleeps in *; by_cases;
cbn [flat_map app] in *; auto.

Lemma forward_on_schedule i fuel g : forall sent,
triple (on_schedule sleep_generator i) (forward_ fuel g sent)
  (fun _ => on_schedule sleep_generator i).
Proof.
induction fuel as [|fuel IH]; intros sent; cbn [forward].
- schedule_cases.
- repeat (apply triple_bind with (R := fun _ => on_schedule sleep_generator i);
          [schedule_cases | intros ?]).
  apply IH.
Qed.

Lemma attempt_on_schedule i fuel :
triple (on_schedule sleep_generator i) (attempt_ fuel)
  (fun _ => on_schedule sleep_generator i).
Proof.
assert (Hbody : triple (on_schedule sleep_generator i)
                  (try_body E timeout_arg kw_deadline fuel)
                  (fun _ => on_schedule sleep_generator i)).
{ unfold try_body.
  apply triple_bind with (R := fun _ => on_schedule sleep_generator i);
    [schedule_cases|].
  intros g. apply triple_bind with (R := fun _ => on_schedule sleep_generator i);
    [schedule_cases|].
  intros _. apply forward_on_schedule. }
assert (Hfin : forall c', triple (on_schedule sleep_generator i) (finally_ E c')
                            (fun _ => on_schedule sleep_generator i))
  by (intros; schedule_cases).
assert (Hdis : forall e, triple (on_schedule sleep_generator i)
                           (dispatch E predicate e)
                           (fun _ => on_schedule sleep_generator i))
  by (intros; schedule_cases).
intros s Hs. unfold attempt, try_statement.
specialize (Hbody s Hs).
destruct (try_body _ _ _ _ s) as [c0 s1]. cbn [snd] in Hbody.
destruct c0 as [a|e| | |]; try (apply Hfin; exact Hbody).
specialize (Hdis e s1 Hbody).
destruct (dispatch E predicate e s1) as [c2 s2]. apply Hfin. exact Hdis.
Qed.

Lemma retry_loop_on_schedule fuel : forall i,
triple (on_schedule sleep_generator i) (retry_loop_ fuel i)
  (fun _ s => exists k, on_schedule sleep_generator k s).
Proof.
induction fuel as [|fuel IH]; intros i; cbn [retry_loop].
- intros s Hs. exists i. exact Hs.
- destruct (sleep_generator i) as [sleep|] eqn:Hsg.
  2:{ intros s Hs. exists i. exact Hs. }
  assert (Hexit : forall A (m : M W H V A),
            triple (on_schedule sleep_generator i) m
              (fun _ => on_schedule sleep_generator i) ->
            triple (on_schedule sleep_generator i) m
              (or_exit (fun _ => on_schedule sleep_generator i)
                 (fun (_ : ctl unit) s => exists k, on_schedule sleep_generator k s))).
  { intros A m Hm s Hs. specialize (Hm s Hs).
    destruct (m s) as [c0 s1]. cbn [fst snd] in *.
    destruct c0; cbn; try exact Hm; exists i; exact Hm. }
  apply triple_bind with (R := fun _ => on_schedule sleep_generator i);
    [apply Hexit, attempt_on_schedule|].
  intros _. apply triple_bind with (R := fun _ => on_schedule sleep_generator i);
    [apply Hexit; schedule_cases|].
  intros _. apply triple_bind with (R := fun _ => on_schedule sleep_generator i);
    [apply Hexit; schedule_cases|].
  intros _. apply triple_bind with (R := fun _ => on_schedule sleep_generator (S i)).
  { intros s [Hlen Hnth]. unfold await_sleep, log, with_world.
    cbn [fst snd or_exit]. unfold on_schedule. cbn [trace].
    change (stream_sleeps (EvSleep sleep :: trace s))
      with (stream_sleeps (trace s) ++ [sleep]).
    split.
    - rewrite length_app, Hlen. cbn. lia.
    - intros j d Hj.
      destruct (Nat.lt_ge_cases j i) as [Hlt | Hge].
      + apply Hnth. rewrite nth_error_app1 in Hj by lia. exact Hj.
      + rewrite nth_error_app2 in Hj by lia. rewrite Hlen in Hj.
        destruct (j - i)%nat as [|n] eqn:Hji.
        * cbn in Hj. injection Hj as Hd. rewrite <- Hd.
          replace j with i by lia. exact Hsg.
        * cbn in Hj. destruct n; discriminate. }
  intros _. apply IH.
Qed.

End StreamingAccounting.
(** X5.  In every streaming run the factory is called once, then once
    after every sleep: the factory calls are as many as the sleeps or
    one more, so no stream is restarted without a backoff sleep before
    it. *)
Theorem restarts_alternate_with_sleeps (W H V : Type)
    (E : Streaming.env W H V) (predicate : exn -> bool)
    (sleep_generator : nat -> option Q) (timeout_arg : option Q)
    (kw_deadline : option (option Q)) (fuel : nat) (w : W) :
  let tr := Streaming.trace (snd (Streaming.retry_target_generator E predicate
              sleep_generator timeout_arg kw_deadline fuel w)) in
  (Accounting.sleep_count tr <= Accounting.factory_calls tr
   <= Accounting.sleep_count tr + 1)%nat.
Proof.
  intros tr. subst tr. unfold Streaming.retry_target_generator.
  apply (@retry_loop_alternating W H V E predicate sleep_generator timeout_arg
           kw_deadline fuel 0%nat 0%nat).
  split; reflexivity.
Qed.

(** X6.  When the sleep generator stops at its [n]-th value, a
    streaming run calls the factory at most [n] times. *)
Theorem finite_backoff_bounds_restarts (W H V : Type)
    (E : Streaming.env W H V) (predicate : exn -> bool)
    (sleep_generator : nat -> option Q) (timeout_arg : option Q)
    (kw_deadline : option (option Q)) (n fuel : nat) (w : W) :
  sleep_generator n = None ->
  (Accounting.factory_calls (Streaming.trace (snd
     (Streaming.retry_target_generator E predicate sleep_generator
        timeout_arg kw_deadline fuel w))) <= n)%nat.
Proof.
  intros Hn. unfold Streaming.retry_target_generator.
  pose proof (@retry_loop_finite_calls W H V E predicate sleep_generator
                timeout_arg kw_deadline n fuel 0%nat 0%nat Hn (Nat.le_0_l n)
                (@Streaming.initial_state W H V timeout_arg kw_deadline w)
                eq_refl) as Hc.
  cbn beta in Hc. lia.
Qed.

(** The theorem on the streams that yield 1, 2 and then 3, under a
    backoff of two values. *)
Lemma finite_backoff_bounds_restarts_witness :
  Scenarios.two_delays 2 = None /\
  (Accounting.factory_calls (Streaming.trace (snd
     (Streaming.retry_target_generator
        (Scenarios.gen_env Scenarios.streams_12_3) Scenarios.if_app_error
        Scenarios.two_delays (Some 10%Q) None 20 Scenarios.iterating))) <= 2)%nat.
Proof.
  split; [reflexivity|].
  apply (@finite_backoff_bounds_restarts _ _ _
           (Scenarios.gen_env Scenarios.streams_12_3) Scenarios.if_app_error
           Scenarios.two_delays (Some 10%Q) None 2%nat 20%nat
           Scenarios.iterating eq_refl).
Defined.

(** X7.  In a world whose time does not run backwards and with a
    backoff that is never negative, the budget of a streaming run with
    timeout [T] never exceeds [T], and every sleep of the run is
    shorter than [T]. *)
Theorem every_sleep_below_timeout (W H V : Type)
    (E : Streaming.env W H V) (predicate : exn -> bool)
    (sleep_generator : nat -> option Q) (timeout_arg : option Q)
    (kw_deadline : option (option Q)) (clock : W -> Q) (T : Q)
    (fuel : nat) (w : W) :
  Accounting.monotone E clock ->
  (forall j d, sleep_generator j = Some d -> (0 <= d)%Q) ->
  Streaming.initial_budget timeout_arg kw_deadline = Some T ->
  let s := snd (Streaming.retry_target_generator E predicate sleep_generator
                  timeout_arg kw_deadline fuel w) in
  (exists r, Streaming.remaining_timeout_budget s = Some r /\ (r <= T)%Q) /\
  (forall d, In (Streaming.EvSleep d) (Streaming.trace s) -> (d < T)%Q).
Proof.
  intros HM Hnonneg HT s. subst s. unfold Streaming.retry_target_generator.
  assert (Hinit : Accounting.capped clock T
            (@Streaming.initial_state W H V timeout_arg kw_deadline w)).
  { unfold Accounting.capped, Streaming.initial_state. cbn.
    rewrite HT. split; [exists T; split; [reflexivity | lra]|].
    split; [intros; discriminate | intros d []]. }
  destruct (@retry_loop_capped W H V E predicate sleep_generator
              timeout_arg kw_deadline clock HM Hnonneg T fuel 0%nat _ Hinit)
    as [Hb [_ Hsl]].
  split; [exact Hb | exact Hsl].
Qed.

(** The world of [failing_env] is its own clock and never goes back. *)
Lemma failing_env_monotone : Accounting.monotone Scenarios.failing_env (fun w => w).
Proof.
  constructor; cbn; intros;
    repeat match goal with
           | H : (_, _) = (_, _) |- _ => inversion H; subst; clear H
           end;
    try discriminate; try (split; lra); try lra.
  destruct (le 0 d) eqn:Hd; [apply le_true_iff in Hd|]; lra.
Qed.

Lemma every_second_nonneg j d : Scenarios.every_second j = Some d -> (0 <= d)%Q.
Proof. intros Heq. injection Heq as <-. discriminate. Qed.

(** The theorem on streams that keep failing after one second, with a
    timeout of ten seconds and a backoff of one second: the run sleeps
    four times, each time less than ten seconds. *)
Lemma every_sleep_below_timeout_witness :
  let s := snd (Streaming.retry_target_generator Scenarios.failing_env
                  Scenarios.if_app_error Scenarios.every_second (Some 10%Q)
                  None 30 0%Q) in
  Streaming.initial_budget (Some 10%Q) None = Some 10%Q /\
  Accounting.sleep_count (Streaming.trace s) = 4%nat /\
  forall d, In (Streaming.EvSleep d) (Streaming.trace s) -> (d < 10)%Q.
Proof.
  split; [reflexivity|]. split; [vm_compute; reflexivity|].
  exact (proj2 (@every_sleep_below_timeout _ _ _ Scenarios.failing_env
           Scenarios.if_app_error Scenarios.every_second (Some 10%Q) None
           (fun w => w) 10%Q 30%nat 0%Q failing_env_monotone
           every_second_nonneg eq_refl)).
Defined.

(** X8.  When the consumer closes the wrapper at a value it has
    received (by [aclose()], or by throwing [GeneratorExit] at it) and
    the stream closes without error, the forwarding loop awaits
    [aclose()] on the active stream and returns, the [finally] clause
    awaits it a second time, and the [try] statement ends the run
    normally: no further pull, two closes of the same stream. *)
Theorem consumer_close_closes_twice (W H V : Type)
    (E : Streaming.env W H V) (predicate : exn -> bool)
    (timeout_arg : option Q) (kw_deadline : option (option Q))
    fuel g sent s r t w1 v w2 t' w3 reply w4 w5 w6 :
  Streaming.closing (Streaming.trace s) = false ->
  Streaming.subgenerator s = Some g ->
  Streaming.remaining_timeout_budget s = Some r ->
  (0 < r)%Q ->
  Streaming.utcnow E (Streaming.world s) = (t, w1) ->
  Streaming.asend E g sent (Streaming.pull_bound timeout_arg kw_deadline (Some r)) w1
    = (inr v, w2) ->
  Streaming.utcnow E w2 = (t', w3) ->
  Streaming.consumer E v w3 = (reply, w4) ->
  reply = Streaming.Close \/ reply = Streaming.Throw GeneratorExit ->
  Streaming.aclose E g w4 = (None, w5) ->
  Streaming.aclose E g w5 = (None, w6) ->
  Streaming.try_statement E predicate
    (Streaming.forward E timeout_arg kw_deadline (S fuel) g sent) s
  = (Streaming.Return,
     Streaming.mkState w6
       (Streaming.EvAclose g :: Streaming.EvAclose g ::
        match reply with
        | Streaming.Close => [Streaming.EvClosing]
        | _ => []
        end ++
        Streaming.EvYield v ::
        Streaming.EvAsend g sent
          (Streaming.pull_bound timeout_arg kw_deadline (Some r)) ::
        Streaming.trace s)
       (Streaming.last_exc s) (Some g) (Some (r - (t' - t))%Q) (Some t)).
Proof.
  intros Hcl Hg Hb Hr Hnow Hpull Hnow' Hcons Hreply Hc1 Hc2.
  pose proof (@forward_closed W H V E timeout_arg kw_deadline fuel g sent s r t
                w1 v w2 t' w3 reply w4 w5 Hcl Hb Hr Hnow Hpull Hnow' Hcons
                Hreply Hc1)
    as Hbody.
  rewrite (@try_statement_return W H V E predicate _ s _ g w6 Hbody Hg Hc2).
  cbn. rewrite Hg. reflexivity.
Qed.

(** The theorem on the first round of a stream whose consumer closes
    at the first value. *)
Lemma consumer_close_closes_twice_witness :
  let E := Scenarios.gen_env Scenarios.streams_12_3 in
  let s := Streaming.mkState (Scenarios.mkGenWorld 0 1 0 [Streaming.Close])
             [Streaming.EvOpen 0%nat] None (Some 0%nat) (Some 10%Q) None in
  Streaming.trace (snd (Streaming.try_statement E Scenarios.if_app_error
    (Streaming.forward E (Some 10%Q) None 5 0%nat None) s))
  = [Streaming.EvAclose 0%nat; Streaming.EvAclose 0%nat; Streaming.EvClosing;
     Streaming.EvYield 1%nat;
     Streaming.EvAsend 0%nat None (Some 10%Q); Streaming.EvOpen 0%nat].
Proof.
  intros E s.
  pose (wa := Scenarios.mkGenWorld 0 1 0 [@Streaming.Close nat]).
  pose (wb := Scenarios.mkGenWorld 1 1 1 [@Streaming.Close nat]).
  pose (wc := Scenarios.mkGenWorld 1 1 1 []).
  rewrite (@consumer_close_closes_twice _ _ _ E Scenarios.if_app_error
             (Some 10%Q) None 4%nat 0%nat None s 10%Q 0%Q wa 1%nat wb 1%Q wb
             Streaming.Close wc wc wc
             eq_refl eq_refl eq_refl eq_refl eq_refl eq_refl eq_refl eq_refl
             (or_introl eq_refl) eq_refl eq_refl).
  reflexivity.
Defined.

(** X9.  When the consumer, not closing the wrapper, throws an error
    at a value and the stream absorbs it, answering [athrow] with a value [x], the wrapper drops
    [x]: it is not yielded, and the loop goes on to pull again with the
    value the consumer had sent before. *)
Theorem absorbed_injection_drops_value (W H V : Type)
    (E : Streaming.env W H V)
    (timeout_arg : option Q) (kw_deadline : option (option Q))
    fuel g sent s r t w1 v w2 t' w3 e w4 x w5 :
  Streaming.closing (Streaming.trace s) = false ->
  Streaming.remaining_timeout_budget s = Some r ->
  (0 < r)%Q ->
  Streaming.utcnow E (Streaming.world s) = (t, w1) ->
  Streaming.asend E g sent (Streaming.pull_bound timeout_arg kw_deadline (Some r)) w1
    = (inr v, w2) ->
  Streaming.utcnow E w2 = (t', w3) ->
  Streaming.consumer E v w3 = (Streaming.Throw e, w4) ->
  is_GeneratorExit e = false ->
  Streaming.athrow E g e w4 = (inr x, w5) ->
  Streaming.forward E timeout_arg kw_deadline (S fuel) g sent s
  = Streaming.forward E timeout_arg kw_deadline fuel g sent
      (Streaming.mkState w5
         (Streaming.EvAthrow g e :: Streaming.EvYield v ::
          Streaming.EvAsend g sent
            (Streaming.pull_bound timeout_arg kw_deadline (Some r)) ::
          Streaming.trace s)
         (Streaming.last_exc s) (Streaming.subgenerator s)
         (Some (r - (t' - t))%Q) (Some t)).
Proof. intros. eapply forward_absorbed; eassumption. Qed.

(** The theorem on a stream that yields 1 and 2 and answers what is
    thrown into it with 99: the consumer, who throws at 1, receives 1
    and 2 and never 99. *)
Lemma absorbed_injection_drops_value_witness :
  let E := Scenarios.absorbing_env Scenarios.streams_12_3 in
  let s := Streaming.mkState
             (Scenarios.mkGenWorld 0 1 0 [Streaming.Throw (AppError 5)])
             [Streaming.EvOpen 0%nat] None (Some 0%nat) (Some 10%Q) None in
  Streaming.yields (Streaming.trace (snd
    (Streaming.forward E (Some 10%Q) None 2 0%nat None s)))
  = [1%nat; 2%nat].
Proof.
  intros E s.
  pose (wa := Scenarios.mkGenWorld 0 1 0 [Streaming.Throw (V:=nat) (AppError 5)]).
  pose (wb := Scenarios.mkGenWorld 1 1 1 [Streaming.Throw (V:=nat) (AppError 5)]).
  pose (wc := Scenarios.mkGenWorld 1 1 1 []).
  rewrite (@absorbed_injection_drops_value _ _ _ E (Some 10%Q) None 1%nat
             0%nat None s 10%Q 0%Q wa 1%nat wb 1%Q wb (AppError 5) wc 99%nat wc
             eq_refl eq_refl eq_refl eq_refl eq_refl eq_refl eq_refl eq_refl
             eq_refl).
  reflexivity.
Defined.

(** X10.  When a pull finds the stream exhausted, the run ends normally
    after closing the stream, whatever the classifier says of
    [StopAsyncIteration]: exhaustion is never retried, and the time of
    that last pull is not charged to the budget. *)
Theorem exhaustion_ends_run_for_every_classifier (W H V : Type)
    (E : Streaming.env W H V) (predicate : exn -> bool)
    (timeout_arg : option Q) (kw_deadline : option (option Q))
    fuel g sent s r t w1 w2 w3 :
  Streaming.subgenerator s = Some g ->
  Streaming.remaining_timeout_budget s = Some r ->
  (0 < r)%Q ->
  Streaming.utcnow E (Streaming.world s) = (t, w1) ->
  Streaming.asend E g sent (Streaming.pull_bound timeout_arg kw_deadline (Some r)) w1
    = (inl StopAsyncIteration, w2) ->
  Streaming.aclose E g w2 = (None, w3) ->
  Streaming.try_statement E predicate
    (Streaming.forward E timeout_arg kw_deadline (S fuel) g sent) s
  = (Streaming.Return,
     Streaming.mkState w3
       (Streaming.EvAclose g ::
        Streaming.EvAsend g sent
          (Streaming.pull_bound timeout_arg kw_deadline (Some r)) ::
        Streaming.trace s)
       (Streaming.last_exc s) (Some g) (Some r) (Some t)).
Proof.
  intros Hg Hb Hr Hnow Hpull Hclose.
  pose proof (@forward_pull_raises W H V E timeout_arg kw_deadline fuel g sent s
                r t w1 StopAsyncIteration w2 Hb Hr Hnow Hpull) as Hbody.
  rewrite (@try_statement_raise _ _ _ E predicate _ _ _ _ Hbody).
  unfold Streaming.dispatch. cbn [is_StopAsyncIteration].
  unfold Streaming.gen_return, Streaming.finally_, Streaming.await_aclose,
    Streaming.log, Streaming.with_world.
  cbn -[Streaming.pull_bound]. rewrite Hg, Hclose. reflexivity.
Qed.

(** The theorem on a stream with nothing to yield, under a classifier
    that accepts everything. *)
Lemma exhaustion_ends_run_for_every_classifier_witness :
  let E := Scenarios.gen_env Scenarios.streams_12_3 in
  let s := Streaming.mkState (Scenarios.mkGenWorld 0 3 0 [])
             [Streaming.EvOpen 2%nat] None (Some 2%nat) (Some 10%Q) None in
  Scenarios.always StopAsyncIteration = true /\
  fst (Streaming.try_statement E Scenarios.always
         (Streaming.forward E (Some 10%Q) None 5 2%nat None) s)
  = Streaming.Return.
Proof.
  intros E s. split; [reflexivity|].
  pose (wa := Scenarios.mkGenWorld 0 3 0 []).
  rewrite (@exhaustion_ends_run_for_every_classifier _ _ _ E Scenarios.always
             (Some 10%Q) None 4%nat 2%nat None s 10%Q 0%Q wa wa wa
             eq_refl eq_refl eq_refl eq_refl eq_refl eq_refl).
  reflexivity.
Defined.

(** X11.  Cancellation.  The single-shot executor catches [Exception]
    only: an error outside that class, such as a cancellation, ends the
    run at once whatever the classifier says of it.  The streaming
    executor also catches [CancelledError]: when a pull is cancelled
    and the classifier accepts the cancellation, it is recorded as the
    last error and the run goes on to the backoff. *)
Theorem cancellation_single_shot_vs_streaming :
  (forall (W V : Type) (E : SingleShot.env W V) (predicate : exn -> bool)
      (sleep_generator : nat -> option Q) (timeout : option Q)
      fuel i dl last tr w sleep bound w1 e w2,
      sleep_generator i = Some sleep ->
      SingleShot.attempt_bound E dl w = (bound, w1) ->
      SingleShot.target E bound w1 = (inl e, w2) ->
      is_Exception e = false ->
      SingleShot.retry_loop E predicate sleep_generator timeout (S fuel) i dl
        last tr w
      = SingleShot.mkRun (SingleShot.Raised e) (SingleShot.EvCall bound :: tr) w2) /\
  (forall (W H V : Type) (E : Streaming.env W H V) (predicate : exn -> bool)
      (timeout_arg : option Q) (kw_deadline : option (option Q))
      fuel g sent s r t w1 w2 t' w3 w4,
      Streaming.subgenerator s = Some g ->
      Streaming.remaining_timeout_budget s = Some r ->
      (0 < r)%Q ->
      Streaming.utcnow E (Streaming.world s) = (t, w1) ->
      Streaming.asend E g sent
        (Streaming.pull_bound timeout_arg kw_deadline (Some r)) w1
        = (inl CancelledError, w2) ->
      predicate CancelledError = true ->
      Streaming.utcnow E w2 = (t', w3) ->
      Streaming.aclose E g w3 = (None, w4) ->
      Streaming.try_statement E predicate
        (Streaming.forward E timeout_arg kw_deadline (S fuel) g sent) s
      = (Streaming.Normal tt,
         Streaming.mkState w4
           (Streaming.EvAclose g ::
            Streaming.EvAsend g sent
              (Streaming.pull_bound timeout_arg kw_deadline (Some r)) ::
            Streaming.trace s)
           (Some CancelledError) (Some g) (Some (r - (t' - t))%Q) (Some t))).
Proof.
  split.
  - intros. eapply retry_loop_base_exception; eassumption.
  - intros W H V E predicate timeout_arg kw_deadline
      fuel g sent s r t w1 w2 t' w3 w4 Hg Hb Hr Hnow Hpull Hacc Hnow' Hclose.
    pose proof (@forward_pull_raises W H V E timeout_arg kw_deadline fuel g sent s
                  r t w1 CancelledError w2 Hb Hr Hnow Hpull) as Hbody.
    rewrite (@try_statement_raise _ _ _ E predicate _ _ _ _ Hbody).
    unfold Streaming.dispatch, Streaming.handle.
    cbn [is_StopAsyncIteration is_Exception is_CancelledError orb
         is_TimeoutError negb]. rewrite Hacc. cbn [negb andb].
    unfold Streaming.bind, Streaming.set_last_exc, Streaming.charge_elapsed,
      Streaming.bind, Streaming.get_budget, Streaming.now_,
      Streaming.read_start_timestamp, Streaming.set_budget,
      Streaming.finally_, Streaming.await_aclose, Streaming.log,
      Streaming.with_world.
    cbn -[Qminus Streaming.pull_bound]. rewrite Hnow'.
    cbn -[Qminus Streaming.pull_bound]. rewrite Hg, Hclose. reflexivity.
Qed.

(** The theorem on an operation and on a stream that are cancelled
    after one second, under a classifier that accepts everything: the
    single-shot run raises the cancellation, the streaming attempt
    falls through to the backoff. *)
Lemma cancellation_single_shot_vs_streaming_witness :
  SingleShot.result
    (SingleShot.retry_loop Scenarios.op_env Scenarios.always
       Scenarios.every_second None 5 0 None None [] Scenarios.op_cancelled)
  = SingleShot.Raised CancelledError /\
  fst (Streaming.try_statement (Scenarios.gen_env Scenarios.streams_cancelled)
         Scenarios.always
         (Streaming.forward (Scenarios.gen_env Scenarios.streams_cancelled)
            (Some 10%Q) None 5 0%nat None)
         (Streaming.mkState (Scenarios.mkGenWorld 0 1 0 [])
            [Streaming.EvOpen 0%nat] None (Some 0%nat) (Some 10%Q) None))
  = Streaming.Normal tt.
Proof.
  split.
  - rewrite (proj1 cancellation_single_shot_vs_streaming _ _ Scenarios.op_env
               Scenarios.always Scenarios.every_second None 4%nat 0%nat None
               None [] Scenarios.op_cancelled 1%Q None Scenarios.op_cancelled
               CancelledError (Scenarios.mkOpWorld 1 [])
               eq_refl eq_refl eq_refl eq_refl).
    reflexivity.
  - pose (wa := Scenarios.mkGenWorld 0 1 0 []).
    pose (wb := Scenarios.mkGenWorld 1 1 1 []).
    rewrite (proj2 cancellation_single_shot_vs_streaming _ _ _
               (Scenarios.gen_env Scenarios.streams_cancelled) Scenarios.always
               (Some 10%Q) None 4%nat 0%nat None
               (Streaming.mkState (Scenarios.mkGenWorld 0 1 0 [])
                  [Streaming.EvOpen 0%nat] None (Some 0%nat) (Some 10%Q) None)
               10%Q 0%Q wa wb 1%Q wb wb
               eq_refl eq_refl eq_refl eq_refl eq_refl eq_refl eq_refl eq_refl).
    reflexivity.
Defined.

(** ** Further properties of the policy *)

(** X12.  Every policy derived by [with_timeout], [with_deadline],
    [with_predicate] or [with_delay] has [is_generator] unset, whatever
    the original had: the wrappers it makes are chosen by inspection
    of the wrapped function alone. *)
Theorem derived_policy_routes_by_inspection (W H V : Type)
    (R : Wrap.runtime W H V)
    (exponential_sleep_generator : Q -> Q -> Q -> nat -> option Q)
    (h : Policy.store (Wrap.hook W V)) (p : Policy.ref)
    (o : Policy.AsyncRetry (Wrap.hook W V)) :
  Policy.deref h p = Some o ->
  (forall t, exists o',
      Policy.derives h p (Policy.with_timeout p t h) o' /\
      Wrap.routes_by_inspection R exponential_sleep_generator o') /\
  (forall d, exists o',
      Policy.derives h p (Policy.with_deadline p d h) o' /\
      Wrap.routes_by_inspection R exponential_sleep_generator o') /\
  (forall pr, exists o',
      Policy.derives h p (Policy.with_predicate p pr h) o' /\
      Wrap.routes_by_inspection R exponential_sleep_generator o') /\
  (forall i m mu, exists o',
      Policy.derives h p (Policy.with_delay p i m mu h) o' /\
      Wrap.routes_by_inspection R exponential_sleep_generator o').
Proof.
  intros Hp.
  assert (Hroute : forall pr i m mu t oe,
            Wrap.routes_by_inspection R exponential_sleep_generator
              (Policy.__init__ (or_obj pr (Policy._predicate o))
                 (or_num i (Policy._initial o)) (or_num m (Policy._maximum o))
                 (or_num mu (Policy._multiplier o)) (or_opt t (Policy._timeout o))
                 (or_obj_opt oe (Policy._on_error o)) None None)).
  { intros. split; [reflexivity|]. intros f on_error.
    unfold Wrap.__call__, Wrap.use_generator. cbn.
    destruct (Wrap.isasyncgenfunction f); reflexivity. }
  repeat split; intros; eexists; (split; [apply replace_derives; exact Hp | apply Hroute]).
Qed.

(** The theorem on a policy made with [is_generator=True]: after
    [with_timeout(5)] a function that is not an async generator
    function gets the single-shot wrapper. *)
Lemma derived_policy_routes_by_inspection_witness :
  Policy.deref [Scenarios.p_forced] 0 = Some Scenarios.p_forced /\
  Policy._is_generator Scenarios.p_forced = Some true /\
  exists o',
    Policy.derives [Scenarios.p_forced] 0
      (Policy.with_timeout 0 (Some 5%Q) [Scenarios.p_forced]) o' /\
    Policy._is_generator o' = None.
Proof.
  split; [reflexivity|]. split; [reflexivity|].
  destruct (@derived_policy_routes_by_inspection _ _ _
              (Wrap.mkRuntime
                 (Streaming.utcnow (Scenarios.gen_env []))
                 (Streaming.asleep (Scenarios.gen_env []))
                 (Streaming.asend (Scenarios.gen_env []))
                 (Streaming.athrow (Scenarios.gen_env []))
                 (Streaming.aclose (Scenarios.gen_env []))
                 (Streaming.consumer (Scenarios.gen_env [])))
              (fun _ _ _ => Scenarios.every_second)
              [Scenarios.p_forced] 0%nat Scenarios.p_forced eq_refl)
    as [Ht _].
  destruct (Ht (Some 5%Q)) as [o' [Hd [Hg _]]].
  exists o'. split; [exact Hd | exact Hg].
Defined.

(** X13.  A policy that has a timeout keeps having one: whatever is
    passed to [with_timeout] or [with_deadline], the new policy has a
    timeout that is neither [None] nor zero, it is the old one when
    the argument is [None] or zero, and its [deadline] attribute
    equals its timeout. *)
Theorem timeout_never_unset (Hook : Type) (h : Policy.store Hook)
    (p : Policy.ref) (o : Policy.AsyncRetry Hook) :
  Policy.deref h p = Some o ->
  truthy_opt (Policy._timeout o) = true ->
  forall t res,
    res = Policy.with_timeout p t h \/ res = Policy.with_deadline p t h ->
    exists o',
      Policy.derives h p res o' /\
      truthy_opt (Policy._timeout o') = true /\
      (truthy_opt t = false -> Policy._timeout o' = Policy._timeout o) /\
      Policy._deadline o' = Policy._timeout o'.
Proof.
  intros Hp Ht t res Hres.
  exists (Policy.__init__ (or_obj None (Policy._predicate o))
            (or_num None (Policy._initial o)) (or_num None (Policy._maximum o))
            (or_num None (Policy._multiplier o)) (or_opt t (Policy._timeout o))
            (or_obj_opt None (Policy._on_error o)) None None).
  split.
  - destruct Hres as [-> | ->]; apply replace_derives; exact Hp.
  - cbn. unfold or_opt. destruct (truthy_opt t) eqn:Htt.
    + repeat split; auto. discriminate.
    + repeat split; auto.
Qed.

(** The theorem on the policy [p0] of timeout 120: [with_timeout(None)]
    gives a policy of timeout 120. *)
Lemma timeout_never_unset_witness :
  Policy.deref Scenarios.store0 0 = Some Scenarios.p0 /\
  truthy_opt (Policy._timeout Scenarios.p0) = true /\
  exists o',
    Policy.derives Scenarios.store0 0
      (Policy.with_timeout 0 None Scenarios.store0) o' /\
    Policy._timeout o' = Some 120%Q.
Proof.
  split; [reflexivity|]. split; [reflexivity|].
  destruct (@timeout_never_unset unit Scenarios.store0 0%nat Scenarios.p0
              eq_refl eq_refl None _ (or_introl eq_refl))
    as [o' [Hd [_ [Hkeep _]]]].
  exists o'. split; [exact Hd | exact (Hkeep eq_refl)].
Defined.

(** What [_replace] returns, spelled out. *)
Lemma replace_eq (Hook : Type) (h : Policy.store Hook) p o pr i m mu t oe :
  Policy.deref h p = Some o ->
  Policy._replace p pr i m mu t oe h
  = Some (length h,
          h ++ [Policy.__init__ (or_obj pr (Policy._predicate o))
                  (or_num i (Policy._initial o)) (or_num m (Policy._maximum o))
                  (or_num mu (Policy._multiplier o))
                  (or_opt t (Policy._timeout o))
                  (or_obj_opt oe (Policy._on_error o)) None None]).
Proof. intros Hp. unfold Policy._replace. rewrite Hp. reflexivity. Qed.

Lemma deref_last (Hook : Type) (h : Policy.store Hook) x :
  Policy.deref (h ++ [x]) (length h) = Some x.
Proof. exact (deref_alloc_new h x). Qed.

(** X14.  [with_timeout] and [with_delay] commute: applied in either
    order to a policy they end in equal policies. *)
Theorem with_timeout_with_delay_commute (Hook : Type) (h : Policy.store Hook)
    (p : Policy.ref) (o : Policy.AsyncRetry Hook) t i m mu :
  Policy.deref h p = Some o ->
  exists r1 h1 r2 h2 r1' h1' r2' h2' o'',
    Policy.with_timeout p t h = Some (r1, h1) /\
    Policy.with_delay r1 i m mu h1 = Some (r2, h2) /\
    Policy.with_delay p i m mu h = Some (r1', h1') /\
    Policy.with_timeout r1' t h1' = Some (r2', h2') /\
    Policy.deref h2 r2 = Some o'' /\
    Policy.deref h2' r2' = Some o''.
Proof.
  intros Hp. unfold Policy.with_timeout, Policy.with_delay.
  eexists _, _, _, _, _, _, _, _, _.
  split; [apply replace_eq; exact Hp|].
  split; [apply replace_eq; apply deref_last|].
  split; [apply replace_eq; exact Hp|].
  split; [apply replace_eq; apply deref_last|].
  split; [apply deref_last|].
  rewrite deref_last. cbn. reflexivity.
Qed.

(** The theorem on the policy [p0]. *)
Lemma with_timeout_with_delay_commute_witness :
  Policy.deref Scenarios.store0 0 = Some Scenarios.p0 /\
  exists r1 h1 r2 h2 o'',
    Policy.with_timeout 0 (Some 5%Q) Scenarios.store0 = Some (r1, h1) /\
    Policy.with_delay r1 (Some 3%Q) None None h1 = Some (r2, h2) /\
    Policy.deref h2 r2 = Some o''.
Proof.
  split; [reflexivity|].
  destruct (@with_timeout_with_delay_commute unit Scenarios.store0 0%nat
              Scenarios.p0 (Some 5%Q) (Some 3%Q) None None eq_refl)
    as (r1 & h1 & r2 & h2 & _ & _ & _ & _ & o'' & H1 & H2 & _ & _ & H3 & _).
  exists r1, h1, r2, h2, o''. repeat split; assumption.
Defined.

(** X15.  A policy that holds a hook ignores the hook given when a
    function is wrapped, and so does every policy derived from it by
    [with_timeout], [with_predicate] or [with_delay], which keep the
    hook: wrapping with or without a hook of one's own gives the same
    wrapper. *)
Theorem policy_hook_overrides_call_hook (W H V : Type)
    (R : Wrap.runtime W H V)
    (exponential_sleep_generator : Q -> Q -> Q -> nat -> option Q)
    (h : Policy.store (Wrap.hook W V)) (p : Policy.ref)
    (o : Policy.AsyncRetry (Wrap.hook W V)) (hk : Wrap.hook W V) :
  Policy.deref h p = Some o ->
  Policy._on_error o = Some hk ->
  Wrap.ignores_call_hook R exponential_sleep_generator o /\
  (forall t, exists o',
      Policy.derives h p (Policy.with_timeout p t h) o' /\
      Policy._on_error o' = Some hk /\
      Wrap.ignores_call_hook R exponential_sleep_generator o') /\
  (forall pr, exists o',
      Policy.derives h p (Policy.with_predicate p pr h) o' /\
      Policy._on_error o' = Some hk /\
      Wrap.ignores_call_hook R exponential_sleep_generator o') /\
  (forall i m mu, exists o',
      Policy.derives h p (Policy.with_delay p i m mu h) o' /\
      Policy._on_error o' = Some hk /\
      Wrap.ignores_call_hook R exponential_sleep_generator o').
Proof.
  intros Hp Hh.
  assert (Hignore : forall o1 : Policy.AsyncRetry (Wrap.hook W V),
            Policy._on_error o1 = Some hk ->
            Wrap.ignores_call_hook R exponential_sleep_generator o1).
  { intros o1 H1 f on_error. unfold Wrap.__call__, Wrap.effective_on_error.
    rewrite H1. reflexivity. }
  split; [apply Hignore; exact Hh|].
  repeat split; intros; eexists;
    (split; [apply replace_derives; exact Hp|]);
    (split; [cbn; rewrite Hh; reflexivity | apply Hignore; cbn; rewrite Hh; reflexivity]).
Qed.

(** The theorem on a policy that holds a hook. *)
Lemma policy_hook_overrides_call_hook_witness :
  Policy.deref [Scenarios.p_hooked] 0 = Some Scenarios.p_hooked /\
  Policy._on_error Scenarios.p_hooked = Some Scenarios.quiet_hook /\
  exists o',
    Policy.derives [Scenarios.p_hooked] 0
      (Policy.with_timeout 0 (Some 5%Q) [Scenarios.p_hooked]) o' /\
    Policy._on_error o' = Some Scenarios.quiet_hook.
Proof.
  split; [reflexivity|]. split; [reflexivity|].
  destruct (@policy_hook_overrides_call_hook _ _ _
              (Wrap.mkRuntime
                 (Streaming.utcnow (Scenarios.gen_env []))
                 (Streaming.asleep (Scenarios.gen_env []))
                 (Streaming.asend (Scenarios.gen_env []))
                 (Streaming.athrow (Scenarios.gen_env []))
                 (Streaming.aclose (Scenarios.gen_env []))
                 (Streaming.consumer (Scenarios.gen_env [])))
              (fun _ _ _ => Scenarios.every_second)
              [Scenarios.p_hooked] 0%nat Scenarios.p_hooked Scenarios.quiet_hook
              eq_refl eq_refl)
    as [_ [Ht _]].
  destruct (Ht (Some 5%Q)) as [o' [Hd [Hk _]]].
  exists o'. split; [exact Hd | exact Hk].
Defined.

(** X16.  Printing a policy raises [TypeError] exactly when its
    timeout is [None].  Such a policy stays unprintable through
    [with_delay] and [with_predicate]; [with_timeout] with a timeout
    that is neither [None] nor zero makes it printable. *)
Theorem str_fails_without_timeout (Hook : Type)
    (fixed1 : Q -> String.string)
    (show_predicate : (exn -> bool) -> String.string)
    (show_hook : option Hook -> String.string) :
  (forall o : Policy.AsyncRetry Hook,
      Text.__str__ fixed1 show_predicate show_hook o = inl TypeError <->
      Policy._timeout o = None) /\
  (forall (h : Policy.store Hook) p o,
      Policy.deref h p = Some o ->
      Policy._timeout o = None ->
      (forall i m mu, exists o',
          Policy.derives h p (Policy.with_delay p i m mu h) o' /\
          Text.__str__ fixed1 show_predicate show_hook o' = inl TypeError) /\
      (forall pr, exists o',
          Policy.derives h p (Policy.with_predicate p pr h) o' /\
          Text.__str__ fixed1 show_predicate show_hook o' = inl TypeError) /\
      (forall t, truthy t = true -> exists o' text,
          Policy.derives h p (Policy.with_timeout p (Some t) h) o' /\
          Text.__str__ fixed1 show_predicate show_hook o' = inr text)).
Proof.
  split.
  - intros o. unfold Text.__str__, Text.format_1f.
    destruct (Policy._timeout o); split; intros Heq;
      try discriminate; reflexivity.
  - intros h p o Hp Hnone. repeat split; intros.
    + eexists. split; [apply replace_derives; exact Hp|].
      unfold Text.__str__. cbn. rewrite Hnone. reflexivity.
    + eexists. split; [apply replace_derives; exact Hp|].
      unfold Text.__str__. cbn. rewrite Hnone. reflexivity.
    + eexists. eexists. split; [apply replace_derives; exact Hp|].
      unfold Text.__str__. cbn [Policy._timeout Policy.__init__ kwargs_get_deadline].
      unfold or_opt. cbn [truthy_opt]. rewrite H. cbn [Text.format_1f].
      reflexivity.
Qed.

(** The theorem on the policy [p_unlimited], made with
    [timeout=None]. *)
Lemma str_fails_without_timeout_witness :
  Policy._timeout Scenarios.p_unlimited = None /\
  Text.__str__ (fun _ => String.EmptyString) (fun _ => String.EmptyString)
    (fun _ => String.EmptyString) Scenarios.p_unlimited
  = inl TypeError.
Proof.
  split; [reflexivity|].
  apply (proj1 (@str_fails_without_timeout unit (fun _ => String.EmptyString)
                  (fun _ => String.EmptyString) (fun _ => String.EmptyString))
           Scenarios.p_unlimited).
  reflexivity.
Defined.

(** ** Hooks, schedules and charges *)

(** X17.  A streaming run sleeps exactly the values of the sleep
    generator, in order and never shortened: its [j]-th sleep is the
    [j]-th value. *)
Theorem streaming_sleeps_follow_generator (W H V : Type)
    (E : Streaming.env W H V) (predicate : exn -> bool)
    (sleep_generator : nat -> option Q) (timeout_arg : option Q)
    (kw_deadline : option (option Q)) (fuel : nat) (w : W) (j : nat) (d : Q) :
  nth_error (Accounting.stream_sleeps (Streaming.trace (snd
    (Streaming.retry_target_generator E predicate sleep_generator
       timeout_arg kw_deadline fuel w)))) j = Some d ->
  sleep_generator j = Some d.
Proof.
  unfold Streaming.retry_target_generator.
  destruct (@retry_loop_on_schedule W H V E predicate sleep_generator
              timeout_arg kw_deadline fuel 0%nat
              (@Streaming.initial_state W H V timeout_arg kw_deadline w))
    as [k [_ Hnth]].
  - split; [reflexivity|]. intros j' d' Hj. destruct j'; discriminate.
  - apply Hnth.
Qed.

(** The theorem on streams that keep failing, under a doubling
    backoff: the third sleep is of four seconds. *)
Lemma streaming_sleeps_follow_generator_witness :
  nth_error (Accounting.stream_sleeps (Streaming.trace (snd
    (Streaming.retry_target_generator Scenarios.failing_env
       Scenarios.if_app_error Scenarios.doubling (Some 100%Q) None 10 0%Q))))
    2 = Some 4%Q /\
  Scenarios.doubling 2 = Some 4%Q.
Proof.
  assert (Hrun : nth_error (Accounting.stream_sleeps (Streaming.trace (snd
            (Streaming.retry_target_generator Scenarios.failing_env
               Scenarios.if_app_error Scenarios.doubling (Some 100%Q) None 10 0%Q))))
            2 = Some 4%Q) by (vm_compute; reflexivity).
  split; [exact Hrun|].
  exact (@streaming_sleeps_follow_generator _ _ _ Scenarios.failing_env
           Scenarios.if_app_error Scenarios.doubling (Some 100%Q) None
           10%nat 0%Q 2%nat 4%Q Hrun).
Defined.

(** X18.  An error raised by the hook is not caught, in either
    executor: after an attempt that failed with an error taken as
    retryable, a hook that raises ends the run with its own error,
    before any sleep and without another attempt. *)
Theorem hook_errors_are_not_caught :
  (forall (W V : Type) (E : SingleShot.env W V) (predicate : exn -> bool)
      (sleep_generator : nat -> option Q) (timeout : option Q)
      fuel i dl last tr w sleep bound w1 exc w2 hook e' w3,
      sleep_generator i = Some sleep ->
      SingleShot.attempt_bound E dl w = (bound, w1) ->
      SingleShot.target E bound w1 = (inl exc, w2) ->
      is_Exception exc = true ->
      predicate exc || is_TimeoutError exc = true ->
      SingleShot.on_error E = Some hook ->
      hook exc w2 = (Some e', w3) ->
      SingleShot.retry_loop E predicate sleep_generator timeout (S fuel) i dl
        last tr w
      = SingleShot.mkRun (SingleShot.Raised e')
          (SingleShot.EvOnError exc :: SingleShot.EvCall bound :: tr) w3) /\
  (forall (W H V : Type) (E : Streaming.env W H V) (predicate : exn -> bool)
      (sleep_generator : nat -> option Q) (timeout_arg : option Q)
      (kw_deadline : option (option Q)) fuel i s sleep s1 hook e' w',
      sleep_generator i = Some sleep ->
      Streaming.attempt E predicate timeout_arg kw_deadline fuel s
        = (Streaming.Normal tt, s1) ->
      Streaming.on_error E = Some hook ->
      hook (Streaming.last_exc s1) (Streaming.world s1) = (inl e', w') ->
      Streaming.retry_loop E predicate sleep_generator timeout_arg kw_deadline
        (S fuel) i s
      = (Streaming.Raise e',
         Streaming.mkState w'
           (Streaming.EvOnError (Streaming.last_exc s1) :: Streaming.trace s1)
           (Streaming.last_exc s1) (Streaming.subgenerator s1)
           (Streaming.remaining_timeout_budget s1)
           (Streaming.start_timestamp s1))).
Proof.
  split.
  - intros W V E predicate sleep_generator timeout
      fuel i dl last tr w sleep bound w1 exc w2 hook e' w3
      Hs Hb Ht Hex Hacc Hhook Hraise.
    cbn [SingleShot.retry_loop]. rewrite Hs, Hb, Ht, Hex. cbn [negb].
    replace (negb (predicate exc) && negb (is_TimeoutError exc)) with false
      by (rewrite <- negb_orb, Hacc; reflexivity).
    unfold SingleShot.call_on_error. rewrite Hhook, Hraise. reflexivity.
  - intros W H V E predicate sleep_generator timeout_arg kw_deadline
      fuel i s sleep s1 hook e' w' Hs Ha Hhook Hraise.
    cbn [Streaming.retry_loop]. rewrite Hs.
    unfold Streaming.bind at 1. rewrite Ha.
    unfold Streaming.bind at 1. unfold Streaming.report_error.
    rewrite Hhook, Hraise. reflexivity.
Qed.

(** The theorem on an operation and on a stream that fail with a
    retryable error, under hooks that raise [ValueError]. *)
Lemma hook_errors_are_not_caught_witness :
  SingleShot.result
    (SingleShot.retry_loop Scenarios.op_env_hooked Scenarios.if_app_error
       Scenarios.every_second None 5 0 None None [] Scenarios.op_third_time)
  = SingleShot.Raised ValueError /\
  fst (Streaming.retry_loop
         (Scenarios.hooked_env Scenarios.streams_fail_then_1 Scenarios.raising_hook)
         Scenarios.if_app_error Scenarios.every_second (Some 10%Q) None 5 0
         (@Streaming.initial_state _ nat nat (Some 10%Q) None Scenarios.iterating))
  = Streaming.Raise ValueError.
Proof.
  split.
  - rewrite (proj1 hook_errors_are_not_caught _ _ Scenarios.op_env_hooked
               Scenarios.if_app_error Scenarios.every_second None 4%nat 0%nat
               None None [] Scenarios.op_third_time 1%Q None
               Scenarios.op_third_time (AppError 1)
               (Scenarios.mkOpWorld 1 [(1%Q, inl (AppError 2)); (1%Q, inr 7%nat)])
               (fun _ w => (Some ValueError, w)) ValueError
               (Scenarios.mkOpWorld 1 [(1%Q, inl (AppError 2)); (1%Q, inr 7%nat)])
               eq_refl eq_refl eq_refl eq_refl eq_refl eq_refl eq_refl).
    reflexivity.
  - rewrite (proj2 hook_errors_are_not_caught _ _ _
               (Scenarios.hooked_env Scenarios.streams_fail_then_1
                  Scenarios.raising_hook)
               Scenarios.if_app_error Scenarios.every_second (Some 10%Q) None
               4%nat 0%nat
               (@Streaming.initial_state _ nat nat (Some 10%Q) None
                  Scenarios.iterating)
               1%Q
               (Streaming.mkState (Scenarios.mkGenWorld 1 1 1 [])
                  [Streaming.EvAclose 0%nat;
                   Streaming.EvAsend 0%nat None (Some 10%Q);
                   Streaming.EvOpen 0%nat]
                  (Some (AppError 1)) (Some 0%nat) (Some 9%Q) (Some 0%Q))
               Scenarios.raising_hook ValueError (Scenarios.mkGenWorld 1 1 1 [])
               eq_refl eq_refl eq_refl eq_refl).
    reflexivity.
Defined.

(** X19.  What the hook of a streaming run returns, unless it is
    [None], is yielded to the consumer as a value of the stream, after
    the attempt and before the backoff (no [aclose()] of the consumer
    being under way).  If the consumer replies by sending, the run goes
    on to the backoff; if it throws an error at that value, or closes
    the wrapper, that ends the run and nothing is passed to any
    stream. *)
Theorem hook_result_is_yielded (W H V : Type)
    (E : Streaming.env W H V) (predicate : exn -> bool)
    (sleep_generator : nat -> option Q) (timeout_arg : option Q)
    (kw_deadline : option (option Q)) fuel i s sleep s1 hook v w' reply w'' :
  sleep_generator i = Some sleep ->
  Streaming.attempt E predicate timeout_arg kw_deadline fuel s
    = (Streaming.Normal tt, s1) ->
  Streaming.closing (Streaming.trace s1) = false ->
  Streaming.on_error E = Some hook ->
  hook (Streaming.last_exc s1) (Streaming.world s1) = (inr (Some v), w') ->
  Streaming.consumer E v w' = (reply, w'') ->
  let s2 := Streaming.mkState w''
              (Streaming.EvYield v ::
               Streaming.EvOnError (Streaming.last_exc s1) :: Streaming.trace s1)
              (Streaming.last_exc s1) (Streaming.subgenerator s1)
              (Streaming.remaining_timeout_budget s1)
              (Streaming.start_timestamp s1) in
  let run := Streaming.retry_loop E predicate sleep_generator timeout_arg
               kw_deadline in
  Streaming.open_stream (Streaming.trace s2) = Streaming.open_stream (Streaming.trace s1) /\
  (forall x, reply = Streaming.Send x ->
     run (S fuel) i s
     = Streaming.bind (Streaming.reserve_sleep timeout_arg kw_deadline sleep)
         (fun _ => Streaming.bind (Streaming.await_sleep E sleep)
                     (fun _ => run fuel (S i))) s2) /\
  (forall e, reply = Streaming.Throw e -> run (S fuel) i s = (Streaming.Raise e, s2)) /\
  (reply = Streaming.Close ->
   run (S fuel) i s
   = (Streaming.Raise GeneratorExit,
      Streaming.mkState w''
        (Streaming.EvClosing :: Streaming.trace s2)
        (Streaming.last_exc s1) (Streaming.subgenerator s1)
        (Streaming.remaining_timeout_budget s1)
        (Streaming.start_timestamp s1))).
Proof.
  intros Hs Ha Hcl Hhook Hret Hcons s2 run.
  split; [reflexivity|].
  assert (Hstep : forall c s3,
            Streaming.yield_ E v
              (Streaming.with_world w'
                 (Streaming.log (Streaming.EvOnError (Streaming.last_exc s1)) s1))
            = (c, s3) ->
            run (S fuel) i s
            = match c with
              | Streaming.Normal _ =>
                  Streaming.bind (Streaming.reserve_sleep timeout_arg kw_deadline sleep)
                    (fun _ => Streaming.bind (Streaming.await_sleep E sleep)
                                (fun _ => run fuel (S i))) s3
              | Streaming.Raise e => (Streaming.Raise e, s3)
              | Streaming.Return => (Streaming.Return, s3)
              | Streaming.Suspended => (Streaming.Suspended, s3)
              | Streaming.Fuel => (Streaming.Fuel, s3)
              end).
  { intros c s3 Hy. subst run. cbn [Streaming.retry_loop]. rewrite Hs.
    unfold Streaming.bind at 1. rewrite Ha.
    unfold Streaming.bind at 1. unfold Streaming.report_error.
    rewrite Hhook, Hret. unfold Streaming.bind at 1. rewrite Hy.
    destruct c; reflexivity. }
  unfold Streaming.closing in Hcl.
  repeat split.
  - intros x ->. apply (Hstep (Streaming.Normal x)).
    unfold Streaming.yield_, Streaming.with_world, Streaming.log,
      Streaming.closing.
    cbn. rewrite Hcl, Hcons. reflexivity.
  - intros e ->. apply (Hstep (Streaming.Raise e)).
    unfold Streaming.yield_, Streaming.with_world, Streaming.log,
      Streaming.closing.
    cbn. rewrite Hcl, Hcons. reflexivity.
  - intros ->. apply (Hstep (Streaming.Raise GeneratorExit)).
    unfold Streaming.yield_, Streaming.with_world, Streaming.log,
      Streaming.closing.
    cbn. rewrite Hcl, Hcons. reflexivity.
Qed.

(** The theorem on a stream that fails its first pull, under a hook
    that returns the value 0 and a consumer that throws [AppError 5] at
    the first value it receives: the run ends with [AppError 5], which
    the classifier would have retried. *)
Lemma hook_result_is_yielded_witness :
  Streaming.retry_loop
    (Scenarios.hooked_env Scenarios.streams_fail_then_1 Scenarios.marking_hook)
    Scenarios.if_app_error Scenarios.every_second (Some 10%Q) None 5 0
    (@Streaming.initial_state _ nat nat (Some 10%Q) None Scenarios.injecting)
  = (Streaming.Raise (AppError 5),
     Streaming.mkState (Scenarios.mkGenWorld 1 1 1 [])
       [Streaming.EvYield 0%nat; Streaming.EvOnError (Some (AppError 1));
        Streaming.EvAclose 0%nat; Streaming.EvAsend 0%nat None (Some 10%Q);
        Streaming.EvOpen 0%nat]
       (Some (AppError 1)) (Some 0%nat) (Some 9%Q) (Some 0%Q)).
Proof.
  exact (proj1 (proj2 (proj2
    (@hook_result_is_yielded _ _ _
       (Scenarios.hooked_env Scenarios.streams_fail_then_1 Scenarios.marking_hook)
       Scenarios.if_app_error Scenarios.every_second (Some 10%Q) None
       4%nat 0%nat
       (@Streaming.initial_state _ nat nat (Some 10%Q) None Scenarios.injecting)
       1%Q
       (Streaming.mkState
          (Scenarios.mkGenWorld 1 1 1 [Streaming.Throw (AppError 5)])
          [Streaming.EvAclose 0%nat; Streaming.EvAsend 0%nat None (Some 10%Q);
           Streaming.EvOpen 0%nat]
          (Some (AppError 1)) (Some 0%nat) (Some 9%Q) (Some 0%Q))
       Scenarios.marking_hook 0%nat
       (Scenarios.mkGenWorld 1 1 1 [Streaming.Throw (AppError 5)])
       (Streaming.Throw (AppError 5))
       (Scenarios.mkGenWorld 1 1 1 [])
       eq_refl eq_refl eq_refl eq_refl eq_refl eq_refl)))
    (AppError 5) eq_refl).
Defined.

(** X20.  When the factory fails with a retryable error on an attempt
    after the first, the handler charges the budget with the time since
    the previous attempt's last pull began, which that pull and the
    backoff were already charged for, and the [finally] clause closes
    the previous attempt's stream once more. *)
Theorem later_factory_error_charges_from_last_pull (W H V : Type)
    (E : Streaming.env W H V) (predicate : exn -> bool)
    (timeout_arg : option Q) (kw_deadline : option (option Q))
    fuel s exc w1 r t0 g t w2 w3 :
  Streaming.target E (Streaming.world s) = (inl exc, w1) ->
  is_StopAsyncIteration exc = false ->
  is_Exception exc = true ->
  predicate exc = true ->
  Streaming.remaining_timeout_budget s = Some r ->
  Streaming.start_timestamp s = Some t0 ->
  Streaming.subgenerator s = Some g ->
  Streaming.utcnow E w1 = (t, w2) ->
  Streaming.aclose E g w2 = (None, w3) ->
  Streaming.attempt E predicate timeout_arg kw_deadline fuel s
  = (Streaming.Normal tt,
     Streaming.mkState w3
       (Streaming.EvAclose g :: Streaming.EvFactoryError exc :: Streaming.trace s)
       (Some exc) (Some g) (Some (r - (t - t0))%Q) (Some t0)).
Proof.
  intros Ht Hstop Hex Hp Hr Ht0 Hg Hnow Hclose.
  destruct s as [w tr le sg rb st0]. cbn in Ht, Hr, Ht0, Hg. subst rb st0 sg.
  unfold Streaming.attempt, Streaming.try_statement, Streaming.try_body.
  unfold Streaming.bind at 1. unfold Streaming.call_target.
  cbn. rewrite Ht. cbn.
  unfold Streaming.dispatch. rewrite Hstop, Hex. cbn.
  unfold Streaming.handle. rewrite Hp. cbn.
  unfold Streaming.bind, Streaming.now_. cbn. rewrite Hnow. cbn.
  unfold Streaming.await_aclose. cbn. rewrite Hclose. reflexivity.
Qed.

(** The theorem on a run with ten seconds of budget whose first stream
    fails a pull of one second and whose factory then raises: the state
    is the one the first iteration leaves, with eight seconds of
    budget, and the failed call leaves six. *)
Lemma later_factory_error_charges_from_last_pull_witness :
  snd (Streaming.bind
         (Streaming.attempt (Scenarios.gen_env Scenarios.streams_fail_then_no_stream)
            Scenarios.if_app_error (Some 10%Q) None 5)
         (fun _ => Streaming.bind
            (Streaming.reserve_sleep (Some 10%Q) None 1%Q)
            (fun _ => Streaming.await_sleep
               (Scenarios.gen_env Scenarios.streams_fail_then_no_stream) 1%Q))
         (@Streaming.initial_state _ nat nat (Some 10%Q) None Scenarios.iterating))
  = Scenarios.after_first_failure /\
  Streaming.attempt (Scenarios.gen_env Scenarios.streams_fail_then_no_stream)
    Scenarios.if_app_error (Some 10%Q) None 5 Scenarios.after_first_failure
  = (Streaming.Normal tt,
     Streaming.mkState (Scenarios.mkGenWorld 2 2 0 [])
       (Streaming.EvAclose 0%nat :: Streaming.EvFactoryError (AppError 2)
          :: Streaming.trace Scenarios.after_first_failure)
       (Some (AppError 2)) (Some 0%nat) (Some (8 - (2 - 0))%Q) (Some 0%Q)).
Proof.
  split; [vm_compute; reflexivity|].
  exact (@later_factory_error_charges_from_last_pull _ _ _
           (Scenarios.gen_env Scenarios.streams_fail_then_no_stream)
           Scenarios.if_app_error (Some 10%Q) None 5%nat
           Scenarios.after_first_failure (AppError 2)
           (Scenarios.mkGenWorld 2 2 0 []) 8%Q 0%Q 0%nat 2%Q
           (Scenarios.mkGenWorld 2 2 0 []) (Scenarios.mkGenWorld 2 2 0 [])
           eq_refl eq_refl eq_refl eq_refl eq_refl eq_refl eq_refl eq_refl
           eq_refl).
Defined.

(** ** Streams that close without error *)

Lemma tidy_env_ledger (streams : list (exn + Scenarios.stream_script)) :
  Accounting.ledger (Scenarios.tidy_env streams) Scenarios.live.
Proof.
  assert (Hfin : forall g l, incl (Scenarios.finish g l) l).
  { intros g l. apply incl_filter. }
  constructor; cbn.
  - intros w t w' Heq. injection Heq as _ <-. apply incl_refl.
  - intros w g w'. unfold Scenarios.ledger_target.
    destruct (Scenarios.gen_target streams (Scenarios.base w)) as [[e|k] b];
      intros Heq; [discriminate|].
    injection Heq as <- <-. apply incl_refl.
  - intros w e w'. unfold Scenarios.ledger_target.
    destruct (Scenarios.gen_target streams (Scenarios.base w)) as [[e0|k] b];
      intros Heq; [|discriminate].
    injection Heq as _ <-. apply incl_refl.
  - intros g sent b w r w'. unfold Scenarios.ledger_asend.
    destruct (Scenarios.gen_asend streams g sent b (Scenarios.base w)) as [[e|v] b0];
      intros Heq; injection Heq as _ <-; [apply Hfin | apply incl_refl].
  - intros g e w r w' Heq. unfold Scenarios.ledger_athrow in Heq.
    injection Heq as _ <-. apply Hfin.
  - intros g w r w' Heq. injection Heq as _ <-. apply Hfin.
  - intros g w w' Heq. injection Heq as <-. cbn.
    unfold Scenarios.finish. rewrite filter_In, Nat.eqb_refl.
    intros [_ Hne]. discriminate.
  - intros v w r w'. unfold Scenarios.ledger_consumer.
    destruct (Scenarios.gen_consumer v (Scenarios.base w)) as [r0 b].
    intros Heq. injection Heq as _ <-. apply incl_refl.
  - discriminate.
  - intros d w. apply incl_refl.
Qed.

(** X21.  Where closing a stream never fails, the invariant of one
    stream at a time holds on every way out.  With a ledger of the
    open streams that starts empty: the run is never left suspended;
    at any time the only stream that can be open is the one the
    generator holds; when the run has ended, by exhaustion, by an error
    of any kind, by the deadline, or because the consumer closed the
    wrapper or threw an error into it, no stream is open; and the
    factory is called only after [aclose()] was awaited on the stream
    before. *)
Theorem streams_released_when_close_succeeds (W H V : Type)
    (E : Streaming.env W H V) (predicate : exn -> bool)
    (sleep_generator : nat -> option Q) (timeout_arg : option Q)
    (kw_deadline : option (option Q)) (live : W -> list H)
    (fuel : nat) (w : W) :
  Accounting.ledger E live ->
  (forall g w0, fst (Streaming.aclose E g w0) = None) ->
  live w = [] ->
  let r := Streaming.retry_target_generator E predicate sleep_generator
             timeout_arg kw_deadline fuel w in
  fst r <> Streaming.Suspended /\
  (forall x, In x (live (Streaming.world (snd r))) ->
             Streaming.subgenerator (snd r) = Some x) /\
  (fst r <> Streaming.Fuel -> live (Streaming.world (snd r)) = []) /\
  Streaming.disciplined (Streaming.trace (snd r)).
Proof.
  intros HL Hclose Hw r. subst r. unfold Streaming.retry_target_generator.
  assert (Hnil : forall l : list H, (forall x, ~ In x l) -> l = []).
  { intros [|x l] Hl; [reflexivity|]. exfalso. apply (Hl x). left. reflexivity. }
  assert (Hinit : Accounting.none_open live
                    (@Streaming.initial_state W H V timeout_arg kw_deadline w) /\
                  Accounting.undisturbed
                    (@Streaming.initial_state W H V timeout_arg kw_deadline w)).
  { split; [|reflexivity]. intros x. cbn. rewrite Hw. intros []. }
  pose proof (@retry_loop_ledger W H V E predicate sleep_generator timeout_arg
                kw_deadline live HL Hclose fuel 0%nat _ Hinit) as Hrun.
  assert (Hclosed : Streaming.closed
                      (@Streaming.initial_state W H V timeout_arg kw_deadline w)).
  { repeat split. }
  pose proof (@retry_loop_closed W H V E predicate sleep_generator timeout_arg
                kw_deadline fuel 0%nat _ Hclosed) as Htrace.
  unfold Streaming.closed_if_ended, Streaming.closed, Streaming.tracked in Htrace.
  unfold Accounting.outside, Accounting.none_open, Accounting.only_held in Hrun.
  destruct (Streaming.retry_loop _ _ _ _ _ _ _ _) as [c s]. cbn [fst snd] in *.
  destruct c; try contradiction; repeat split;
    try discriminate; try tauto; try congruence;
    try (intros x Hx; exfalso; eapply Hrun; eassumption);
    try (intros _; apply Hnil; tauto).
Qed.

(** The theorem on the streams that yield 1 and then 3 and 4, with a
    consumer that closes the wrapper at the first value: the run ends
    normally and the ledger is empty. *)
Lemma streams_released_when_close_succeeds_witness :
  let r := Streaming.retry_target_generator
             (Scenarios.tidy_env Scenarios.streams_1_34)
             Scenarios.if_app_error Scenarios.every_second (Some 10%Q) None 20
             Scenarios.closing_cleanly in
  Scenarios.live Scenarios.closing_cleanly = [] /\
  fst r = Streaming.Return /\
  Scenarios.live (Streaming.world (snd r)) = [].
Proof.
  intros r.
  assert (Hend : fst r = Streaming.Return) by (vm_compute; reflexivity).
  split; [reflexivity|]. split; [exact Hend|].
  destruct (@streams_released_when_close_succeeds _ _ _
              (Scenarios.tidy_env Scenarios.streams_1_34)
              Scenarios.if_app_error Scenarios.every_second (Some 10%Q) None
              Scenarios.live 20%nat Scenarios.closing_cleanly
              (tidy_env_ledger Scenarios.streams_1_34)
              (fun _ _ => eq_refl) eq_refl)
    as [_ [_ [Hreleased _]]].
  apply Hreleased. fold r. rewrite Hend. discriminate.
Defined.
